(** * A shallow embedding of [archiver.py]

    The archiver compresses or extracts a file or a directory with one of two
    codecs (zstd, bz2), wraps directories in a tar container, draws a
    Pacman-style progress bar and prints benchmark figures.

    The embedding follows the Python functions one by one:
    [calc_size], [pacman_progress], [zstd_compress], [zstd_decompress],
    [bz2_compress], [bz2_decompress], [tar_build], [tar_unpack] and [main].
    The process state (file system, terminal, log of file-system calls) is
    threaded through a small state-and-exception monad in which the state
    survives an abort, because what is left on disk after a failure matters.

    The compression primitives and the tar container format are external
    libraries; they enter as section variables and are instantiated by a toy
    codec and a toy container ([Module Toy]) for concrete runs. *)

From Stdlib Require Import ZArith List String Ascii Bool Lia Sorted.
Import ListNotations.
Open Scope string_scope.
Open Scope list_scope.
Open Scope Z_scope.

Set Implicit Arguments.

(* ===================================================================== *)
(** * Python data: byte strings, slices, ranges                          *)
(* ===================================================================== *)

Definition bytes := list Byte.byte.

(** [len(x)] *)
Definition len {A : Type} (l : list A) : Z := Z.of_nat (List.length l).

(** [x[i:j]] for [0 <= i]; the bounds are clamped to the length. *)
Definition slice {A : Type} (l : list A) (i j : Z) : list A :=
  firstn (Z.to_nat (j - i)) (skipn (Z.to_nat i) l).

(** [range(start, stop, step)] for a positive [step]. *)
Definition py_range (start stop step : Z) : list Z :=
  map (fun k => start + Z.of_nat k * step)
      (seq 0 (Z.to_nat ((stop - start + step - 1) / step))).

(** [s * n]: repetition of a one-element sequence; empty for [n <= 0]. *)
Definition py_repeat {A : Type} (x : A) (n : Z) : list A := repeat x (Z.to_nat n).

(* ===================================================================== *)
(** * pathlib: components, name, suffix, suffixes                        *)
(* ===================================================================== *)

(** A [Path] is the list of its components, relative to the working
    directory; [[]] is the working directory itself. *)
Definition path := list string.

(** [Path.name] *)
Definition name (p : path) : string := last p EmptyString.

(** [os.path.basename(folder)] of a [Path]: the working directory prints
    as a single dot. *)
Definition basename (p : path) : string := last p ".".

(** [str(path)] *)
Definition path_str (p : path) : string :=
  match p with [] => "." | _ => String.concat "/" p end.

Definition dot : ascii := "."%char.

(** Scans a reversed name for its last dot: returns the text before the dot
    (in reading order) and the extension, dot included. *)
Fixpoint rsplit_dot (r : list ascii) (ext : list ascii)
  : option (list ascii * list ascii) :=
  match r with
  | [] => None
  | c :: r' =>
      if Ascii.eqb c dot then Some (rev r', c :: ext)
      else rsplit_dot r' (c :: ext)
  end.

(** [os.path.splitext] on a single component: the extension starts at the
    last dot, unless only dots precede it. *)
Definition splitext (nm : list ascii) : list ascii * list ascii :=
  match rsplit_dot (rev nm) [] with
  | Some (stem, ext) =>
      if existsb (fun c => negb (Ascii.eqb c dot)) stem then (stem, ext)
      else (nm, [])
  | None => (nm, [])
  end.

(** [Path.suffix] *)
Definition suffix (p : path) : string :=
  string_of_list_ascii (snd (splitext (list_ascii_of_string (name p)))).

(** The [while suffix:] loop of [Path.suffixes]; every round shortens the
    stem, so the length of the name bounds the number of rounds. *)
Fixpoint suffixes_loop (fuel : nat) (stem : list ascii) (acc : list string)
  : list string :=
  match fuel with
  | O => acc
  | S fuel' =>
      match splitext stem with
      | (_, []) => acc
      | (stem', suf) =>
          suffixes_loop fuel' stem' (acc ++ [string_of_list_ascii suf])
      end
  end.

(** [Path.suffixes] *)
Definition suffixes (p : path) : list string :=
  let nm := list_ascii_of_string (name p) in
  rev (suffixes_loop (List.length nm) nm []).

(** [x in [".zst", ".bz2"]] *)
Definition is_codec_ext (ext : string) : bool :=
  String.eqb ext ".zst" || String.eqb ext ".bz2".

(** [len(p.suffixes) == 2 and p.suffixes[0] == ".tar"] *)
Definition is_tar_name (p : path) : bool :=
  (len (suffixes p) =? 2) && String.eqb (nth 0 (suffixes p) EmptyString) ".tar".

(* ===================================================================== *)
(** * The file system                                                    *)
(* ===================================================================== *)

(** A node is a regular file with its contents or a directory with its
    entries.  Symbolic links and special files are not modelled. *)
Inductive node : Type :=
| File (data : bytes)
| Dir (entries : list (string * node)).

Fixpoint assoc (c : string) (es : list (string * node)) : option node :=
  match es with
  | [] => None
  | (c', n) :: es' => if String.eqb c c' then Some n else assoc c es'
  end.

Definition unlink (c : string) (es : list (string * node))
  : list (string * node) :=
  filter (fun e => negb (String.eqb c (fst e))) es.

(** Replaces the entry [c], keeping the others. *)
Definition bind_entry (c : string) (n : node) (es : list (string * node))
  : list (string * node) :=
  (c, n) :: unlink c es.

(** Path resolution from a node. *)
Fixpoint get (r : node) (p : path) : option node :=
  match p with
  | [] => Some r
  | c :: p' =>
      match r with
      | Dir es =>
          match assoc c es with
          | Some n => get n p'
          | None => None
          end
      | File _ => None
      end
  end.

(** Rebuilds the tree with the node at [p] replaced by [f] of what is there
    ([None] when nothing is).  Every proper ancestor of [p] must be an
    existing directory; [f] may refuse. *)
Fixpoint alter (f : option node -> option (option node)) (r : node) (p : path)
  : option node :=
  match p with
  | [] => None
  | c :: p' =>
      match r with
      | File _ => None
      | Dir es =>
          match p' with
          | [] =>
              match f (assoc c es) with
              | Some (Some n) => Some (Dir (bind_entry c n es))
              | Some None => Some (Dir (unlink c es))
              | None => None
              end
          | _ :: _ =>
              match assoc c es with
              | Some child =>
                  match alter f child p' with
                  | Some child' => Some (Dir (bind_entry c child' es))
                  | None => None
                  end
              | None => None
              end
          end
      end
  end.

Definition is_file_node (o : option node) : bool :=
  match o with Some (File _) => true | _ => false end.

Definition is_dir_node (o : option node) : bool :=
  match o with Some (Dir _) => true | _ => false end.

(** Writing a regular file: creates or truncates; refuses a directory. *)
Definition write_at (d : bytes) (o : option node) : option (option node) :=
  match o with
  | Some (Dir _) => None
  | _ => Some (Some (File d))
  end.

(** Removing a regular file: refuses a directory or a missing entry. *)
Definition remove_at (o : option node) : option (option node) :=
  match o with
  | Some (File _) => Some None
  | _ => None
  end.

(** Placing a directory node over an existing directory. *)
Definition redir_at (n : node) (o : option node) : option (option node) :=
  match o with
  | Some (Dir _) => Some (Some n)
  | _ => None
  end.

(** [mkdir] of one component when it is missing; an existing directory is
    left alone, an existing file is an error ([exist_ok] only pardons
    directories). *)
Definition mkdir_at (o : option node) : option (option node) :=
  match o with
  | None => Some (Some (Dir []))
  | Some (Dir es) => Some (Some (Dir es))
  | Some (File _) => None
  end.

(** [os.makedirs(p, exist_ok=True)]: creates the prefixes of [p] from the
    outermost inwards. *)
Fixpoint makedirs_from (r : node) (done todo : path) : option node :=
  match todo with
  | [] => Some r
  | c :: todo' =>
      match alter mkdir_at r (done ++ [c]) with
      | Some r' => makedirs_from r' (done ++ [c]) todo'
      | None => None
      end
  end.

(** [p.rglob("*")]: every descendant of a directory, depth first. *)
Fixpoint rglob (n : node) : list node :=
  match n with
  | File _ => []
  | Dir es => flat_map (fun e => snd e :: rglob (snd e)) es
  end.

(** [f.stat().st_size for f in ... if f.is_file()] *)
Definition file_sizes (l : list node) : list Z :=
  flat_map (fun f => match f with File d => [len d] | Dir _ => [] end) l.

(** [sum(...)] *)
Definition sum_Z (l : list Z) : Z := fold_right Z.add 0 l.

(* ===================================================================== *)
(** * The process: state, aborts, the monad                              *)
(* ===================================================================== *)

(** What reaches the terminal.  [Redraw] is the [sys.stdout.write] of
    [pacman_progress]: the bar is the sequence of its code points, and the
    percentage is kept as the pair it is computed from.  [Benchmark] stands
    for the statistics block; the elapsed time is not modelled. *)
Inductive out_event : Type :=
| Redraw (label : string) (bar : list Z) (done total : Z)
| Println (s : string)
| Benchmark (in_size out_size : Z) (with_ratio : bool).

(** File-system calls, logged in the order they are attempted. *)
Inductive fs_op : Type :=
| OpStat (p : path)
| OpList (p : path)
| OpRead (p : path)
| OpWrite (p : path)
| OpRemove (p : path)
| OpMkdirs (p : path)
| OpUntar (tar dest : path). (* a call of [tar_unpack] *)

Inductive exn : Type :=
| OSError (p : path)
| CodecError
| BundleError.

(** [sys.exit(code)] or an exception nobody catches. *)
Inductive abort : Type :=
| SysExit (code : Z)
| Uncaught (e : exn).

Inductive result (A : Type) : Type :=
| Ok (a : A)
| Abort (x : abort).
Arguments Abort {A} x.

(** [reports] records the calls of [pacman_progress] as
    [(done, total, label)], newest last; [oplog] likewise for [fs_op]. *)
Record world : Type := mkWorld {
  root : node;
  stdout : list out_event;
  reports : list (Z * Z * string);
  oplog : list fs_op
}.

Definition M (A : Type) : Type := world -> result A * world.

Definition ret {A : Type} (a : A) : M A := fun w => (Ok a, w).

Definition bind {A B : Type} (m : M A) (k : A -> M B) : M B :=
  fun w =>
    match m w with
    | (Ok a, w') => k a w'
    | (Abort x, w') => (Abort x, w')
    end.

Definition raise {A : Type} (e : exn) : M A := fun w => (Abort (Uncaught e), w).

(** [sys.exit(code)] *)
Definition sys_exit {A : Type} (code : Z) : M A :=
  fun w => (Abort (SysExit code), w).

Declare Scope m_scope.
Delimit Scope m_scope with M.
Notation "x <- m ;; k" := (bind m (fun x => k))
  (at level 61, m at next level, right associativity) : m_scope.
Notation "m ;; k" := (bind m (fun _ => k))
  (at level 61, right associativity) : m_scope.
Open Scope m_scope.

Definition emit (e : out_event) : M unit :=
  fun w => (Ok tt, mkWorld (root w) (stdout w ++ [e]) (reports w) (oplog w)).

Definition log_op (o : fs_op) : M unit :=
  fun w => (Ok tt, mkWorld (root w) (stdout w) (reports w) (oplog w ++ [o])).

Definition log_report (r : Z * Z * string) : M unit :=
  fun w => (Ok tt, mkWorld (root w) (stdout w) (reports w ++ [r]) (oplog w)).

Definition get_root : M node := fun w => (Ok (root w), w).

Definition set_root (r : node) : M unit :=
  fun w => (Ok tt, mkWorld r (stdout w) (reports w) (oplog w)).

(** [print(s)] *)
Definition print (s : string) : M unit := emit (Println s).

(** [for i in l: body] with the loop variables in [s]. *)
Fixpoint for_loop {S : Type} (l : list Z) (body : Z -> S -> M S) (s : S) : M S :=
  match l with
  | [] => ret s
  | i :: l' => s' <- body i s ;; for_loop l' body s'
  end.

(** [while i < total: body; i += step].  [fuel] bounds the rounds. *)
Fixpoint while_loop {S : Type} (fuel : nat) (i total step : Z)
  (body : Z -> S -> M S) (s : S) : M S :=
  match fuel with
  | O => ret s
  | Datatypes.S fuel' =>
      if i <? total then
        s' <- body i s ;; while_loop fuel' (i + step) total step body s'
      else ret s
  end.

(** ** pathlib and os calls *)

(** [p.is_file()] *)
Definition path_is_file (p : path) : M bool :=
  log_op (OpStat p) ;; r <- get_root ;; ret (is_file_node (get r p)).

(** [p.is_dir()] *)
Definition path_is_dir (p : path) : M bool :=
  log_op (OpStat p) ;; r <- get_root ;; ret (is_dir_node (get r p)).

(** [os.path.exists(p)] *)
Definition path_exists (p : path) : M bool :=
  log_op (OpStat p) ;; r <- get_root ;;
  ret (match get r p with Some _ => true | None => false end).

(** [p.stat().st_size] of a regular file *)
Definition path_file_size (p : path) : M Z :=
  log_op (OpStat p) ;; r <- get_root ;;
  match get r p with
  | Some (File d) => ret (len d)
  | _ => raise (OSError p)
  end.

(** [p.rglob("*")] *)
Definition path_rglob (p : path) : M (list node) :=
  log_op (OpList p) ;; r <- get_root ;;
  match get r p with
  | Some n => ret (rglob n)
  | None => ret []
  end.

(** [Path(p).read_bytes()] *)
Definition read_bytes (p : path) : M bytes :=
  log_op (OpRead p) ;; r <- get_root ;;
  match get r p with
  | Some (File d) => ret d
  | _ => raise (OSError p)
  end.

(** [Path(p).write_bytes(d)] *)
Definition write_bytes (p : path) (d : bytes) : M unit :=
  log_op (OpWrite p) ;; r <- get_root ;;
  match alter (write_at d) r p with
  | Some r' => set_root r'
  | None => raise (OSError p)
  end.

(** [os.remove(p)] *)
Definition os_remove (p : path) : M unit :=
  log_op (OpRemove p) ;; r <- get_root ;;
  match alter remove_at r p with
  | Some r' => set_root r'
  | None => raise (OSError p)
  end.

(** [os.makedirs(p, exist_ok=True)] *)
Definition os_makedirs (p : path) : M unit :=
  log_op (OpMkdirs p) ;; r <- get_root ;;
  match makedirs_from r [] p with
  | Some r' => set_root r'
  | None => raise (OSError p)
  end.

(* ===================================================================== *)
(** * calc_size                                                          *)
(* ===================================================================== *)

Definition calc_size (p : path) : M Z :=
  f <- path_is_file p ;;
  if f then path_file_size p
  else
    d <- path_is_dir p ;;
    if d then
      fs <- path_rglob p ;;
      ret (sum_Z (file_sizes fs))
    else ret 0.

(* ===================================================================== *)
(** * pacman_progress                                                    *)
(* ===================================================================== *)

Definition full_block : Z := 9608.  (* U+2588 *)
Definition light_shade : Z := 9617. (* U+2591 *)
Definition pac : Z := 62.           (* ">" *)

Definition width : Z := 30.

(** [int(width * (done / total))].  The quotient is taken exactly.  Python
    goes through a double: it rounds [done / total], then the product, each
    to 53 bits, which moves the product by less than [2^-48], whereas a
    product that is not a whole number is at least [1 / total] away from
    one, and the whole products [0 .. 30] come out exactly.  The two
    therefore agree for [0 <= done <= total <= 2^40], sizes beyond any
    file the passes can hold in memory, and at [done = total] for every
    [total]; for larger totals they can differ by one cell, and the
    theorem on what is drawn below completion is stated up to [2^40]. *)
Definition filled_cells (done total : Z) : Z := Z.quot (width * done) total.

(** [bar = "█" * filled + pac + "░" * (empty - 1 if empty > 0 else 0)] *)
Definition render_bar (filled : Z) : list Z :=
  let empty := width - filled in
  py_repeat full_block filled ++ [pac] ++
  py_repeat light_shade (if empty >? 0 then empty - 1 else 0).

Definition pacman_progress (done total : Z) (label : string) : M unit :=
  log_report (done, total, label) ;;
  if total =? 0 then ret tt
  else
    let filled := filled_cells done total in
    emit (Redraw label (render_bar filled) done total) ;;
    if done >=? total then print EmptyString else ret tt.

(* ===================================================================== *)
(** * The external libraries                                             *)
(* ===================================================================== *)

(** What the program uses of [compression.zstd], [bz2] and [tarfile].
    A compressor or decompressor object is its state; a method returns the
    new state with its output.  [None] is a raised library error. *)
Record backend : Type := mkBackend {
  (** [zstd.ZstdCompressor()], [.compress(part)], [.flush()] *)
  zc_state : Type;
  zc_new : zc_state;
  zc_compress : zc_state -> bytes -> zc_state * bytes;
  zc_flush : zc_state -> bytes;
  (** [zstd.ZstdDecompressor()], [.decompress(block)] *)
  zd_state : Type;
  zd_new : zd_state;
  zd_decompress : zd_state -> bytes -> option (zd_state * bytes);
  (** [bz2.compress(data)], [bz2.decompress(data)] *)
  bz2_compress_fn : bytes -> bytes;
  bz2_decompress_fn : bytes -> option bytes;
  (** [tar.add(folder, arcname=...)] on a fresh archive: the bytes of an
      archive holding the tree under the name [arcname] *)
  tar_add : string -> node -> bytes;
  (** [tar.extractall(dest_dir)]: the directory after extraction, from the
      archive's bytes and the directory before *)
  tar_extractall : bytes -> node -> option node
}.

(** [256 * 1024] *)
Definition chunk_size : Z := 256 * 1024.

Section Archiver.

Variable B : backend.

(* ===================================================================== *)
(** * The codec passes                                                   *)
(* ===================================================================== *)

Definition zstd_compress (src dst : path) (show_progress : bool) : M unit :=
  data <- read_bytes src ;;
  let compressor := zc_new B in
  let total := len data in
  let chunk := chunk_size in
  st <- for_loop (py_range 0 total chunk)
          (fun i (st : zc_state B * bytes) =>
             let (compressor, out) := st in
             let part := slice data i (i + chunk) in
             let (compressor', piece) := zc_compress B compressor part in
             (if show_progress
              then pacman_progress (i + len part) total "Сжатие zstd"
              else ret tt) ;;
             ret (compressor', out ++ piece))
          (compressor, []) ;;
  let (compressor, out) := st in
  let out := out ++ zc_flush B compressor in
  write_bytes dst out ;;
  if show_progress then print "✔ Архивация завершена" else ret tt.

(** The [while] loop advances [i] by [step] up to [total], so [total]
    rounds are more than enough; [while_is_for] shows that it ends by
    itself within them. *)
Definition zstd_decompress (src dst : path) (show_progress : bool) : M unit :=
  data <- read_bytes src ;;
  let total := len data in
  let decompressor := zd_new B in
  let step := chunk_size in
  st <- while_loop (Z.to_nat total) 0 total step
          (fun i (st : zd_state B * bytes) =>
             let (decompressor, out) := st in
             let block := slice data i (i + step) in
             match zd_decompress B decompressor block with
             | Some (decompressor', piece) =>
                 (if show_progress
                  then pacman_progress (i + len block) total "Извлечение zstd"
                  else ret tt) ;;
                 ret (decompressor', out ++ piece)
             | None => raise CodecError
             end)
          (decompressor, []) ;;
  let (_, out) := st in
  write_bytes dst out ;;
  if show_progress then print "✔ Распаковка завершена" else ret tt.

Definition bz2_compress (src dst : path) (show_progress : bool) : M unit :=
  data <- read_bytes src ;;
  let result := bz2_compress_fn B data in
  write_bytes dst result ;;
  if show_progress then
    pacman_progress (len data) (len data) "Сжатие bz2" ;;
    print "✔ Архив создан"
  else ret tt.

Definition bz2_decompress (src dst : path) (show_progress : bool) : M unit :=
  data <- read_bytes src ;;
  match bz2_decompress_fn B data with
  | Some result =>
      write_bytes dst result ;;
      if show_progress then
        pacman_progress (len data) (len data) "Извлечение bz2" ;;
        print "✔ Файл восстановлен"
      else ret tt
  | None => raise CodecError
  end.

(* ===================================================================== *)
(** * The tar container                                                  *)
(* ===================================================================== *)

(** [tarfile.open(tar_path, "w")] creates or truncates the archive file;
    [tar.add] reads the tree under [folder], leaving out the archive
    itself; closing writes the archive. *)
Definition tar_build (folder tar_path : path) : M unit :=
  print ("→ Архивируется каталог: " ++ path_str folder)%string ;;
  write_bytes tar_path [] ;;
  log_op (OpList folder) ;;
  r <- get_root ;;
  match alter remove_at r tar_path with
  | Some r_without =>
      match get r_without folder with
      | Some tree =>
          write_bytes tar_path (tar_add B (basename folder) tree)
      | None => raise (OSError folder)
      end
  | None => raise (OSError tar_path)
  end.

(** [os.makedirs], then [tarfile.open(tar_path, "r")] and
    [tar.extractall(dest_dir)]. *)
Definition tar_unpack (tar_path dest_dir : path) : M unit :=
  log_op (OpUntar tar_path dest_dir) ;;
  os_makedirs dest_dir ;;
  print ("→ Извлечение содержимого в: " ++ path_str dest_dir)%string ;;
  data <- read_bytes tar_path ;;
  r <- get_root ;;
  match get r dest_dir with
  | Some before =>
      match tar_extractall B data before with
      | Some after =>
          match dest_dir with
          | [] => set_root after
          | _ :: _ =>
              match alter (redir_at after) r dest_dir with
              | Some r' => set_root r'
              | None => raise (OSError dest_dir)
              end
          end
      | None => raise BundleError
      end
  | None => raise (OSError dest_dir)
  end.

(* ===================================================================== *)
(** * main                                                               *)
(* ===================================================================== *)

(** The namespace [parse_args] returns. *)
Record args : Type := mkArgs {
  compress : bool;
  extract : bool;
  source : path;
  target : path;
  benchmark : bool;
  progress : bool
}.

Definition tmp_data_tar : path := ["tmp_data.tar"].
Definition tmp_unpack_tar : path := ["tmp_unpack.tar"].

(** [main] from its second statement on, given the namespace [a] that
    [args = parse_args()] returned.  [parse_args] itself is [argparse],
    which can end the process on a bad command line or on [-h]; it is not
    modelled. *)
Definition main (a : args) : M unit :=
  if Bool.eqb (compress a) (extract a) then
    print "Укажите один режим: либо -c (сжать), либо -x (распаковать)" ;;
    sys_exit 1
  else
    let src := source a in
    let dst := target a in
    is_dir <- path_is_dir src ;;
    let is_tar_target := is_tar_name dst in
    let ext := if compress a then suffix dst else suffix src in
    if negb (is_codec_ext ext) then
      print "Поддерживаются только .zst и .bz2 (включая .tar.zst/.tar.bz2)" ;;
      sys_exit 1
    else
      (if compress a then
         input_obj <-
           (if is_dir then
              if negb is_tar_target then
                print "Для каталогов используйте выходной формат .tar.zst или .tar.bz2" ;;
                sys_exit 1
              else
                let temp_tar := tmp_data_tar in
                tar_build src temp_tar ;;
                ret temp_tar
            else ret src) ;;
         (if String.eqb ext ".zst"
          then zstd_compress input_obj dst (progress a)
          else bz2_compress input_obj dst (progress a)) ;;
         (if is_dir then
            e <- path_exists tmp_data_tar ;;
            if e then os_remove tmp_data_tar else ret tt
          else ret tt)
       else
         let is_tar_src := is_tar_name src in
         if is_tar_src then
           let temp_tar := tmp_unpack_tar in
           (if String.eqb ext ".zst"
            then zstd_decompress src temp_tar (progress a)
            else bz2_decompress src temp_tar (progress a)) ;;
           tar_unpack temp_tar dst ;;
           os_remove temp_tar
         else
           if String.eqb ext ".zst"
           then zstd_decompress src dst (progress a)
           else bz2_decompress src dst (progress a)) ;;
      if benchmark a then
        in_size <- calc_size (source a) ;;
        out_size <- calc_size (target a) ;;
        emit (Benchmark in_size out_size (negb (in_size =? 0)))
      else ret tt.

End Archiver.

(* ===================================================================== *)
(** * A toy backend                                                      *)
(* ===================================================================== *)

(** Small stand-ins for the three libraries, enough to run the program:
    a streaming codec that frames its input with one magic byte, a one-shot
    codec that does the same, and a container that writes a tree in a
    prefix code. *)
Module Toy.

Import Byte.


Definition magic_zst : byte := x28.
Definition magic_bz2 : byte := x42.

(** The compressor remembers whether the magic byte went out. *)
Definition z_compress (started : bool) (part : bytes) : bool * bytes :=
  (true, if started then part else magic_zst :: part).

Definition z_flush (started : bool) : bytes :=
  if started then [] else [magic_zst].

(** The decompressor waits for the magic byte, then copies. *)
Definition z_decompress (started : bool) (block : bytes)
  : option (bool * bytes) :=
  if started then Some (true, block)
  else
    match block with
    | [] => Some (false, [])
    | b :: rest =>
        if Byte.eqb b magic_zst then Some (true, rest) else None
    end.

Definition b_compress (data : bytes) : bytes := magic_bz2 :: data.

Definition b_decompress (data : bytes) : option bytes :=
  match data with
  | b :: rest => if Byte.eqb b magic_bz2 then Some rest else None
  | [] => None
  end.

(** Numbers in unary, strings and contents with their length in front. *)
Fixpoint enc_nat (n : nat) : bytes :=
  match n with
  | O => [x00]
  | S n' => x01 :: enc_nat n'
  end.

Definition enc_blob (d : bytes) : bytes := enc_nat (List.length d) ++ d.

Definition enc_name (s : string) : bytes := enc_blob (list_byte_of_string s).

Fixpoint enc_node (n : node) : bytes :=
  match n with
  | File d => x46 :: enc_blob d
  | Dir es =>
      x44 :: enc_nat (List.length es) ++
      flat_map (fun e => enc_name (fst e) ++ enc_node (snd e)) es
  end.

Fixpoint dec_nat (b : bytes) : option (nat * bytes) :=
  match b with
  | x00 :: rest => Some (O, rest)
  | x01 :: rest =>
      match dec_nat rest with
      | Some (n, rest') => Some (S n, rest')
      | None => None
      end
  | _ => None
  end.

Definition dec_blob (b : bytes) : option (bytes * bytes) :=
  match dec_nat b with
  | Some (n, rest) =>
      if (List.length rest <? n)%nat then None
      else Some (firstn n rest, skipn n rest)
  | None => None
  end.

Definition dec_name (b : bytes) : option (string * bytes) :=
  match dec_blob b with
  | Some (d, rest) => Some (string_of_list_byte d, rest)
  | None => None
  end.

(** [fuel] bounds the nesting depth. *)
Fixpoint dec_node (fuel : nat) (b : bytes) : option (node * bytes) :=
  match fuel with
  | O => None
  | S fuel' =>
      match b with
      | x46 :: rest =>
          match dec_blob rest with
          | Some (d, rest') => Some (File d, rest')
          | None => None
          end
      | x44 :: rest =>
          match dec_nat rest with
          | Some (k, rest') =>
              match
                (fix entries (k : nat) (b : bytes)
                   : option (list (string * node) * bytes) :=
                   match k with
                   | O => Some ([], b)
                   | S k' =>
                       match dec_name b with
                       | Some (nm, b1) =>
                           match dec_node fuel' b1 with
                           | Some (n, b2) =>
                               match entries k' b2 with
                               | Some (es, b3) => Some ((nm, n) :: es, b3)
                               | None => None
                               end
                           | None => None
                           end
                       | None => None
                       end
                   end) k rest'
              with
              | Some (es, rest'') => Some (Dir es, rest'')
              | None => None
              end
          | None => None
          end
      | _ => None
      end
  end.

(** An archive is the encoding of the directory of its top-level members.
    A directory added under the name [.] (the working directory) gives its
    entries as the members, as [tarfile] stores them ([./a.txt], ...). *)
Definition t_add (arcname : string) (tree : node) : bytes :=
  match tree with
  | Dir es =>
      if String.eqb arcname "." then enc_node (Dir es)
      else enc_node (Dir [(arcname, tree)])
  | File _ => enc_node (Dir [(arcname, tree)])
  end.

(** Members replace what the directory holds under their names. *)
Definition t_extractall (data : bytes) (before : node) : option node :=
  match dec_node (List.length data) data, before with
  | Some (Dir members, []), Dir es =>
      Some (Dir (fold_right (fun m acc => bind_entry (fst m) (snd m) acc)
                            es members))
  | _, _ => None
  end.

Definition libs : backend :=
  mkBackend false z_compress z_flush false z_decompress
            b_compress b_decompress t_add t_extractall.

End Toy.

(* ===================================================================== *)
(** * Definitions that follow the specification's words                  *)
(* ===================================================================== *)

(** "the target's extension when compressing, the source's extension when
    extracting" *)
Definition artifact_ext (a : args) : string :=
  if compress a then suffix (target a) else suffix (source a).

(** "sum of file sizes for a directory tree (directories themselves
    contribute 0); exact file size for a single file" *)
Fixpoint tree_size (n : node) : Z :=
  match n with
  | File d => len d
  | Dir es => sum_Z (map (fun e => tree_size (snd e)) es)
  end.

(** "0 if path does not exist" *)
Definition spec_size (r : node) (p : path) : Z :=
  match get r p with
  | Some n => tree_size n
  | None => 0
  end.

(** "the double-suffix bundle form (outer .tar suffix followed by a codec
    suffix)" *)
Definition bundle_form (p : path) : bool :=
  is_tar_name p && is_codec_ext (suffix p).

Definition msg_mode : string :=
  "Укажите один режим: либо -c (сжать), либо -x (распаковать)".
Definition msg_ext : string :=
  "Поддерживаются только .zst и .bz2 (включая .tar.zst/.tar.bz2)".
Definition msg_dir : string :=
  "Для каталогов используйте выходной формат .tar.zst или .tar.bz2".

(** ** The codec passes in the specification's words *)

(** "iterates the input in fixed-size chunks": the first [k] bytes, then the
    chunks of the rest.  Every round takes at least one byte, so the length
    of the input bounds the rounds. *)
Fixpoint chunks_fuel (fuel : nat) (k : nat) (data : bytes) : list bytes :=
  match fuel with
  | O => []
  | S fuel' =>
      match data with
      | [] => []
      | _ :: _ => firstn k data :: chunks_fuel fuel' k (skipn k data)
      end
  end.

Definition chunks (k : Z) (data : bytes) : list bytes :=
  chunks_fuel (List.length data) (Z.to_nat k) data.

(** "bytesConsumedSoFar" after each chunk *)
Fixpoint consumed (sofar : Z) (parts : list bytes) : list Z :=
  match parts with
  | [] => []
  | p :: ps => (sofar + len p) :: consumed (sofar + len p) ps
  end.

(** "reports (bytesConsumedSoFar, totalInputBytes) after each chunk" *)
Definition spec_reports (label : string) (data : bytes)
  : list (Z * Z * string) :=
  map (fun d => (d, len data, label)) (consumed 0 (chunks chunk_size data)).

Section Streams.

Variable B : backend.

(** "compressing each and appending to an accumulating output buffer" *)
Fixpoint zc_stream (st : zc_state B) (out : bytes) (parts : list bytes)
  : zc_state B * bytes :=
  match parts with
  | [] => (st, out)
  | p :: ps =>
      let (st', piece) := zc_compress B st p in
      zc_stream st' (out ++ piece) ps
  end.

(** "initializes a fresh codec compressor instance ... and finalizes with
    an explicit flush step that drains any buffered codec state into the
    output" *)
Definition zc_finish (s : zc_state B * bytes) : bytes :=
  snd s ++ zc_flush B (fst s).

Definition stream_compress (parts : list bytes) : bytes :=
  zc_finish (zc_stream (zc_new B) [] parts).

Definition spec_compress_pass (data : bytes) : bytes :=
  stream_compress (chunks chunk_size data).

(** One decompressor object fed block after block. *)
Fixpoint zd_stream (st : zd_state B) (out : bytes) (blocks : list bytes)
  : option (zd_state B * bytes) :=
  match blocks with
  | [] => Some (st, out)
  | b :: bs =>
      match zd_decompress B st b with
      | Some (st', piece) => zd_stream st' (out ++ piece) bs
      | None => None
      end
  end.

(** The number of leading blocks the decompressor accepts. *)
Fixpoint zd_accepted (st : zd_state B) (blocks : list bytes) : nat :=
  match blocks with
  | [] => O
  | b :: bs =>
      match zd_decompress B st b with
      | Some (st', _) => S (zd_accepted st' bs)
      | None => O
      end
  end.

Definition stream_decompress (blocks : list bytes) : option bytes :=
  match zd_stream (zd_new B) [] blocks with
  | Some (_, out) => Some out
  | None => None
  end.

(** What each codec makes of a whole file. *)
Definition encode (ext : string) (data : bytes) : bytes :=
  if String.eqb ext ".zst" then spec_compress_pass data
  else bz2_compress_fn B data.

Definition decode (ext : string) (data : bytes) : option bytes :=
  if String.eqb ext ".zst" then stream_decompress (chunks chunk_size data)
  else bz2_decompress_fn B data.

(** The libraries' contracts: a frame decodes to what went in, however
    either side is cut into non-empty blocks; an archive unpacked where
    its member is absent yields the member; the archive of a directory
    added under the name [.] (the working directory), unpacked into an
    empty directory, yields a directory with the same entries. *)
Definition zstd_lossless : Prop :=
  forall parts blocks,
    Forall (fun b => b <> []) blocks ->
    List.concat blocks = stream_compress parts ->
    stream_decompress blocks = Some (List.concat parts).

Definition bz2_lossless : Prop :=
  forall data, bz2_decompress_fn B (bz2_compress_fn B data) = Some data.

Definition tar_lossless : Prop :=
  (forall arcname tree before after,
      arcname <> "." ->
      get before [arcname] = None ->
      tar_extractall B (tar_add B arcname tree) before = Some after ->
      get after [arcname] = Some tree)
  /\ (forall es after,
        tar_extractall B (tar_add B "." (Dir es)) (Dir []) = Some after ->
        is_dir_node (Some after) = true
        /\ forall c, get after [c] = get (Dir es) [c]).

(** The four codec passes. *)
Inductive pass : Type :=
| ZstdCompress
| ZstdDecompress
| Bz2Compress
| Bz2Decompress.

Definition run_pass (p : pass) : path -> path -> bool -> M unit :=
  match p with
  | ZstdCompress => zstd_compress B
  | ZstdDecompress => zstd_decompress B
  | Bz2Compress => bz2_compress B
  | Bz2Decompress => bz2_decompress B
  end.

End Streams.

(** ** Bookkeeping on the process state *)

Definition logged (w : world) (ops : list fs_op) : world :=
  mkWorld (root w) (stdout w) (reports w) (oplog w ++ ops).

Definition noted (w : world) (evs : list out_event)
  (reps : list (Z * Z * string)) : world :=
  mkWorld (root w) (stdout w ++ evs) (reports w ++ reps) (oplog w).

Definition with_root (w : world) (r : node) : world :=
  mkWorld r (stdout w) (reports w) (oplog w).

(** What one call of [pacman_progress] writes. *)
Definition progress_events (done total : Z) (label : string)
  : list out_event :=
  if total =? 0 then []
  else
    Redraw label (render_bar (filled_cells done total)) done total
    :: (if done >=? total then [Println EmptyString] else []).

Definition done_of (r : Z * Z * string) : Z := fst (fst r).
Definition total_of (r : Z * Z * string) : Z := snd (fst r).

(** The reports and the terminal output of a chunk loop over the
    offsets [l]. *)
Definition loop_reports (label : string) (data : bytes) (l : list Z)
  : list (Z * Z * string) :=
  map (fun i => (i + len (slice data i (i + chunk_size)), len data, label)) l.

Definition loop_events (label : string) (data : bytes) (l : list Z)
  : list out_event :=
  flat_map
    (fun i => progress_events (i + len (slice data i (i + chunk_size)))
                              (len data) label) l.

Definition offsets (data : bytes) : list Z :=
  py_range 0 (len data) chunk_size.

Definition when_shown {A : Type} (show_progress : bool) (l : list A) : list A :=
  if show_progress then l else [].

(** ** The stages of [main] *)

Section Stages.

Variable B : backend.

(** The two-way choice [main] makes on the extension, per direction. *)
Definition compress_pass (ext : string) (src dst : path) (sp : bool)
  : M unit :=
  if String.eqb ext ".zst" then zstd_compress B src dst sp
  else bz2_compress B src dst sp.

Definition decompress_pass (ext : string) (src dst : path) (sp : bool)
  : M unit :=
  if String.eqb ext ".zst" then zstd_decompress B src dst sp
  else bz2_decompress B src dst sp.

(** The benchmark block at the end of [main]. *)
Definition bench_block (a : args) : M unit :=
  if benchmark a then
    in_size <- calc_size (source a) ;;
    out_size <- calc_size (target a) ;;
    emit (Benchmark in_size out_size (negb (in_size =? 0)))
  else ret tt.

(** The compress branch of [main] once the source is known to be a
    directory or not. *)
Definition compress_branch (a : args) (is_dir : bool) : M unit :=
  input_obj <-
    (if is_dir then
       if negb (is_tar_name (target a)) then
         print
           "Для каталогов используйте выходной формат .tar.zst или .tar.bz2" ;;
         sys_exit 1
       else
         tar_build B (source a) tmp_data_tar ;;
         ret tmp_data_tar
     else ret (source a)) ;;
  compress_pass (suffix (target a)) input_obj (target a) (progress a) ;;
  (if is_dir then
     e <- path_exists tmp_data_tar ;;
     if e then os_remove tmp_data_tar else ret tt
   else ret tt).

(** The extract branch of [main]. *)
Definition extract_branch (a : args) : M unit :=
  if is_tar_name (source a) then
    decompress_pass (suffix (source a)) (source a) tmp_unpack_tar
                    (progress a) ;;
    tar_unpack B tmp_unpack_tar (target a) ;;
    os_remove tmp_unpack_tar
  else
    decompress_pass (suffix (source a)) (source a) (target a) (progress a).

End Stages.

(** The calls a direct (unbundled) extraction may make: status queries,
    the read of the source, the write of the target. *)
Definition direct_op (src dst : path) (o : fs_op) : Prop :=
  match o with
  | OpStat _ | OpList _ => True
  | OpRead p => p = src
  | OpWrite p => p = dst
  | OpRemove _ | OpMkdirs _ | OpUntar _ _ => False
  end.

(** ** What a computation leaves untouched, what it logs *)

(** [m] leaves the component [proj] of the process state as it was. *)
Definition preserves {X : Type} (proj : world -> X) {A : Type} (m : M A)
  : Prop :=
  forall w, proj (snd (m w)) = proj w.

(** [m] only adds calls satisfying [P] to the log. *)
Definition appends (P : fs_op -> Prop) {A : Type} (m : M A) : Prop :=
  forall w, exists ops, oplog (snd (m w)) = oplog w ++ ops /\ Forall P ops.

(** What "progress monotonicity" asks of the reports [rs] of one pass over
    [n] bytes. *)
Definition monotone_reports (n : Z) (rs : list (Z * Z * string)) : Prop :=
  StronglySorted Z.lt (map done_of rs)
  /\ Forall (fun r => 0 <= done_of r <= n /\ total_of r = n) rs.

Definition ends_at (n : Z) (rs : list (Z * Z * string)) : Prop :=
  (rs <> [] -> last (map done_of rs) 0 = n) /\ (0 < n -> rs <> []).

(** [if os.path.exists(p): os.remove(p)] *)
Definition cleanup (p : path) : M unit :=
  e <- path_exists p ;; if e then os_remove p else ret tt.

(** ** Sample inputs *)

Definition hello : bytes :=
  [Byte.x68; Byte.x65; Byte.x6c; Byte.x6c; Byte.x6f].

Definition ten_bytes : bytes :=
  [Byte.x30; Byte.x31; Byte.x32; Byte.x33; Byte.x34;
   Byte.x35; Byte.x36; Byte.x37; Byte.x38; Byte.x39].

(** A sample tree: a file and a project directory. *)
Definition sample_root : node :=
  Dir [("f.txt", File hello);
       ("proj", Dir [("a.txt", File [Byte.x01]);
                     ("b", Dir [("c.txt", File [Byte.x02; Byte.x03])])])].

Definition sample_world : world := mkWorld sample_root [] [] [].

(** An input one byte longer than a chunk. *)
Definition big_input : bytes := repeat Byte.x00 (Z.to_nat 262145).

Definition big_world : world :=
  mkWorld (Dir [("big.bin", File big_input)]) [] [] [].

(** An archive named with three suffixes, holding the toy zstd frame of
    [hello]. *)
Definition triple_world : world :=
  mkWorld (Dir [("a.b.tar.zst", File (Toy.magic_zst :: hello))]) [] [] [].

Definition triple_args : args :=
  mkArgs false true ["a.b.tar.zst"] ["out.bin"] false true.

(** A file named like a bundle whose decompressed contents are no archive. *)
Definition bad_archive_world : world :=
  mkWorld (Dir [("bad.tar.bz2", File [Toy.magic_bz2; Byte.x00; Byte.x01])]) [] [] [].

(** ** Comparing runs *)

(** Two computations agree on how they end and on the file system they
    leave, from any two process states that hold the same file system. *)
Definition same_outcome {A : Type} (m m' : M A) : Prop :=
  forall w w', root w = root w' ->
    fst (m w) = fst (m' w') /\ root (snd (m w)) = root (snd (m' w')).

(** [m] returns without touching the file system. *)
Definition quiet (m : M unit) : Prop :=
  forall w, fst (m w) = Ok tt /\ root (snd (m w)) = root w.

(** [m] never ends by [sys.exit]: it returns or raises. *)
Definition never_exits {A : Type} (m : M A) : Prop :=
  forall w c, fst (m w) <> Abort (SysExit c).

(** [m] only adds events satisfying [P] to the terminal. *)
Definition prints (P : out_event -> Prop) {A : Type} (m : M A) : Prop :=
  forall w, exists evs, stdout (snd (m w)) = stdout w ++ evs /\ Forall P evs.

Definition is_statistics (e : out_event) : bool :=
  match e with
  | Benchmark _ _ _ => true
  | _ => false
  end.

(** A progress redraw or a line of text. *)
Definition plain_event (e : out_event) : Prop := is_statistics e = false.

Definition returned {A : Type} (r : result A) : bool :=
  match r with
  | Ok _ => true
  | Abort _ => false
  end.

(** An empty file named like a zstd archive. *)
Definition empty_world : world :=
  mkWorld (Dir [("e.zst", File [])]) [] [] [].

(** A file named like a bz2 archive that holds plain text. *)
Definition corrupt_world : world :=
  mkWorld (Dir [("c.bz2", File hello)]) [] [] [].

(** A write, if it is one, goes to [dst]. *)
Definition writes_only (dst : path) (o : fs_op) : Prop :=
  match o with
  | OpWrite p => p = dst
  | _ => True
  end.

(** What [tar.add] finds under [folder] while the archive [t] of the
    working directory is being written: the tree there, the archive itself
    left out. *)
Definition seen_without (t : string) (r : node) (folder : path)
  : option node :=
  match r with
  | Dir es => get (Dir (unlink t es)) folder
  | File _ => None
  end.

(** The run of [main] up to the creation of its transient archive:
    [tar_build] into [tmp_data.tar] when a directory is compressed, the
    decompression pass into [tmp_unpack.tar] when a source named like a
    bundle is extracted. *)
Definition data_tar_stage (B : backend) (a : args) (w : world)
  : result unit * world :=
  tar_build B (source a) tmp_data_tar (logged w [OpStat (source a)]).

Definition unpack_tar_stage (B : backend) (a : args) (w : world)
  : result unit * world :=
  decompress_pass B (suffix (source a)) (source a) tmp_unpack_tar
                  (progress a) (logged w [OpStat (source a)]).

(* ===================================================================== *)
(** * Theorems                                                           *)
(* ===================================================================== *)

(** ** The progress bar *)

Lemma len_app (A : Type) (l1 l2 : list A) : len (l1 ++ l2) = len l1 + len l2.
Proof. unfold len. rewrite length_app. lia. Qed.

Lemma len_py_repeat (A : Type) (x : A) (n : Z) :
  len (py_repeat x n) = Z.max 0 n.
Proof. unfold len, py_repeat. rewrite repeat_length. lia. Qed.

Lemma len_nonneg (A : Type) (l : list A) : 0 <= len l.
Proof. unfold len. lia. Qed.

(** The bar has [width] cells as long as at least one cell is unfilled, and
    one more than [width] when every cell is filled: the Pacman symbol
    replaces an empty cell only if there is one. *)
Lemma render_bar_len (filled : Z) :
  0 <= filled <= width ->
  len (render_bar filled) = if filled <? width then width else width + 1.
Proof.
  intros H. unfold render_bar. rewrite !len_app, !len_py_repeat.
  change (len [pac]) with 1. unfold width in *.
  destruct (30 - filled >? 0) eqn:E; destruct (filled <? 30) eqn:F; lia.
Qed.

Lemma filled_cells_range (done total : Z) :
  0 < total -> 0 <= done <= total ->
  0 <= filled_cells done total <= width
  /\ (filled_cells done total = width <-> done = total).
Proof.
  intros Ht Hd. unfold filled_cells, width.
  rewrite Z.quot_div_nonneg by lia.
  assert (30 * done / total <= 30).
  { apply Z.div_le_upper_bound; lia. }
  assert (0 <= 30 * done / total) by (apply Z.div_pos; lia).
  split; [lia|]. split; intros E.
  - assert (done >= total \/ done < total) as [|L] by lia; [lia|].
    assert (30 * done / total < 30); [|lia].
    apply Z.div_lt_upper_bound; lia.
  - subst. apply Z.div_mul. lia.
Qed.

(** Below completion the bar is exactly 30 cells wide. *)
Lemma bar_30_cells_before_completion (done total : Z) :
  0 < total -> 0 <= done < total ->
  len (render_bar (filled_cells done total)) = 30.
Proof.
  intros Ht Hd.
  destruct (filled_cells_range (done := done) Ht) as [R [E _]]; [lia|].
  rewrite render_bar_len by exact R.
  destruct (filled_cells done total <? width) eqn:F; [reflexivity|].
  apply Z.ltb_ge in F. assert (filled_cells done total = width) by lia.
  apply E in H. lia.
Qed.

(** At completion the bar is 31 cells wide, for every total. *)
Lemma bar_31_cells_at_completion (total : Z) :
  0 < total -> len (render_bar (filled_cells total total)) = 31.
Proof.
  intros Ht.
  destruct (filled_cells_range (done := total) Ht) as [R [_ E]]; [lia|].
  rewrite render_bar_len by exact R. rewrite (E eq_refl).
  reflexivity.
Qed.

(** C8 (a defect of the program): the call [pacman_progress(1, 1, "x")]
    satisfies [total > 0] and [0 <= done <= total], yet the bar it writes
    between the brackets has 31 cells: 30 filled cells followed by the
    Pacman symbol. *)
Theorem pacman_progress_full_bar_has_31_cells :
  forall w : world,
    stdout (snd (pacman_progress 1 1 "x" w)) =
      stdout w ++ [Redraw "x" (py_repeat full_block 30 ++ [pac]) 1 1;
                   Println EmptyString]
    /\ len (py_repeat full_block 30 ++ [pac]) = 31.
Proof.
  intros w. split.
  - unfold pacman_progress, bind, log_report, emit, print, emit. simpl.
    rewrite <- app_assoc. reflexivity.
  - reflexivity.
Qed.

(** ** Induction on trees *)

(** Induction on a tree with the hypothesis for every entry of a
    directory. *)
Lemma node_induction (P : node -> Prop) :
  (forall d, P (File d)) ->
  (forall es, Forall (fun e => P (snd e)) es -> P (Dir es)) ->
  forall n, P n.
Proof.
  intros P_file P_dir. fix IH 1. intros [d | es].
  - apply P_file.
  - apply P_dir. induction es as [|e es IHes]; constructor.
    + apply IH.
    + exact IHes.
Qed.

(** ** The size inspector *)

Lemma sum_Z_app (l1 l2 : list Z) : sum_Z (l1 ++ l2) = sum_Z l1 + sum_Z l2.
Proof. induction l1 as [|x l1 IH]; simpl; [reflexivity | rewrite IH; lia]. Qed.

Lemma sum_Z_cons (x : Z) (l : list Z) : sum_Z (x :: l) = x + sum_Z l.
Proof. reflexivity. Qed.

Lemma file_sizes_app (l1 l2 : list node) :
  file_sizes (l1 ++ l2) = file_sizes l1 ++ file_sizes l2.
Proof. unfold file_sizes. apply flat_map_app. Qed.

Lemma rglob_sum_entries (es : list (string * node)) :
  Forall (fun e => sum_Z (file_sizes (rglob (snd e))) =
                   match snd e with File _ => 0 | Dir _ => tree_size (snd e) end)
         es ->
  sum_Z (file_sizes (flat_map (fun e => snd e :: rglob (snd e)) es)) =
  sum_Z (map (fun e => tree_size (snd e)) es).
Proof.
  induction 1 as [| e es He Hes IHes]; [reflexivity|].
  cbn [flat_map map]. rewrite file_sizes_app, sum_Z_app, IHes.
  change (snd e :: rglob (snd e)) with ([snd e] ++ rglob (snd e)).
  rewrite file_sizes_app, sum_Z_app, He.
  destruct (snd e) as [d | es']; cbn [map]; rewrite sum_Z_cons.
  - change (sum_Z (file_sizes [File d])) with (len d + 0).
    change (tree_size (File d)) with (len d). lia.
  - change (sum_Z (file_sizes [Dir es'])) with 0. lia.
Qed.

(** Summing the regular files that [rglob] lists gives the size of the
    tree below a directory; a regular file has no descendants. *)
Lemma rglob_sum (n : node) :
  sum_Z (file_sizes (rglob n)) =
  match n with File _ => 0 | Dir _ => tree_size n end.
Proof.
  induction n as [d | es IH] using node_induction; [reflexivity|].
  apply (rglob_sum_entries IH).
Qed.

(** [calc_size] returns the size the specification describes and leaves the
    file system as it was. *)
Lemma calc_size_run (p : path) (w : world) :
  fst (calc_size p w) = Ok (spec_size (root w) p)
  /\ root (snd (calc_size p w)) = root w.
Proof.
  unfold calc_size, spec_size, bind, path_is_file, path_is_dir,
    path_file_size, path_rglob, log_op, get_root, ret, bind. simpl.
  destruct (get (root w) p) as [[d | es]|] eqn:G; simpl;
    rewrite ?G; simpl; rewrite ?G; simpl.
  - split; reflexivity.
  - split; [|reflexivity].
    f_equal. apply (rglob_sum (Dir es)).
  - split; reflexivity.
Qed.

(** C9: [calc_size(p)] returns 0 when [p] does not exist, the length of the
    contents when [p] is a regular file, and the sum of the sizes of the
    regular files below [p] (directories counting for nothing) when [p] is
    a directory. *)
Theorem calc_size_spec :
  forall (p : path) (w : world),
    (get (root w) p = None /\ fst (calc_size p w) = Ok 0)
    \/ (exists d, get (root w) p = Some (File d)
                  /\ fst (calc_size p w) = Ok (len d))
    \/ (exists es, get (root w) p = Some (Dir es)
                   /\ fst (calc_size p w) =
                        Ok (sum_Z (map (fun e => tree_size (snd e)) es))).
Proof.
  intros p w. destruct (calc_size_run p w) as [V _]. rewrite V.
  unfold spec_size. destruct (get (root w) p) as [[d | es]|].
  - right. left. exists d. split; reflexivity.
  - right. right. exists es. split; reflexivity.
  - left. split; reflexivity.
Qed.

(** The three cases of the contract, read off [spec_size]. *)
Lemma spec_size_cases (r : node) (p : path) :
  (get r p = None -> spec_size r p = 0)
  /\ (forall d, get r p = Some (File d) -> spec_size r p = len d)
  /\ (forall es, get r p = Some (Dir es) ->
        spec_size r p = sum_Z (map (fun e => tree_size (snd e)) es)).
Proof.
  unfold spec_size. repeat split; intros; rewrite H; reflexivity.
Qed.

(** ** Resolution failures *)

Section Resolution.

Variable B : backend.

Lemma main_mode_error (a : args) (w : world) :
  compress a = extract a ->
  main B a w =
    (Abort (SysExit 1),
     mkWorld (root w) (stdout w ++ [Println msg_mode]) (reports w) (oplog w)).
Proof.
  intros H. unfold main. rewrite H, Bool.eqb_reflx. reflexivity.
Qed.

(** C6: when the compress and extract flags are both set or both unset,
    [main] prints the mode diagnostic and exits with status 1; the file
    system is unchanged and not a single file-system call is made. *)
Theorem mode_exclusivity :
  forall (a : args) (w : world),
    compress a = extract a ->
    fst (main B a w) = Abort (SysExit 1)
    /\ stdout (snd (main B a w)) = stdout w ++ [Println msg_mode]
    /\ root (snd (main B a w)) = root w
    /\ oplog (snd (main B a w)) = oplog w.
Proof.
  intros a w H. rewrite (main_mode_error a w H). repeat split.
Qed.

(** C5: when the extension of the compressed artifact (the target's when
    compressing, the source's when extracting) is neither [.zst] nor
    [.bz2], [main] prints a diagnostic and exits with status 1; the file
    system is unchanged and the only file-system call, if any, is the
    [is_dir] test of the source. *)
Theorem extension_gating :
  forall (a : args) (w : world),
    is_codec_ext (artifact_ext a) = false ->
    exists msg ops,
      main B a w =
        (Abort (SysExit 1),
         mkWorld (root w) (stdout w ++ [Println msg]) (reports w)
                 (oplog w ++ ops))
      /\ (msg = msg_mode \/ msg = msg_ext)
      /\ (ops = [] \/ ops = [OpStat (source a)]).
Proof.
  intros a w H. destruct (Bool.eqb (compress a) (extract a)) eqn:E.
  - exists msg_mode, []. rewrite app_nil_r.
    split; [|split; [left; reflexivity | left; reflexivity]].
    apply main_mode_error. apply Bool.eqb_prop. exact E.
  - exists msg_ext, [OpStat (source a)].
    split; [|split; [right; reflexivity | right; reflexivity]].
    unfold main. rewrite E. unfold artifact_ext in H.
    unfold bind, path_is_dir, log_op, get_root, ret, bind. simpl.
    rewrite H. reflexivity.
Qed.

(** C4: in compress mode, when the source is a directory and the target
    does not have the bundle form [name.tar.<codec>], [main] prints a
    diagnostic and exits with status 1; the file system is unchanged (no
    file is created) and the only file-system call is the [is_dir] test of
    the source. *)
Theorem directory_needs_bundle_target :
  forall (a : args) (w : world),
    compress a = true ->
    extract a = false ->
    is_dir_node (get (root w) (source a)) = true ->
    bundle_form (target a) = false ->
    exists msg,
      main B a w =
        (Abort (SysExit 1),
         mkWorld (root w) (stdout w ++ [Println msg]) (reports w)
                 (oplog w ++ [OpStat (source a)]))
      /\ (msg = msg_ext \/ msg = msg_dir).
Proof.
  intros a w Hc Hx Hd Hb. unfold main. rewrite Hc, Hx. simpl.
  unfold bind, path_is_dir, log_op, get_root, ret, bind. simpl.
  rewrite Hd. unfold bundle_form in Hb.
  destruct (is_codec_ext (suffix (target a))) eqn:E; simpl.
  - rewrite andb_true_r in Hb. rewrite Hb. simpl.
    exists msg_dir. split; [reflexivity | right; reflexivity].
  - exists msg_ext. split; [reflexivity | left; reflexivity].
Qed.

End Resolution.

Lemma mode_exclusivity_witness :
  compress (mkArgs true true ["f.txt"] ["f.zst"] false false)
  = extract (mkArgs true true ["f.txt"] ["f.zst"] false false)
  /\ fst (main Toy.libs (mkArgs true true ["f.txt"] ["f.zst"] false false)
            sample_world) = Abort (SysExit 1)
  /\ oplog (snd (main Toy.libs
                    (mkArgs true true ["f.txt"] ["f.zst"] false false)
                    sample_world)) = [].
Proof.
  split; [reflexivity|].
  destruct (mode_exclusivity Toy.libs
              (mkArgs true true ["f.txt"] ["f.zst"] false false) sample_world
              eq_refl) as [F [_ [_ L]]].
  split; [exact F | exact L].
Defined.

(** [name.tar.gz]: a bundle suffix in front of an unrecognised extension. *)
Lemma extension_gating_witness :
  is_codec_ext
    (artifact_ext (mkArgs true false ["proj"] ["name.tar.gz"] false false))
  = false
  /\ exists msg ops,
       main Toy.libs (mkArgs true false ["proj"] ["name.tar.gz"] false false)
         sample_world
       = (Abort (SysExit 1),
          mkWorld sample_root ([] ++ [Println msg]) [] ([] ++ ops))
       /\ (msg = msg_mode \/ msg = msg_ext)
       /\ (ops = [] \/ ops = [OpStat ["proj"]]).
Proof.
  split; [reflexivity|].
  apply (extension_gating Toy.libs
           (mkArgs true false ["proj"] ["name.tar.gz"] false false)
           sample_world).
  reflexivity.
Defined.

Lemma directory_needs_bundle_target_witness :
  is_dir_node (get (root sample_world) ["proj"]) = true
  /\ bundle_form ["proj.zst"] = false
  /\ exists msg,
       main Toy.libs (mkArgs true false ["proj"] ["proj.zst"] false false)
         sample_world
       = (Abort (SysExit 1),
          mkWorld sample_root ([] ++ [Println msg]) []
                  ([] ++ [OpStat ["proj"]]))
       /\ (msg = msg_ext \/ msg = msg_dir).
Proof.
  split; [reflexivity|]. split; [reflexivity|].
  apply (directory_needs_bundle_target Toy.libs
           (mkArgs true false ["proj"] ["proj.zst"] false false)
           sample_world); reflexivity.
Defined.

(** ** Ranges, slices and chunks *)

Lemma py_range_nil (start stop step : Z) :
  0 < step -> stop <= start -> py_range start stop step = [].
Proof.
  intros Hs H. unfold py_range.
  assert ((stop - start + step - 1) / step <= 0) as E.
  { assert ((stop - start + step - 1) / step < 1); [|lia].
    apply Z.div_lt_upper_bound; lia. }
  replace (Z.to_nat ((stop - start + step - 1) / step)) with O by lia.
  reflexivity.
Qed.

Lemma py_range_cons (start stop step : Z) :
  0 < step -> start < stop ->
  py_range start stop step = start :: py_range (start + step) stop step.
Proof.
  intros Hs H. unfold py_range.
  replace (stop - start + step - 1) with ((stop - start - 1) + 1 * step) by lia.
  rewrite Z.div_add by lia.
  replace (stop - (start + step) + step - 1) with (stop - start - 1) by lia.
  assert (0 <= (stop - start - 1) / step) by (apply Z.div_pos; lia).
  replace (Z.to_nat ((stop - start - 1) / step + 1))
    with (S (Z.to_nat ((stop - start - 1) / step))) by lia.
  cbn [seq map]. f_equal; [lia|].
  rewrite <- seq_shift, map_map. apply map_ext. intros k. lia.
Qed.

(** Induction along [start, start + step, ...] up to [stop]. *)
Lemma range_induction (P : Z -> Prop) (stop step : Z) :
  0 < step ->
  (forall i, stop <= i -> P i) ->
  (forall i, i < stop -> P (i + step) -> P i) ->
  forall i, P i.
Proof.
  intros Hs Hend Hstep i.
  remember (Z.to_nat (stop - i)) as n eqn:En.
  revert i En. induction n as [n IH] using lt_wf_ind. intros i En.
  destruct (Z_lt_le_dec i stop) as [L | G].
  - apply Hstep; [exact L|]. apply (IH (Z.to_nat (stop - (i + step)))); lia.
  - apply Hend. exact G.
Qed.

Lemma len_slice (A : Type) (l : list A) (i k : Z) :
  0 <= i -> 0 <= k ->
  len (slice l i (i + k)) = Z.max 0 (Z.min k (len l - i)).
Proof.
  intros Hi Hk. unfold slice, len.
  rewrite length_firstn, length_skipn. lia.
Qed.

Lemma slice_step (A : Type) (l : list A) (i k : Z) :
  slice l i (i + k) = firstn (Z.to_nat k) (skipn (Z.to_nat i) l).
Proof. unfold slice. do 2 f_equal. lia. Qed.

Lemma chunks_fuel_nil (fuel k : nat) : chunks_fuel fuel k [] = [].
Proof. destruct fuel; reflexivity. Qed.

(** More fuel than bytes changes nothing. *)
Lemma chunks_fuel_enough (k : nat) :
  (0 < k)%nat ->
  forall (f1 f2 : nat) (d : bytes),
    (List.length d <= f1)%nat -> (List.length d <= f2)%nat ->
    chunks_fuel f1 k d = chunks_fuel f2 k d.
Proof.
  intros Hk. induction f1 as [|f1 IH]; intros f2 d H1 H2.
  - destruct d; [|simpl in H1; lia]. now rewrite !chunks_fuel_nil.
  - destruct d as [|x d]; [now rewrite !chunks_fuel_nil|].
    destruct f2 as [|f2]; [simpl in H2; lia|].
    cbn [chunks_fuel]. f_equal. apply IH.
    + rewrite length_skipn. cbn [List.length] in *. lia.
    + rewrite length_skipn. cbn [List.length] in *. lia.
Qed.

(** The slices the loops take are the chunks of the input. *)
Lemma slices_are_chunks (data : bytes) (k : Z) :
  0 < k ->
  forall i, 0 <= i ->
    map (fun j => slice data j (j + k)) (py_range i (len data) k) =
    chunks k (skipn (Z.to_nat i) data).
Proof.
  intros Hk. apply (range_induction (fun i => 0 <= i -> _) (stop := len data) Hk).
  - intros i G Hi. rewrite py_range_nil by lia.
    rewrite skipn_all2 by (unfold len in G; lia). reflexivity.
  - intros i L IH Hi. rewrite py_range_cons by lia. cbn [map].
    specialize (IH ltac:(lia)). rewrite IH. unfold chunks.
    remember (skipn (Z.to_nat i) data) as rest eqn:Er.
    assert (List.length rest = Z.to_nat (len data - i)) as Hl.
    { subst rest. rewrite length_skipn. unfold len. lia. }
    replace (skipn (Z.to_nat (i + k)) data) with (skipn (Z.to_nat k) rest).
    2:{ rewrite Er, skipn_skipn. f_equal. lia. }
    rewrite slice_step, <- Er.
    destruct rest as [|x rest']; [cbn [List.length] in Hl; unfold len in *; lia|].
    cbn [List.length chunks_fuel]. f_equal.
    apply chunks_fuel_enough; [lia | lia |].
    rewrite length_skipn. cbn [List.length]. lia.
Qed.

Lemma chunks_slices (data : bytes) (k : Z) :
  0 < k ->
  chunks k data = map (fun j => slice data j (j + k)) (py_range 0 (len data) k).
Proof.
  intros Hk. rewrite slices_are_chunks by lia. reflexivity.
Qed.

Lemma chunk_size_pos : 0 < chunk_size.
Proof. reflexivity. Qed.

(** ** Running the loops *)

Ltac world_eq :=
  unfold noted, logged, with_root; cbn [root stdout reports oplog];
  rewrite ?app_nil_r, <- ?app_assoc; reflexivity.

Lemma noted_nil (w : world) : noted w [] [] = w.
Proof. destruct w. unfold noted. cbn. now rewrite !app_nil_r. Qed.

Lemma noted_noted (w : world) e1 r1 e2 r2 :
  noted (noted w e1 r1) e2 r2 = noted w (e1 ++ e2) (r1 ++ r2).
Proof. world_eq. Qed.

Lemma while_is_for (S : Type) (body : Z -> S -> M S) (total step : Z) :
  0 < step ->
  forall (fuel : nat) (i : Z) (s : S) (w : world),
    (Z.to_nat (total - i) <= fuel)%nat ->
    while_loop fuel i total step body s w =
    for_loop (py_range i total step) body s w.
Proof.
  intros Hs. induction fuel as [|fuel IH]; intros i s w Hf.
  - rewrite py_range_nil by lia. reflexivity.
  - cbn [while_loop]. destruct (i <? total) eqn:E.
    + apply Z.ltb_lt in E. rewrite py_range_cons by lia.
      cbn [for_loop]. unfold bind. destruct (body i s w) as [[s'|x] w'].
      * apply IH. lia.
      * reflexivity.
    + apply Z.ltb_ge in E. rewrite py_range_nil by lia. reflexivity.
Qed.

Lemma pacman_progress_run (done total : Z) (label : string) (w : world) :
  pacman_progress done total label w =
  (Ok tt, noted w (progress_events done total label) [(done, total, label)]).
Proof.
  unfold pacman_progress, progress_events, bind, log_report, print, emit, ret.
  destruct (total =? 0); [f_equal; world_eq|].
  cbn. destruct (done >=? total); f_equal; world_eq.
Qed.

Lemma shown_progress_run (sp : bool) (done total : Z) (label : string)
  (w : world) :
  (if sp then pacman_progress done total label else ret tt) w =
  (Ok tt, noted w (when_shown sp (progress_events done total label))
                  (when_shown sp [(done, total, label)])).
Proof.
  destruct sp; [apply pacman_progress_run|].
  unfold ret, when_shown. now rewrite noted_nil.
Qed.

Lemma when_shown_app (A : Type) (sp : bool) (l1 l2 : list A) :
  when_shown sp l1 ++ when_shown sp l2 = when_shown sp (l1 ++ l2).
Proof. destruct sp; reflexivity. Qed.

Section PassRuns.

Variable B : backend.

Lemma zstd_compress_run (src dst : path) (sp : bool) (w : world)
  (data : bytes) :
  get (root w) src = Some (File data) ->
  zstd_compress B src dst sp w =
  (write_bytes dst (spec_compress_pass B data) ;;
   if sp then print "✔ Архивация завершена" else ret tt)
    (noted (logged w [OpRead src])
           (when_shown sp (loop_events "Сжатие zstd" data (offsets data)))
           (when_shown sp (loop_reports "Сжатие zstd" data (offsets data)))).
Proof.
  intros G. unfold zstd_compress, read_bytes.
  unfold bind at 1 2 3. unfold log_op at 1, get_root at 1.
  cbn [root stdout reports oplog]. rewrite G. unfold ret at 1.
  unfold bind at 1.
  match goal with |- context [for_loop _ ?b _ _] => set (body := b) end.
  assert (forall l st out w0,
            for_loop l body (st, out) w0 =
            (Ok (zc_stream B st out
                   (map (fun j => slice data j (j + chunk_size)) l)),
             noted w0 (when_shown sp (loop_events "Сжатие zstd" data l))
                      (when_shown sp (loop_reports "Сжатие zstd" data l))))
    as Loop.
  { induction l as [|i l IH]; intros st out w0.
    - cbn. unfold ret. f_equal. destruct sp; cbn; now rewrite noted_nil.
    - cbn [for_loop map zc_stream]. unfold bind at 1. unfold body at 1.
      destruct (zc_compress B st (slice data i (i + chunk_size)))
        as [st' piece].
      unfold bind at 1. rewrite shown_progress_run. unfold ret at 1.
      rewrite IH. f_equal. rewrite noted_noted.
      rewrite !when_shown_app. reflexivity. }
  rewrite Loop. fold (offsets data). unfold spec_compress_pass, stream_compress.
  rewrite chunks_slices by apply chunk_size_pos. fold (offsets data).
  destruct (zc_stream B (zc_new B) []
              (map (fun j => slice data j (j + chunk_size)) (offsets data)))
    as [st out].
  reflexivity.
Qed.

End PassRuns.

(** ** What a computation leaves untouched *)

Section Frame.

Variable X : Type.
Variable proj : world -> X.

Lemma preserves_ret (A : Type) (a : A) : preserves proj (ret a).
Proof. intros w. reflexivity. Qed.

Lemma preserves_raise (A : Type) (e : exn) : preserves proj (@raise A e).
Proof. intros w. reflexivity. Qed.

Lemma preserves_exit (A : Type) (c : Z) : preserves proj (@sys_exit A c).
Proof. intros w. reflexivity. Qed.

Lemma preserves_bind (A C : Type) (m : M A) (k : A -> M C) :
  preserves proj m -> (forall a, preserves proj (k a)) -> preserves proj (bind m k).
Proof.
  intros Hm Hk w. unfold bind. specialize (Hm w).
  destruct (m w) as [[a|x] w']; cbn [snd] in *.
  - rewrite Hk. exact Hm.
  - exact Hm.
Qed.

Lemma preserves_for_loop (S : Type) (body : Z -> S -> M S) :
  (forall i s, preserves proj (body i s)) ->
  forall l s, preserves proj (for_loop l body s).
Proof.
  intros Hb. induction l as [|i l IH]; intros s; cbn [for_loop].
  - apply preserves_ret.
  - apply preserves_bind; [apply Hb | intros s'; apply IH].
Qed.

Lemma preserves_while_loop (S : Type) (body : Z -> S -> M S) (total step : Z) :
  (forall i s, preserves proj (body i s)) ->
  forall fuel i s, preserves proj (while_loop fuel i total step body s).
Proof.
  intros Hb. induction fuel as [|fuel IH]; intros i s; cbn [while_loop].
  - apply preserves_ret.
  - destruct (i <? total); [|apply preserves_ret].
    apply preserves_bind; [apply Hb | intros s'; apply IH].
Qed.

End Frame.

Ltac frame_step :=
  first
    [ apply preserves_ret
    | apply preserves_raise
    | apply preserves_exit
    | apply preserves_bind; [| intros ?]
    | apply preserves_for_loop; intros ? ?
    | apply preserves_while_loop; intros ? ?
    | match goal with
      | |- preserves _ (if ?b then _ else _) => destruct b
      | |- preserves _ (match ?x with _ => _ end) => destruct x
      | |- preserves _ (let (_, _) := ?x in _) => destruct x
      end
    | (intros ?; reflexivity) ].

Ltac frame := repeat frame_step.

Section PassRuns2.

Variable B : backend.

Lemma zstd_decompress_run (src dst : path) (sp : bool) (w : world)
  (data : bytes) :
  get (root w) src = Some (File data) ->
  zstd_decompress B src dst sp w =
  match zd_stream B (zd_new B) [] (chunks chunk_size data) with
  | Some (_, out) =>
      (write_bytes dst out ;;
       if sp then print "✔ Распаковка завершена" else ret tt)
        (noted (logged w [OpRead src])
           (when_shown sp (loop_events "Извлечение zstd" data (offsets data)))
           (when_shown sp (loop_reports "Извлечение zstd" data (offsets data))))
  | None =>
      let m := zd_accepted B (zd_new B) (chunks chunk_size data) in
      (Abort (Uncaught CodecError),
       noted (logged w [OpRead src])
         (when_shown sp
            (loop_events "Извлечение zstd" data (firstn m (offsets data))))
         (when_shown sp
            (loop_reports "Извлечение zstd" data (firstn m (offsets data)))))
  end.
Proof.
  intros G. unfold zstd_decompress, read_bytes.
  unfold bind at 1 2 3. unfold log_op at 1, get_root at 1.
  cbn [root stdout reports oplog]. rewrite G. unfold ret at 1.
  unfold bind at 1.
  rewrite while_is_for by (try apply chunk_size_pos; unfold len; lia).
  match goal with |- context [for_loop _ ?b _ _] => set (body := b) end.
  assert (forall l st out w0,
            for_loop l body (st, out) w0 =
            let blocks := map (fun j => slice data j (j + chunk_size)) l in
            match zd_stream B st out blocks with
            | Some s' =>
                (Ok s',
                 noted w0
                   (when_shown sp (loop_events "Извлечение zstd" data l))
                   (when_shown sp (loop_reports "Извлечение zstd" data l)))
            | None =>
                (Abort (Uncaught CodecError),
                 noted w0
                   (when_shown sp
                      (loop_events "Извлечение zstd" data
                         (firstn (zd_accepted B st blocks) l)))
                   (when_shown sp
                      (loop_reports "Извлечение zstd" data
                         (firstn (zd_accepted B st blocks) l))))
            end)
    as Loop.
  { induction l as [|i l IH]; intros st out w0.
    - cbn. unfold ret. f_equal. destruct sp; cbn; now rewrite noted_nil.
    - cbn [for_loop map zd_stream zd_accepted]. unfold bind at 1.
      unfold body at 1.
      destruct (zd_decompress B st (slice data i (i + chunk_size)))
        as [[st' piece]|].
      + unfold bind at 1. rewrite shown_progress_run. unfold ret at 1.
        rewrite IH. cbn zeta.
        destruct (zd_stream B st' (out ++ piece)
                    (map (fun j => slice data j (j + chunk_size)) l));
          f_equal; rewrite noted_noted, !when_shown_app; reflexivity.
      + unfold raise. f_equal. cbn [firstn].
        destruct sp; cbn; now rewrite noted_nil. }
  rewrite Loop. cbn zeta. fold (offsets data).
  rewrite (chunks_slices data chunk_size_pos). fold (offsets data).
  destruct (zd_stream B (zd_new B) []
              (map (fun j => slice data j (j + chunk_size)) (offsets data)))
    as [[st out]|]; reflexivity.
Qed.

Lemma bz2_compress_run (src dst : path) (sp : bool) (w : world)
  (data : bytes) :
  get (root w) src = Some (File data) ->
  bz2_compress B src dst sp w =
  (write_bytes dst (bz2_compress_fn B data) ;;
   if sp then
     pacman_progress (len data) (len data) "Сжатие bz2" ;;
     print "✔ Архив создан"
   else ret tt) (logged w [OpRead src]).
Proof.
  intros G. unfold bz2_compress, read_bytes.
  unfold bind at 1 2 3. unfold log_op at 1, get_root at 1.
  cbn [root stdout reports oplog]. rewrite G. reflexivity.
Qed.

Lemma bz2_decompress_run (src dst : path) (sp : bool) (w : world)
  (data : bytes) :
  get (root w) src = Some (File data) ->
  bz2_decompress B src dst sp w =
  match bz2_decompress_fn B data with
  | Some result =>
      (write_bytes dst result ;;
       if sp then
         pacman_progress (len data) (len data) "Извлечение bz2" ;;
         print "✔ Файл восстановлен"
       else ret tt) (logged w [OpRead src])
  | None => (Abort (Uncaught CodecError), logged w [OpRead src])
  end.
Proof.
  intros G. unfold bz2_decompress, read_bytes.
  unfold bind at 1 2 3. unfold log_op at 1, get_root at 1.
  cbn [root stdout reports oplog]. rewrite G. unfold ret at 1.
  destruct (bz2_decompress_fn B data); reflexivity.
Qed.

End PassRuns2.

(** ** Progress reports *)

Lemma in_firstn (A : Type) (x : A) (l : list A) :
  forall n, In x (firstn n l) -> In x l.
Proof.
  induction l as [|y l IH]; intros n H.
  - now rewrite firstn_nil in H.
  - destruct n as [|n]; [contradiction|]. cbn [firstn] in H.
    destruct H as [E | H]; [left; exact E | right; apply (IH n H)].
Qed.

Lemma StronglySorted_firstn (A : Type) (R : A -> A -> Prop) (l : list A) :
  StronglySorted R l -> forall n, StronglySorted R (firstn n l).
Proof.
  induction 1 as [|x l HS IH HF]; intros n.
  - rewrite firstn_nil. constructor.
  - destruct n as [|n]; cbn [firstn]; constructor; [apply IH|].
    rewrite Forall_forall in *. intros y Hy. apply HF.
    eapply in_firstn; exact Hy.
Qed.

Lemma Forall_firstn_of (A : Type) (P : A -> Prop) (l : list A) (n : nat) :
  Forall P l -> Forall P (firstn n l).
Proof.
  rewrite !Forall_forall. intros H y Hy. apply H.
  eapply in_firstn; exact Hy.
Qed.

(** The [done] values of a chunk loop from offset [i] on: they increase
    strictly, lie above [i] and not above the input length, and the last
    one is the input length. *)
Lemma loop_dones (data : bytes) :
  forall i, 0 <= i ->
    let ds := map (fun j => j + len (slice data j (j + chunk_size)))
                  (py_range i (len data) chunk_size) in
    StronglySorted Z.lt ds
    /\ Forall (fun d => i < d <= len data) ds
    /\ (i < len data -> ds <> [] /\ last ds 0 = len data).
Proof.
  apply (range_induction (fun i => 0 <= i -> _) (stop := len data)
                         chunk_size_pos).
  - intros i G Hi. rewrite py_range_nil by (try apply chunk_size_pos; lia).
    cbn. repeat split; try constructor; lia.
  - intros i L IH Hi. pose proof chunk_size_pos as Hk.
    rewrite py_range_cons by lia. cbn zeta. cbn [map].
    destruct (IH ltac:(lia)) as [S1 [F1 L1]]. cbn zeta in *.
    rewrite len_slice by lia.
    set (rest := map (fun j => j + len (slice data j (j + chunk_size)))
                     (py_range (i + chunk_size) (len data) chunk_size)) in *.
    repeat split.
    + constructor; [exact S1|].
      eapply Forall_impl; [|exact F1]. intros d Hd. cbv beta in Hd. lia.
    + constructor; [lia|].
      eapply Forall_impl; [|exact F1]. intros d Hd. cbv beta in Hd. lia.
    + discriminate.
    + destruct (Z_lt_le_dec (i + chunk_size) (len data)) as [M | M].
      * destruct (L1 M) as [Hne Hl]. destruct rest; [congruence|].
        exact Hl.
      * unfold rest. rewrite py_range_nil by lia. cbn [map last]. lia.
Qed.

Lemma done_of_loop_reports (label : string) (data : bytes) (l : list Z) :
  map done_of (loop_reports label data l) =
  map (fun j => j + len (slice data j (j + chunk_size))) l.
Proof. unfold loop_reports. rewrite map_map. reflexivity. Qed.

Lemma total_of_loop_reports (label : string) (data : bytes) (l : list Z) :
  Forall (fun r => total_of r = len data) (loop_reports label data l).
Proof.
  unfold loop_reports. rewrite Forall_map. apply Forall_forall.
  intros; reflexivity.
Qed.

Lemma loop_reports_monotone (label : string) (data : bytes) (m : nat) :
  monotone_reports (len data)
    (loop_reports label data (firstn m (offsets data))).
Proof.
  destruct (loop_dones data (i := 0) ltac:(lia)) as [S1 [F1 _]].
  fold (offsets data) in *. split.
  - rewrite done_of_loop_reports, <- firstn_map.
    apply StronglySorted_firstn. exact S1.
  - apply Forall_and.
    + rewrite <- Forall_map with (f := done_of) (P := fun d => 0 <= d <= len data).
      rewrite done_of_loop_reports, <- firstn_map.
      apply Forall_firstn_of. eapply Forall_impl; [|exact F1].
      cbn. intros; lia.
    + apply total_of_loop_reports.
Qed.

Lemma loop_reports_end (label : string) (data : bytes) :
  ends_at (len data) (loop_reports label data (offsets data)).
Proof.
  destruct (loop_dones data (i := 0) ltac:(lia)) as [_ [_ L1]].
  fold (offsets data) in *. split.
  - intros Hne. rewrite done_of_loop_reports.
    destruct (Z_lt_le_dec 0 (len data)) as [P | P]; [apply L1; exact P|].
    exfalso. apply Hne. unfold offsets.
    rewrite py_range_nil by (try apply chunk_size_pos; lia). reflexivity.
  - intros P. destruct (L1 P) as [Hne _]. intros E. apply Hne.
    rewrite <- done_of_loop_reports with (label := label). rewrite E.
    reflexivity.
Qed.

Lemma single_report_monotone (n : Z) (label : string) :
  0 <= n -> monotone_reports n [(n, n, label)] /\ ends_at n [(n, n, label)].
Proof.
  intros Hn. repeat split; cbn; try discriminate; try lia.
  - repeat constructor.
  - repeat constructor; cbn; lia.
Qed.

Lemma nil_monotone (n : Z) : monotone_reports n [].
Proof. split; constructor. Qed.

Lemma tail_keeps_reports (dst : path) (out : bytes) (s : string) :
  preserves reports (write_bytes dst out ;; print s).
Proof. unfold write_bytes, print. frame. Qed.



(** ** The file system *)

Lemma assoc_unlink_same (c : string) (es : list (string * node)) :
  assoc c (unlink c es) = None.
Proof.
  induction es as [|[c' n] es IH]; [reflexivity|].
  unfold unlink in *. cbn [filter fst].
  destruct (String.eqb c c') eqn:E; cbn [negb]; [exact IH|].
  cbn [assoc]. rewrite E. exact IH.
Qed.

Lemma assoc_unlink_other (c c' : string) (es : list (string * node)) :
  c' <> c -> assoc c' (unlink c es) = assoc c' es.
Proof.
  intros N. induction es as [|[c2 n] es IH]; [reflexivity|].
  unfold unlink in *. cbn [filter fst].
  destruct (String.eqb c c2) eqn:E; cbn [negb assoc].
  - apply String.eqb_eq in E. subst c2.
    destruct (String.eqb c' c) eqn:E'; [|exact IH].
    apply String.eqb_eq in E'. contradiction.
  - rewrite IH. reflexivity.
Qed.

Lemma assoc_bind_same (c : string) (n : node) (es : list (string * node)) :
  assoc c (bind_entry c n es) = Some n.
Proof. unfold bind_entry. cbn [assoc]. now rewrite String.eqb_refl. Qed.

Lemma assoc_bind_other (c c' : string) (n : node) (es : list (string * node)) :
  c' <> c -> assoc c' (bind_entry c n es) = assoc c' es.
Proof.
  intros N. unfold bind_entry. cbn [assoc].
  destruct (String.eqb c' c) eqn:E.
  - apply String.eqb_eq in E. contradiction.
  - apply assoc_unlink_other. exact N.
Qed.

Lemma get_app (p q : path) :
  forall r, get r (p ++ q) =
            match get r p with Some n => get n q | None => None end.
Proof.
  induction p as [|c p IH]; intros r; [reflexivity|].
  cbn [app get]. destruct r as [d | es]; [reflexivity|].
  destruct (assoc c es); [apply IH | reflexivity].
Qed.

(** After [alter f] the node at the path is what [f] decided. *)
Lemma get_alter_same (f : option node -> option (option node)) (p : path) :
  forall r r', alter f r p = Some r' ->
    exists o, f (get r p) = Some o /\ get r' p = o.
Proof.
  induction p as [|c p IH]; intros r r' H; [discriminate|].
  cbn [alter] in H. destruct r as [d | es]; [discriminate|].
  destruct p as [|c2 p].
  - cbn [get]. destruct (f (assoc c es)) as [[n|]|] eqn:F; [| |discriminate].
    + injection H as <-. exists (Some n). split.
      * destruct (assoc c es); exact F.
      * now rewrite assoc_bind_same.
    + injection H as <-. exists None. split.
      * destruct (assoc c es); exact F.
      * now rewrite assoc_unlink_same.
  - destruct (assoc c es) as [child|] eqn:A; [|discriminate].
    destruct (alter f child (c2 :: p)) as [child'|] eqn:R; [|discriminate].
    injection H as <-. destruct (IH _ _ R) as [o [Ho Hg]].
    exists o. split.
    + cbn [get] in *. rewrite A. exact Ho.
    + change (get (Dir (bind_entry c child' es)) (c :: c2 :: p))
        with (match assoc c (bind_entry c child' es) with
              | Some n => get n (c2 :: p) | None => None end).
      rewrite assoc_bind_same. exact Hg.
Qed.

(** [alter] leaves alone what lies under another top-level name. *)
Lemma get_alter_other_head (f : option node -> option (option node))
  (c c' : string) (p q : path) (r r' : node) :
  alter f r (c :: p) = Some r' -> c' <> c ->
  get r' (c' :: q) = get r (c' :: q).
Proof.
  intros H N. cbn [alter] in H. destruct r as [d | es]; [discriminate|].
  destruct p as [|c2 p].
  - destruct (f (assoc c es)) as [[n|]|]; [| |discriminate];
      injection H as <-; cbn [get].
    + now rewrite assoc_bind_other.
    + now rewrite assoc_unlink_other.
  - destruct (assoc c es) as [child|]; [|discriminate].
    destruct (alter f child (c2 :: p)) as [child'|]; [|discriminate].
    injection H as <-. cbn [get]. now rewrite assoc_bind_other.
Qed.

(** A path of two or more components can only be altered below a
    directory. *)
Lemma alter_deep_needs_dir (f : option node -> option (option node))
  (c c2 : string) (p : path) (r r' : node) :
  alter f r (c :: c2 :: p) = Some r' -> is_dir_node (get r [c]) = true.
Proof.
  intros H. cbn [alter] in H. destruct r as [d | es]; [discriminate|].
  cbn [get]. destruct (assoc c es) as [child|]; [|discriminate].
  destruct child as [d | es']; [|reflexivity].
  cbn [alter] in H. discriminate.
Qed.

Lemma get_written (d : bytes) (p : path) (r r' : node) :
  alter (write_at d) r p = Some r' -> get r' p = Some (File d).
Proof.
  intros H. destruct (get_alter_same _ _ _ H) as [o [Ho Hg]].
  rewrite Hg. unfold write_at in Ho.
  destruct (get r p) as [[?|?]|]; congruence.
Qed.

Lemma get_removed (p : path) (r r' : node) :
  alter remove_at r p = Some r' -> get r' p = None.
Proof.
  intros H. destruct (get_alter_same _ _ _ H) as [o [Ho Hg]].
  rewrite Hg. unfold remove_at in Ho.
  destruct (get r p) as [[?|?]|]; congruence.
Qed.

Lemma written_was_no_dir (d : bytes) (p : path) (r r' : node) :
  alter (write_at d) r p = Some r' -> is_dir_node (get r p) = false.
Proof.
  intros H. destruct (get_alter_same _ _ _ H) as [o [Ho Hg]].
  unfold write_at in Ho. destruct (get r p) as [[?|?]|]; try discriminate;
    reflexivity.
Qed.

(** ** The compression passes against the specification's words *)

Lemma consumed_slices (data : bytes) :
  forall i, 0 <= i ->
    consumed i (map (fun j => slice data j (j + chunk_size))
                    (py_range i (len data) chunk_size)) =
    map (fun j => j + len (slice data j (j + chunk_size)))
        (py_range i (len data) chunk_size).
Proof.
  pose proof chunk_size_pos as Hk.
  apply (range_induction (fun i => 0 <= i -> _) (stop := len data) Hk).
  - intros i G Hi. rewrite py_range_nil by lia. reflexivity.
  - intros i L IH Hi. rewrite py_range_cons by lia. cbn [map consumed].
    f_equal. destruct (Z_lt_le_dec (i + chunk_size) (len data)) as [M | M].
    + rewrite len_slice by lia.
      replace (i + Z.max 0 (Z.min chunk_size (len data - i)))
        with (i + chunk_size) by lia.
      apply IH. lia.
    + rewrite py_range_nil by lia. reflexivity.
Qed.

Lemma loop_reports_spec (label : string) (data : bytes) :
  loop_reports label data (offsets data) = spec_reports label data.
Proof.
  unfold loop_reports, spec_reports, offsets.
  rewrite (chunks_slices data chunk_size_pos).
  rewrite consumed_slices by lia. rewrite map_map. reflexivity.
Qed.

Lemma write_bytes_run (p : path) (d : bytes) (w : world) :
  write_bytes p d w =
  match alter (write_at d) (root w) p with
  | Some r' => (Ok tt, with_root (logged w [OpWrite p]) r')
  | None => (Abort (Uncaught (OSError p)), logged w [OpWrite p])
  end.
Proof.
  unfold write_bytes, bind, log_op, get_root.
  cbn [root stdout reports oplog].
  destruct (alter (write_at d) (root w) p); reflexivity.
Qed.

Lemma bind_run (A C : Type) (m : M A) (k : A -> M C) (w : world) :
  bind m k w =
  match m w with
  | (Ok a, w') => k a w'
  | (Abort x, w') => (Abort x, w')
  end.
Proof. reflexivity. Qed.

Lemma print_run (s : string) (w : world) :
  print s w = (Ok tt, noted w [Println s] []).
Proof. unfold print, emit, noted. now rewrite app_nil_r. Qed.

Lemma root_noted w e r : root (noted w e r) = root w.
Proof. reflexivity. Qed.

Lemma root_logged w ops : root (logged w ops) = root w.
Proof. reflexivity. Qed.

Section CompressionShape.

Variable B : backend.

(** The streaming compressor does what the specification says: a fresh
    compressor, the input in chunks of 262144 bytes, each chunk's output
    appended, a report after each chunk when progress is on, and the flush
    output appended before the file is written. *)
Lemma zstd_compress_shape (src dst : path) (sp : bool) (w : world)
  (data : bytes) :
  get (root w) src = Some (File data) ->
  let run := zstd_compress B src dst sp w in
  reports (snd run) =
    reports w ++ when_shown sp (spec_reports "Сжатие zstd" data)
  /\ (fst run = Ok tt ->
      get (root (snd run)) dst = Some (File (spec_compress_pass B data))).
Proof.
  intros G run. subst run. rewrite (zstd_compress_run B src dst sp w G).
  rewrite loop_reports_spec. rewrite bind_run, write_bytes_run.
  rewrite !root_noted, !root_logged.
  destruct (alter (write_at (spec_compress_pass B data)) (root w) dst)
    as [r'|] eqn:W.
  - destruct sp; [rewrite print_run|]; cbn; rewrite ?app_nil_r;
      (split; [reflexivity|]); intros _; apply (get_written _ _ _ W).
  - cbn. split; [reflexivity | discriminate].
Qed.

(** The one-shot compressor hands the whole input to [bz2.compress] and,
    once the file is written, reports [(n, n)] a single time. *)
Lemma bz2_compress_shape (src dst : path) (sp : bool) (w : world)
  (data : bytes) :
  get (root w) src = Some (File data) ->
  let run := bz2_compress B src dst sp w in
  fst run = Ok tt ->
  reports (snd run) =
    reports w ++ when_shown sp [(len data, len data, "Сжатие bz2")]
  /\ get (root (snd run)) dst = Some (File (bz2_compress_fn B data)).
Proof.
  intros G run. subst run. rewrite (bz2_compress_run B src dst sp w G).
  rewrite bind_run, write_bytes_run.
  rewrite !root_logged.
  destruct (alter (write_at (bz2_compress_fn B data)) (root w) dst)
    as [r'|] eqn:W; [|discriminate].
  intros _. destruct sp.
  - rewrite bind_run, pacman_progress_run, print_run. cbn.
    rewrite app_nil_r. split; [reflexivity | apply (get_written _ _ _ W)].
  - cbn. rewrite app_nil_r. split; [reflexivity | apply (get_written _ _ _ W)].
Qed.

End CompressionShape.

Section CompressionOutcome.

Variable B : backend.

(** The streaming compressor reports while it reads, before it writes: the
    reports are made whether or not the write succeeds. *)
Lemma zstd_compress_outcome (src dst : path) (sp : bool) (w : world)
  (data : bytes) :
  get (root w) src = Some (File data) ->
  let run := zstd_compress B src dst sp w in
  reports (snd run) =
    reports w ++ when_shown sp (spec_reports "Сжатие zstd" data)
  /\ match alter (write_at (spec_compress_pass B data)) (root w) dst with
     | Some r' =>
         fst run = Ok tt /\ root (snd run) = r'
         /\ get r' dst = Some (File (spec_compress_pass B data))
     | None =>
         fst run = Abort (Uncaught (OSError dst)) /\ root (snd run) = root w
     end.
Proof.
  intros G run. subst run. rewrite (zstd_compress_run B src dst sp w G).
  rewrite loop_reports_spec. rewrite bind_run, write_bytes_run.
  rewrite !root_noted, !root_logged.
  destruct (alter (write_at (spec_compress_pass B data)) (root w) dst)
    as [r'|] eqn:W.
  - destruct sp; [rewrite print_run|]; cbn; rewrite ?app_nil_r;
      (split; [reflexivity|]); (split; [reflexivity|]);
      (split; [reflexivity|]); apply (get_written _ _ _ W).
  - cbn. repeat split; reflexivity.
Qed.

(** The one-shot compressor reports after it has written: once if the
    write succeeds, not at all if it fails. *)
Lemma bz2_compress_outcome (src dst : path) (sp : bool) (w : world)
  (data : bytes) :
  get (root w) src = Some (File data) ->
  let run := bz2_compress B src dst sp w in
  match alter (write_at (bz2_compress_fn B data)) (root w) dst with
  | Some r' =>
      fst run = Ok tt /\ root (snd run) = r'
      /\ get r' dst = Some (File (bz2_compress_fn B data))
      /\ reports (snd run) =
           reports w ++ when_shown sp [(len data, len data, "Сжатие bz2")]
  | None =>
      fst run = Abort (Uncaught (OSError dst)) /\ root (snd run) = root w
      /\ reports (snd run) = reports w
  end.
Proof.
  intros G run. subst run. rewrite (bz2_compress_run B src dst sp w G).
  rewrite bind_run, write_bytes_run. rewrite !root_logged.
  destruct (alter (write_at (bz2_compress_fn B data)) (root w) dst)
    as [r'|] eqn:W.
  - destruct sp.
    + rewrite bind_run, pacman_progress_run, print_run. cbn.
      rewrite app_nil_r. repeat split; try reflexivity.
      apply (get_written _ _ _ W).
    + cbn. rewrite app_nil_r. repeat split; try reflexivity.
      apply (get_written _ _ _ W).
  - cbn. repeat split; reflexivity.
Qed.

End CompressionOutcome.

(** C3 (amended): for every regular input file, the zstd compression pass
    starts from a fresh compressor, takes the input in chunks of 262144
    bytes, appends each chunk's output, reports (bytes consumed so far,
    total) after each chunk when progress is enabled, and appends the flush
    output before the output file is written: the reports are made whether
    or not the write then succeeds.  The bz2 compression pass compresses
    the whole input in one call and, when progress is enabled, reports
    (total, total) exactly once, after the output file is written: if the
    write fails, nothing is reported.  Either pass returns normally exactly
    when the write is possible, and otherwise fails with the OS error of
    the target and leaves the file system unchanged. *)
Theorem compression_pass_shape :
  forall (B : backend) (src dst : path) (sp : bool) (w : world) (data : bytes),
    get (root w) src = Some (File data) ->
    (reports (snd (zstd_compress B src dst sp w)) =
       reports w ++ when_shown sp (spec_reports "Сжатие zstd" data)
     /\ match alter (write_at (spec_compress_pass B data)) (root w) dst with
        | Some r' =>
            fst (zstd_compress B src dst sp w) = Ok tt
            /\ root (snd (zstd_compress B src dst sp w)) = r'
            /\ get r' dst = Some (File (spec_compress_pass B data))
        | None =>
            fst (zstd_compress B src dst sp w) =
              Abort (Uncaught (OSError dst))
            /\ root (snd (zstd_compress B src dst sp w)) = root w
        end)
    /\ match alter (write_at (bz2_compress_fn B data)) (root w) dst with
       | Some r' =>
           fst (bz2_compress B src dst sp w) = Ok tt
           /\ root (snd (bz2_compress B src dst sp w)) = r'
           /\ get r' dst = Some (File (bz2_compress_fn B data))
           /\ reports (snd (bz2_compress B src dst sp w)) =
                reports w ++
                when_shown sp [(len data, len data, "Сжатие bz2")]
       | None =>
           fst (bz2_compress B src dst sp w) = Abort (Uncaught (OSError dst))
           /\ root (snd (bz2_compress B src dst sp w)) = root w
           /\ reports (snd (bz2_compress B src dst sp w)) = reports w
       end.
Proof.
  intros B src dst sp w data G. split.
  - apply (zstd_compress_outcome B src dst sp w G).
  - apply (bz2_compress_outcome B src dst sp w G).
Qed.

Lemma compression_pass_shape_witness :
  get (root sample_world) ["f.txt"] = Some (File hello)
  /\ (fst (bz2_compress Toy.libs ["f.txt"] ["f.bz2"] true sample_world)
      = Ok tt
      /\ reports (snd (bz2_compress Toy.libs ["f.txt"] ["f.bz2"] true
                         sample_world)) =
           [(len hello, len hello, "Сжатие bz2")])
  /\ (fst (bz2_compress Toy.libs ["f.txt"] ["proj"] true sample_world)
      = Abort (Uncaught (OSError ["proj"]))
      /\ reports (snd (bz2_compress Toy.libs ["f.txt"] ["proj"] true
                         sample_world)) = [])
  /\ (fst (zstd_compress Toy.libs ["f.txt"] ["proj"] true sample_world)
      = Abort (Uncaught (OSError ["proj"]))
      /\ reports (snd (zstd_compress Toy.libs ["f.txt"] ["proj"] true
                         sample_world)) =
           spec_reports "Сжатие zstd" hello).
Proof.
  split; [reflexivity|].
  pose proof (compression_pass_shape Toy.libs ["f.txt"] ["f.bz2"] true
                sample_world (data := hello) eq_refl) as [_ Hb].
  pose proof (compression_pass_shape Toy.libs ["f.txt"] ["proj"] true
                sample_world (data := hello) eq_refl) as [[Zr Hz] Hd].
  cbn [alter sample_world sample_root root assoc String.eqb Ascii.eqb
       Bool.eqb write_at] in Hb, Hz, Hd.
  destruct Hb as [B1 [_ [_ B2]]]. destruct Hd as [D1 [_ D2]].
  destruct Hz as [Z1 _].
  split; [split; [exact B1 | exact B2]|].
  split; [split; [exact D1 | exact D2]|].
  split; [exact Z1 | exact Zr].
Defined.

Lemma len_big_input : len big_input = 262145.
Proof.
  unfold len, big_input. rewrite repeat_length. apply Z2Nat.id. lia.
Qed.

Lemma bz2_compress_single_file (data : bytes) :
  let w := mkWorld (Dir [("big.bin", File data)]) [] [] [] in
  fst (bz2_compress Toy.libs ["big.bin"] ["big.bz2"] true w) = Ok tt
  /\ reports (snd (bz2_compress Toy.libs ["big.bin"] ["big.bz2"] true w)) =
       [(len data, len data, "Сжатие bz2")].
Proof.
  intros w.
  assert (get (root w) ["big.bin"] = Some (File data)) as G by reflexivity.
  assert (fst (bz2_compress Toy.libs ["big.bin"] ["big.bz2"] true w) = Ok tt)
    as R.
  { rewrite (bz2_compress_run Toy.libs ["big.bin"] ["big.bz2"] true w G).
    rewrite bind_run, write_bytes_run. cbn -[pacman_progress print].
    rewrite bind_run, pacman_progress_run, print_run. reflexivity. }
  split; [exact R|].
  apply (bz2_compress_shape Toy.libs ["big.bin"] ["big.bz2"] true w G R).
Qed.

(** C3 (counterexample): a bz2 compression of 262145 bytes with progress
    enabled reports once, [(262145, 262145)], whereas reporting after each
    262144-byte chunk would report twice, [(262144, 262145)] and then
    [(262145, 262145)]. *)
Lemma bz2_compress_reports_once :
  fst (bz2_compress Toy.libs ["big.bin"] ["big.bz2"] true big_world) = Ok tt
  /\ reports (snd (bz2_compress Toy.libs ["big.bin"] ["big.bz2"] true
                     big_world)) =
       [(262145, 262145, "Сжатие bz2")]
  /\ spec_reports "Сжатие bz2" big_input =
       [(262144, 262145, "Сжатие bz2"); (262145, 262145, "Сжатие bz2")].
Proof.
  destruct (bz2_compress_single_file big_input) as [R1 R2].
  rewrite len_big_input in R2.
  split; [exact R1|]. split; [exact R2|].
  rewrite <- loop_reports_spec. unfold loop_reports, offsets.
  rewrite len_big_input.
  replace (py_range 0 262145 chunk_size) with [0; 262144] by reflexivity.
  cbn [map]. rewrite !len_slice by (unfold chunk_size; lia).
  rewrite len_big_input. reflexivity.
Qed.

(** ** [main], stage by stage *)

Section MainRuns.

Variable B : backend.

Lemma main_compress_run (a : args) (w : world) :
  compress a = true -> extract a = false ->
  is_codec_ext (suffix (target a)) = true ->
  main B a w =
  (compress_branch B a (is_dir_node (get (root w) (source a))) ;;
   bench_block a) (logged w [OpStat (source a)]).
Proof.
  intros Hc Hx He. unfold main. rewrite Hc, Hx. cbn [Bool.eqb].
  rewrite bind_run. unfold path_is_dir at 1.
  rewrite !bind_run. unfold log_op at 1, get_root at 1, ret at 1.
  cbn [root stdout reports oplog]. rewrite He. cbn [negb].
  reflexivity.
Qed.

Lemma main_extract_run (a : args) (w : world) :
  compress a = false -> extract a = true ->
  is_codec_ext (suffix (source a)) = true ->
  main B a w =
  (extract_branch B a ;; bench_block a) (logged w [OpStat (source a)]).
Proof.
  intros Hc Hx He. unfold main. rewrite Hc, Hx. cbn [Bool.eqb].
  rewrite bind_run. unfold path_is_dir at 1.
  rewrite !bind_run. unfold log_op at 1, get_root at 1, ret at 1.
  cbn [root stdout reports oplog]. rewrite He. cbn [negb].
  unfold extract_branch, decompress_pass.
  destruct (is_tar_name (source a)); reflexivity.
Qed.

(** The benchmark block never fails and leaves the file system alone. *)
Lemma bench_block_ok (a : args) (w : world) :
  fst (bench_block a w) = Ok tt /\ root (snd (bench_block a w)) = root w.
Proof.
  unfold bench_block. destruct (benchmark a); [|split; reflexivity].
  rewrite bind_run.
  destruct (calc_size_run (source a) w) as [V1 R1].
  destruct (calc_size (source a) w) as [v1 w1]. cbn [fst snd] in *.
  subst v1. rewrite bind_run.
  destruct (calc_size_run (target a) w1) as [V2 R2].
  destruct (calc_size (target a) w1) as [v2 w2]. cbn [fst snd] in *.
  subst v2. cbn. split; [reflexivity | congruence].
Qed.

(** A stage followed by the benchmark block. *)
Lemma then_bench (m : M unit) (a : args) (w : world) :
  fst ((m ;; bench_block a) w) = fst (m w)
  /\ root (snd ((m ;; bench_block a) w)) = root (snd (m w)).
Proof.
  rewrite bind_run. destruct (m w) as [[[]|x] w']; cbn [fst snd].
  - apply bench_block_ok.
  - split; reflexivity.
Qed.

(** What a compression pass does to the result and the file system. *)
Lemma compress_pass_spec (ext : string) (src dst : path) (sp : bool)
  (w : world) (data : bytes) :
  get (root w) src = Some (File data) ->
  let run := compress_pass B ext src dst sp w in
  match alter (write_at (encode B ext data)) (root w) dst with
  | Some r' => fst run = Ok tt /\ root (snd run) = r'
  | None => fst run = Abort (Uncaught (OSError dst))
            /\ root (snd run) = root w
  end.
Proof.
  intros G run. subst run. unfold compress_pass, encode.
  destruct (String.eqb ext ".zst").
  - rewrite (zstd_compress_run B src dst sp w G).
    rewrite bind_run, write_bytes_run, root_noted, root_logged.
    destruct (alter (write_at (spec_compress_pass B data)) (root w) dst).
    + destruct sp; [rewrite print_run|]; split; reflexivity.
    + split; reflexivity.
  - rewrite (bz2_compress_run B src dst sp w G).
    rewrite bind_run, write_bytes_run, root_logged.
    destruct (alter (write_at (bz2_compress_fn B data)) (root w) dst).
    + destruct sp; [|split; reflexivity].
      rewrite bind_run, pacman_progress_run, print_run. split; reflexivity.
    + split; reflexivity.
Qed.

(** What a decompression pass does to the result, the file system and the
    log of calls. *)
Lemma decompress_pass_spec (ext : string) (src dst : path) (sp : bool)
  (w : world) (data : bytes) :
  get (root w) src = Some (File data) ->
  let run := decompress_pass B ext src dst sp w in
  match decode B ext data with
  | Some plain =>
      oplog (snd run) = oplog w ++ [OpRead src; OpWrite dst]
      /\ match alter (write_at plain) (root w) dst with
         | Some r' => fst run = Ok tt /\ root (snd run) = r'
         | None => fst run = Abort (Uncaught (OSError dst))
                   /\ root (snd run) = root w
         end
  | None => fst run = Abort (Uncaught CodecError)
            /\ root (snd run) = root w
  end.
Proof.
  intros G run. subst run. unfold decompress_pass, decode, stream_decompress.
  destruct (String.eqb ext ".zst").
  - rewrite (zstd_decompress_run B src dst sp w G).
    destruct (zd_stream B (zd_new B) [] (chunks chunk_size data))
      as [[st plain]|]; [|split; reflexivity].
    rewrite bind_run, write_bytes_run, root_noted, root_logged.
    destruct (alter (write_at plain) (root w) dst).
    + destruct sp; [rewrite print_run|]; cbn; rewrite <- app_assoc;
        repeat split; reflexivity.
    + cbn. rewrite <- app_assoc. repeat split; reflexivity.
  - rewrite (bz2_decompress_run B src dst sp w G).
    destruct (bz2_decompress_fn B data) as [plain|]; [|split; reflexivity].
    rewrite bind_run, write_bytes_run, root_logged.
    destruct (alter (write_at plain) (root w) dst).
    + destruct sp.
      * rewrite bind_run, pacman_progress_run, print_run. cbn.
        rewrite <- app_assoc. repeat split; reflexivity.
      * cbn. rewrite <- app_assoc. repeat split; reflexivity.
    + cbn. rewrite <- app_assoc. repeat split; reflexivity.
Qed.

End MainRuns.

(** ** What a computation adds to the log of calls *)

Section Logging.

Variable P : fs_op -> Prop.

Lemma appends_silent (A : Type) (m : M A) :
  preserves oplog m -> appends P m.
Proof.
  intros H w. exists []. rewrite app_nil_r. split; [apply H | constructor].
Qed.

Lemma appends_log_op (o : fs_op) : P o -> appends P (log_op o).
Proof.
  intros H w. exists [o]. split; [reflexivity | repeat constructor; exact H].
Qed.

Lemma appends_bind (A C : Type) (m : M A) (k : A -> M C) :
  appends P m -> (forall a, appends P (k a)) -> appends P (bind m k).
Proof.
  intros Hm Hk w. rewrite bind_run. destruct (Hm w) as [ops1 [E1 F1]].
  destruct (m w) as [[a|x] w']; cbn [snd] in *.
  - destruct (Hk a w') as [ops2 [E2 F2]]. exists (ops1 ++ ops2).
    rewrite E2, E1, app_assoc. split; [reflexivity|].
    apply Forall_app. split; assumption.
  - exists ops1. split; assumption.
Qed.

Lemma appends_for_loop (S : Type) (body : Z -> S -> M S) :
  (forall i s, appends P (body i s)) ->
  forall l s, appends P (for_loop l body s).
Proof.
  intros Hb. induction l as [|i l IH]; intros s; cbn [for_loop].
  - apply appends_silent. apply preserves_ret.
  - apply appends_bind; [apply Hb | intros s'; apply IH].
Qed.

Lemma appends_while_loop (S : Type) (body : Z -> S -> M S) (total step : Z) :
  (forall i s, appends P (body i s)) ->
  forall fuel i s, appends P (while_loop fuel i total step body s).
Proof.
  intros Hb. induction fuel as [|fuel IH]; intros i s; cbn [while_loop].
  - apply appends_silent. apply preserves_ret.
  - destruct (i <? total); [|apply appends_silent; apply preserves_ret].
    apply appends_bind; [apply Hb | intros s'; apply IH].
Qed.

End Logging.

Lemma pacman_progress_silent d t l : preserves oplog (pacman_progress d t l).
Proof. unfold pacman_progress, print. frame. Qed.

Ltac logs_step :=
  first
    [ apply appends_log_op; cbn; auto
    | apply appends_bind; [| intros ?]
    | apply appends_for_loop; intros ? ?
    | apply appends_while_loop; intros ? ?
    | match goal with
      | |- appends _ (if ?b then _ else _) => destruct b
      | |- appends _ (match ?x with _ => _ end) => destruct x
      | |- appends _ (let (_, _) := ?x in _) => destruct x
      end
    | (apply appends_silent;
       first [ apply pacman_progress_silent
             | intros ?; reflexivity ]) ].

Ltac logs := repeat logs_step.

Section Direct.

Variable B : backend.

Lemma bench_block_logs (src dst : path) (a : args) :
  appends (direct_op src dst) (bench_block a).
Proof.
  unfold bench_block, calc_size, path_is_file, path_is_dir, path_file_size,
    path_rglob, emit. logs.
Qed.

Lemma decompress_pass_logs (ext : string) (src dst : path) (sp : bool) :
  appends (direct_op src dst) (decompress_pass B ext src dst sp).
Proof.
  unfold decompress_pass, zstd_decompress, bz2_decompress, read_bytes,
    write_bytes, print, set_root, get_root, emit. logs.
Qed.

Lemma tar_unpack_logs (t d : path) : appends (fun _ => True) (tar_unpack B t d).
Proof.
  unfold tar_unpack, os_makedirs, read_bytes, print, set_root, get_root, emit.
  logs.
Qed.

Lemma os_remove_logs (p : path) : appends (fun _ => True) (os_remove p).
Proof. unfold os_remove, set_root, get_root. logs. Qed.

Lemma bench_block_logs_any (a : args) :
  appends (fun _ => True) (bench_block a).
Proof.
  unfold bench_block, calc_size, path_is_file, path_is_dir, path_file_size,
    path_rglob, emit. logs.
Qed.

End Direct.

(** ** Suffixes *)

Lemma rsplit_dot_shorter (r : list ascii) :
  forall ext stem e,
    rsplit_dot r ext = Some (stem, e) -> (List.length stem < List.length r)%nat.
Proof.
  induction r as [|c r IH]; intros ext stem e H; [discriminate|].
  cbn [rsplit_dot] in H. destruct (Ascii.eqb c dot).
  - injection H as <- _. rewrite length_rev. cbn [List.length]. lia.
  - apply IH in H. cbn [List.length]. lia.
Qed.

Lemma splitext_shorter (nm stem : list ascii) (c : ascii) (suf : list ascii) :
  splitext nm = (stem, c :: suf) -> (List.length stem < List.length nm)%nat.
Proof.
  unfold splitext.
  destruct (rsplit_dot (rev nm) []) as [[stem0 ext]|] eqn:R; [|discriminate].
  destruct (existsb (fun c0 => negb (Ascii.eqb c0 dot)) stem0);
    [|discriminate].
  intros [= <- _]. apply rsplit_dot_shorter in R.
  now rewrite length_rev in R.
Qed.

(** The loop of [Path.suffixes] is over before the fuel runs out: more fuel
    than the length of the name changes nothing. *)
Lemma suffixes_loop_fuel (f1 : nat) :
  forall f2 stem acc,
    (List.length stem <= f1)%nat -> (List.length stem <= f2)%nat ->
    suffixes_loop f1 stem acc = suffixes_loop f2 stem acc.
Proof.
  induction f1 as [|f1 IH]; intros f2 stem acc H1 H2.
  - destruct stem; [|cbn [List.length] in H1; lia].
    destruct f2; reflexivity.
  - destruct f2 as [|f2].
    + destruct stem; [reflexivity | cbn [List.length] in H2; lia].
    + cbn [suffixes_loop].
      destruct (splitext stem) as [stem' [|c suf]] eqn:E; [reflexivity|].
      apply splitext_shorter in E. apply IH; lia.
Qed.

Lemma suffixes_loop_acc (fuel : nat) :
  forall stem acc,
    suffixes_loop fuel stem acc = acc ++ suffixes_loop fuel stem [].
Proof.
  induction fuel as [|fuel IH]; intros stem acc; cbn [suffixes_loop].
  - now rewrite app_nil_r.
  - destruct (splitext stem) as [stem' [|c suf]].
    + now rewrite app_nil_r.
    + rewrite IH, (IH stem' ([] ++ _)). cbn [app]. now rewrite <- app_assoc.
Qed.

(** [Path.suffix] is the last of [Path.suffixes]. *)
Lemma suffix_is_last (p : path) (l : list string) (e : string) :
  suffixes p = l ++ [e] -> suffix p = e.
Proof.
  unfold suffixes, suffix.
  set (nm := list_ascii_of_string (name p)).
  destruct (List.length nm) as [|fuel].
  - cbn. intros H. destruct l; discriminate.
  - cbn [suffixes_loop]. destruct (splitext nm) as [stem' [|c suf]].
    + cbn. intros H. destruct l; discriminate.
    + rewrite suffixes_loop_acc. cbn [app snd rev]. intros H.
      apply app_inj_tail in H. destruct H as [_ H]. exact H.
Qed.

Lemma three_suffixes_not_tar (p : path) (pre : list string) (x y : string) :
  pre <> [] -> suffixes p = pre ++ [x; y] -> is_tar_name p = false.
Proof.
  intros Hne H. unfold is_tar_name. rewrite H, len_app.
  destruct pre as [|z pre]; [contradiction|].
  replace (len (z :: pre) + len [x; y] =? 2) with false; [reflexivity|].
  symmetry. apply Z.eqb_neq. pose proof (len_nonneg pre).
  unfold len in *. cbn [List.length]. lia.
Qed.

(** ** When extraction unbundles *)

Lemma appends_weaken (P Q : fs_op -> Prop) (A : Type) (m : M A) :
  (forall o, P o -> Q o) -> appends P m -> appends Q m.
Proof.
  intros PQ H w. destruct (H w) as [ops [E F]]. exists ops.
  split; [exact E | eapply Forall_impl; [exact PQ | exact F]].
Qed.

Section Unbundling.

Variable B : backend.

Lemma tar_unpack_logged (t d : path) (w : world) :
  exists ops,
    oplog (snd (tar_unpack B t d w)) = oplog w ++ OpUntar t d :: ops.
Proof.
  unfold tar_unpack. rewrite bind_run.
  change (log_op (OpUntar t d) w) with (Ok tt, logged w [OpUntar t d]).
  cbv iota beta.
  match goal with
  | |- context [snd (?m (logged w [OpUntar t d]))] =>
      assert (appends (fun _ => True) m) as H
  end.
  { unfold os_makedirs, read_bytes, print, set_root, get_root, emit. logs. }
  destruct (H (logged w [OpUntar t d])) as [ops [E _]].
  exists ops. rewrite E. cbn [logged oplog]. now rewrite <- app_assoc.
Qed.

(** A bundled extraction whose decompression stage succeeds calls
    [tar_unpack]. *)
Lemma bundled_extract_unpacks (a : args) (w : world) (data plain : bytes)
  (r1 : node) :
  get (root w) (source a) = Some (File data) ->
  decode B (suffix (source a)) data = Some plain ->
  alter (write_at plain) (root w) tmp_unpack_tar = Some r1 ->
  exists ops,
    oplog (snd (((decompress_pass B (suffix (source a)) (source a)
                    tmp_unpack_tar (progress a) ;;
                  tar_unpack B tmp_unpack_tar (target a) ;;
                  os_remove tmp_unpack_tar) ;; bench_block a) w)) =
    oplog w ++ [OpRead (source a); OpWrite tmp_unpack_tar;
                OpUntar tmp_unpack_tar (target a)] ++ ops.
Proof.
  intros G D W.
  pose proof (decompress_pass_spec B (suffix (source a)) (source a)
                tmp_unpack_tar (progress a) w G) as S.
  cbv zeta in S. rewrite D, W in S. destruct S as [L [R _]].
  rewrite !bind_run.
  destruct (decompress_pass B (suffix (source a)) (source a) tmp_unpack_tar
              (progress a) w) as [[[]|x] w1]; [|discriminate].
  cbn [snd] in L. cbv beta iota. rewrite !bind_run.
  destruct (tar_unpack_logged tmp_unpack_tar (target a) w1) as [ops1 E1].
  destruct (tar_unpack B tmp_unpack_tar (target a) w1) as [[[]|x] w2];
    cbn [snd] in E1; cbv beta iota.
  - destruct (os_remove_logs tmp_unpack_tar w2) as [ops2 [E2 _]].
    destruct (os_remove tmp_unpack_tar w2) as [[[]|x] w3]; cbn [snd] in E2;
      cbv beta iota.
    + destruct (bench_block_logs_any a w3) as [ops3 [E3 _]].
      exists (ops1 ++ ops2 ++ ops3). rewrite E3, E2, E1, L.
      rewrite <- !app_assoc. reflexivity.
    + exists (ops1 ++ ops2). cbn [snd]. rewrite E2, E1, L.
      rewrite <- !app_assoc. reflexivity.
  - exists ops1. cbn [snd]. rewrite E1, L. rewrite <- !app_assoc. reflexivity.
Qed.

End Unbundling.

(** C10: in extract mode with a recognised extension, [tar_unpack] is
    called only if the source name has exactly two suffixes of which the
    first is [.tar], and it is called whenever that holds and the
    decompression into the transient file succeeds; for a source name with
    three or more suffixes ending in [.tar.<codec>], the only file-system
    calls are status queries, the read of the source and the write of the
    target (no transient file, no unbundling), and a run that returns
    normally leaves the decompressed bytes in the target as a regular
    file. *)
Theorem unbundle_iff_two_suffix_tar :
  forall (B : backend) (a : args) (w : world),
    compress a = false ->
    extract a = true ->
    is_codec_ext (suffix (source a)) = true ->
    exists ops,
      oplog (snd (main B a w)) = oplog w ++ ops
      /\ (forall t d, In (OpUntar t d) ops -> is_tar_name (source a) = true)
      /\ (is_tar_name (source a) = true ->
          forall data plain r1,
            get (root w) (source a) = Some (File data) ->
            decode B (suffix (source a)) data = Some plain ->
            alter (write_at plain) (root w) tmp_unpack_tar = Some r1 ->
            In (OpUntar tmp_unpack_tar (target a)) ops)
      /\ (forall pre e,
            pre <> [] ->
            suffixes (source a) = pre ++ [".tar"; e] ->
            Forall (direct_op (source a) (target a)) ops
            /\ forall data plain,
                 get (root w) (source a) = Some (File data) ->
                 decode B e data = Some plain ->
                 fst (main B a w) = Ok tt ->
                 get (root (snd (main B a w))) (target a) =
                   Some (File plain)).
Proof.
  intros B a w Hc Hx He. rewrite (main_extract_run B a w Hc Hx He).
  set (w0 := logged w [OpStat (source a)]).
  destruct (is_tar_name (source a)) eqn:T.
  - (* bundled *)
    assert (appends (fun _ => True) (extract_branch B a ;; bench_block a)) as A.
    { unfold extract_branch. rewrite T.
      apply appends_bind; [| intros ?; apply bench_block_logs_any].
      apply appends_bind;
        [eapply appends_weaken; [|apply decompress_pass_logs]; auto
        | intros ?].
      apply appends_bind; [apply tar_unpack_logs | intros ?].
      apply os_remove_logs. }
    destruct (A w0) as [ops [E _]].
    exists (OpStat (source a) :: ops). split.
    { rewrite E. subst w0. cbn [logged oplog]. now rewrite <- app_assoc. }
    split; [intros; reflexivity|]. split.
    + intros _ data plain r1 G D W.
      unfold extract_branch in E. rewrite T in E.
      destruct (bundled_extract_unpacks B a w0 (data := data) (plain := plain)
                  (r1 := r1)) as [ops' E']; try assumption.
      rewrite E' in E. apply app_inv_head in E. subst ops.
      right. cbn. right. right. left. reflexivity.
    + intros pre e Hne S.
      rewrite (@three_suffixes_not_tar _ _ _ _ Hne S) in T. discriminate.
  - (* direct *)
    assert (appends (direct_op (source a) (target a))
              (extract_branch B a ;; bench_block a)) as A.
    { unfold extract_branch. rewrite T.
      apply appends_bind; [apply decompress_pass_logs|].
      intros ?. apply bench_block_logs. }
    destruct (A w0) as [ops [E F]].
    exists (OpStat (source a) :: ops). split.
    { rewrite E. subst w0. cbn [logged oplog]. now rewrite <- app_assoc. }
    assert (Forall (direct_op (source a) (target a))
                   (OpStat (source a) :: ops)) as F'.
    { constructor; [exact I | exact F]. }
    split.
    { intros t d Hin. rewrite Forall_forall in F'.
      destruct (F' _ Hin). }
    split; [discriminate|].
    intros pre e Hne S. split; [exact F'|].
    intros data plain G D R.
    assert (suffix (source a) = e) as Es.
    { apply (@suffix_is_last (source a) (pre ++ [".tar"])).
      rewrite S, <- app_assoc. reflexivity. }
    destruct (then_bench (extract_branch B a) a w0) as [R1 R2].
    rewrite R1 in R. rewrite R2.
    unfold extract_branch in *. rewrite T in *.
    pose proof (decompress_pass_spec B (suffix (source a)) (source a)
                  (target a) (progress a) w0 G) as P.
    cbv zeta in P. rewrite Es, D in P. destruct P as [_ P].
    change (root w0) with (root w) in P.
    destruct (alter (write_at plain) (root w) (target a)) as [r'|] eqn:W.
    + destruct P as [_ P]. rewrite Es in *. rewrite P.
      apply (get_written _ _ _ W).
    + destruct P as [P _]. rewrite Es in *. congruence.
Qed.

Import Byte.

Lemma unbundle_iff_two_suffix_tar_witness :
  compress triple_args = false
  /\ extract triple_args = true
  /\ is_codec_ext (suffix (source triple_args)) = true
  /\ exists ops,
       oplog (snd (main Toy.libs triple_args triple_world)) =
         oplog triple_world ++ ops
       /\ (forall t d, In (OpUntar t d) ops ->
             is_tar_name (source triple_args) = true)
       /\ Forall (direct_op (source triple_args) (target triple_args)) ops
       /\ get (root (snd (main Toy.libs triple_args triple_world)))
              (target triple_args) = Some (File hello).
Proof.
  split; [reflexivity|]. split; [reflexivity|]. split; [reflexivity|].
  destruct (unbundle_iff_two_suffix_tar Toy.libs triple_args triple_world
              eq_refl eq_refl eq_refl) as [ops [E [U [_ D]]]].
  exists ops. split; [exact E|]. split; [exact U|].
  destruct (D [".b"] ".zst") as [F G]; [discriminate | reflexivity |].
  split; [exact F|].
  apply (G (Toy.magic_zst :: hello) hello); reflexivity.
Defined.

(** ** Cleaning up the transient archive *)

Lemma bind_ok (A C : Type) (m : M A) (k : A -> M C) (w : world) (c : C) :
  fst (bind m k w) = Ok c ->
  exists a w1, m w = (Ok a, w1) /\ bind m k w = k a w1.
Proof.
  rewrite bind_run. destruct (m w) as [[a|x] w1]; [|discriminate].
  intros _. exists a, w1. split; reflexivity.
Qed.

Lemma os_remove_run (p : path) (w : world) :
  os_remove p w =
  match alter remove_at (root w) p with
  | Some r' => (Ok tt, with_root (logged w [OpRemove p]) r')
  | None => (Abort (Uncaught (OSError p)), logged w [OpRemove p])
  end.
Proof.
  unfold os_remove, bind, log_op, get_root.
  cbn [root stdout reports oplog].
  destruct (alter remove_at (root w) p); reflexivity.
Qed.

Lemma os_remove_spec (p : path) (w : world) :
  fst (os_remove p w) = Ok tt ->
  alter remove_at (root w) p = Some (root (snd (os_remove p w))).
Proof.
  rewrite os_remove_run. destruct (alter remove_at (root w) p);
    [reflexivity | discriminate].
Qed.

Lemma path_exists_run (p : path) (w : world) :
  path_exists p w =
  (Ok (match get (root w) p with Some _ => true | None => false end),
   logged w [OpStat p]).
Proof. reflexivity. Qed.

Lemma cleanup_spec (p : path) (w : world) :
  fst (cleanup p w) = Ok tt ->
  get (root (snd (cleanup p w))) p = None.
Proof.
  unfold cleanup. rewrite bind_run, path_exists_run.
  destruct (get (root w) p) as [n|] eqn:G.
  - intros R. pose proof (os_remove_spec _ _ R) as S.
    apply (get_removed _ _ S).
  - intros _. exact G.
Qed.

Section Success.

Variable B : backend.

(** A run that returns normally passed the extension gate. *)
Lemma main_ok_ext (a : args) (w : world) :
  fst (main B a w) = Ok tt ->
  compress a = negb (extract a) /\ is_codec_ext (artifact_ext a) = true.
Proof.
  unfold main, artifact_ext.
  destruct (compress a), (extract a); cbn [Bool.eqb negb];
    try discriminate.
  - rewrite bind_run. unfold path_is_dir at 1. rewrite !bind_run.
    unfold log_op at 1, get_root at 1, ret at 1.
    destruct (is_codec_ext (suffix (target a))); [auto | discriminate].
  - rewrite bind_run. unfold path_is_dir at 1. rewrite !bind_run.
    unfold log_op at 1, get_root at 1, ret at 1.
    destruct (is_codec_ext (suffix (source a))); [auto | discriminate].
Qed.

End Success.

(** A run that returns normally leaves no transient archive behind:
    [tmp_data.tar] after compressing a directory, [tmp_unpack.tar] after
    extracting a source named [name.tar.<codec>]. *)
Lemma removed_on_success :
  forall (B : backend) (a : args) (w : world),
    fst (main B a w) = Ok tt ->
    (compress a = true ->
     is_dir_node (get (root w) (source a)) = true ->
     get (root (snd (main B a w))) tmp_data_tar = None)
    /\ (extract a = true ->
        is_tar_name (source a) = true ->
        get (root (snd (main B a w))) tmp_unpack_tar = None).
Proof.
  intros B a w R. destruct (main_ok_ext B a w R) as [M E].
  unfold artifact_ext in E. split.
  - intros Hc Hd. rewrite Hc in *.
    assert (extract a = false) as Hx by (destruct (extract a); [discriminate | reflexivity]).
    rewrite (main_compress_run B a w Hc Hx E) in *.
    set (w0 := logged w [OpStat (source a)]) in *.
    destruct (then_bench (compress_branch B a (is_dir_node (get (root w) (source a))))
                a w0) as [R1 R2].
    rewrite R1 in R. rewrite R2. clear R1 R2.
    rewrite Hd in *. unfold compress_branch in *.
    destruct (bind_ok _ _ _ R) as [input [w1 [_ K1]]]. rewrite K1 in *.
    destruct (bind_ok _ _ _ R) as [[] [w2 [_ K2]]]. rewrite K2 in *.
    apply (cleanup_spec tmp_data_tar w2 R).
  - intros Hx Ht. rewrite Hx in *. cbn [negb] in M.
    rewrite M in E.
    rewrite (main_extract_run B a w M Hx E) in *.
    set (w0 := logged w [OpStat (source a)]) in *.
    destruct (then_bench (extract_branch B a) a w0) as [R1 R2].
    rewrite R1 in R. rewrite R2. clear R1 R2.
    unfold extract_branch in *. rewrite Ht in *.
    destruct (bind_ok _ _ _ R) as [[] [w1 [_ K1]]]. rewrite K1 in *.
    destruct (bind_ok _ _ _ R) as [[] [w2 [_ K2]]]. rewrite K2 in *.
    apply (get_removed _ _ (os_remove_spec _ _ R)).
Qed.

(** C2 (counterexample): extracting [bad.tar.bz2], whose payload is not an
    archive, writes [tmp_unpack.tar], fails in [tar_unpack] and leaves
    [tmp_unpack.tar] on disk; compressing the directory [proj] to a target
    in a directory that does not exist builds [tmp_data.tar], fails in the
    codec pass's write and leaves [tmp_data.tar] on disk. *)
Lemma transient_left_after_failure :
  (let run := main Toy.libs (mkArgs false true ["bad.tar.bz2"] ["out"]
                               false false) bad_archive_world in
   fst run = Abort (Uncaught BundleError)
   /\ In (OpWrite tmp_unpack_tar) (oplog (snd run))
   /\ get (root (snd run)) tmp_unpack_tar = Some (File [Byte.x00; Byte.x01]))
  /\ (let run := main Toy.libs (mkArgs true false ["proj"]
                                  ["missing"; "p.tar.zst"] false false)
                   sample_world in
      fst run = Abort (Uncaught (OSError ["missing"; "p.tar.zst"]))
      /\ In (OpWrite tmp_data_tar) (oplog (snd run))
      /\ is_file_node (get (root (snd run)) tmp_data_tar) = true).
Proof.
  split; cbv zeta; (split; [vm_compute; reflexivity|]);
    (split; [vm_compute; tauto | vm_compute; reflexivity]).
Qed.

(** ** Codecs that lose nothing *)

Lemma concat_chunks_fuel (k : nat) :
  (0 < k)%nat ->
  forall fuel d, (List.length d <= fuel)%nat ->
    List.concat (chunks_fuel fuel k d) = d.
Proof.
  intros Hk. induction fuel as [|fuel IH]; intros d H.
  - destruct d; [reflexivity | cbn [List.length] in H; lia].
  - destruct d as [|x d]; [reflexivity|].
    cbn [chunks_fuel List.concat]. rewrite IH.
    + apply firstn_skipn.
    + rewrite length_skipn. cbn [List.length] in *. lia.
Qed.

Lemma chunks_fuel_nonempty (k : nat) :
  (0 < k)%nat ->
  forall fuel d, Forall (fun b => b <> []) (chunks_fuel fuel k d).
Proof.
  intros Hk. induction fuel as [|fuel IH]; intros d; [constructor|].
  destruct d as [|x d]; [constructor|].
  cbn [chunks_fuel]. constructor; [|apply IH].
  destruct k as [|k]; [lia|]. discriminate.
Qed.

Lemma concat_chunks (data : bytes) :
  List.concat (chunks chunk_size data) = data.
Proof.
  unfold chunks. apply concat_chunks_fuel; [|lia].
  pose proof chunk_size_pos. lia.
Qed.

Lemma chunks_nonempty (data : bytes) :
  Forall (fun b => b <> []) (chunks chunk_size data).
Proof.
  unfold chunks. apply chunks_fuel_nonempty.
  pose proof chunk_size_pos. lia.
Qed.

Section Lossless.

Variable B : backend.
Hypothesis zstd_ok : zstd_lossless B.
Hypothesis bz2_ok : bz2_lossless B.

(** Decoding what was encoded gives the input back, for either
    extension. *)
Lemma decode_encode (ext : string) (data : bytes) :
  decode B ext (encode B ext data) = Some data.
Proof.
  unfold decode, encode. destruct (String.eqb ext ".zst").
  - unfold spec_compress_pass.
    rewrite (zstd_ok (chunks chunk_size data)
               (chunks_nonempty (stream_compress B (chunks chunk_size data)))
               (concat_chunks _)).
    now rewrite concat_chunks.
  - apply bz2_ok.
Qed.

End Lossless.

(** ** The toy backend keeps its contracts *)

Module ToyFacts.

Import Toy.

Lemma zc_stream_started (out : bytes) (parts : list bytes) :
  zc_stream libs true out parts = (true, out ++ List.concat parts).
Proof.
  revert out. induction parts as [|p ps IH]; intros out.
  - cbn. now rewrite app_nil_r.
  - cbn [zc_stream List.concat]. cbn [zc_compress libs z_compress].
    rewrite IH, <- app_assoc. reflexivity.
Qed.

Lemma stream_compress_toy (parts : list bytes) :
  stream_compress libs parts = magic_zst :: List.concat parts.
Proof.
  unfold stream_compress, zc_finish. destruct parts as [|p ps].
  - reflexivity.
  - cbn [zc_stream]. cbn [zc_compress zc_new libs z_compress].
    rewrite zc_stream_started. cbn [fst snd zc_flush libs z_flush app].
    now rewrite app_nil_r.
Qed.

Lemma zd_stream_started (out : bytes) (blocks : list bytes) :
  zd_stream libs true out blocks = Some (true, out ++ List.concat blocks).
Proof.
  revert out. induction blocks as [|b bs IH]; intros out.
  - cbn. now rewrite app_nil_r.
  - cbn [zd_stream List.concat]. cbn [zd_decompress libs z_decompress].
    rewrite IH, <- app_assoc. reflexivity.
Qed.

Lemma zstd_lossless_toy : zstd_lossless libs.
Proof.
  intros parts blocks Hne E. rewrite stream_compress_toy in E.
  unfold stream_decompress. destruct blocks as [|b bs]; [discriminate|].
  inversion Hne as [|? ? Hb _]; subst. destruct b as [|x b]; [contradiction|].
  cbn [List.concat app] in E. injection E as -> E.
  cbn [zd_stream]. cbn [zd_decompress zd_new libs z_decompress].
  cbn [Byte.eqb]. replace (Byte.eqb magic_zst magic_zst) with true by reflexivity.
  rewrite zd_stream_started. cbn [app]. now rewrite E.
Qed.

Lemma bz2_lossless_toy : bz2_lossless libs.
Proof. intros data. reflexivity. Qed.

Lemma dec_enc_nat (n : nat) (rest : bytes) :
  dec_nat (enc_nat n ++ rest) = Some (n, rest).
Proof.
  induction n as [|n IH]; [reflexivity|].
  cbn [enc_nat app dec_nat]. now rewrite IH.
Qed.

Lemma dec_enc_blob (d rest : bytes) :
  dec_blob (enc_blob d ++ rest) = Some (d, rest).
Proof.
  unfold dec_blob, enc_blob. rewrite <- app_assoc, dec_enc_nat.
  replace (List.length (d ++ rest) <? List.length d)%nat with false.
  - rewrite firstn_app, Nat.sub_diag, firstn_all, firstn_O, app_nil_r.
    rewrite skipn_app, Nat.sub_diag, skipn_all. reflexivity.
  - symmetry. apply Nat.ltb_ge. rewrite length_app. lia.
Qed.

Lemma dec_enc_name (s : string) (rest : bytes) :
  dec_name (enc_name s ++ rest) = Some (s, rest).
Proof.
  unfold dec_name, enc_name. rewrite dec_enc_blob.
  now rewrite string_of_list_byte_of_string.
Qed.

Lemma dec_enc_node (t : node) :
  forall fuel rest,
    (List.length (enc_node t) <= fuel)%nat ->
    dec_node fuel (enc_node t ++ rest) = Some (t, rest).
Proof.
  induction t as [d | es IH] using node_induction; intros fuel rest Hf.
  - destruct fuel as [|fuel]; [cbn in Hf; lia|].
    cbn [enc_node app dec_node]. now rewrite dec_enc_blob.
  - destruct fuel as [|fuel]; [cbn in Hf; lia|].
    cbn [enc_node app dec_node]. rewrite <- app_assoc, dec_enc_nat.
    cbn [enc_node List.length] in Hf. rewrite length_app in Hf.
    assert (List.length
              (flat_map (fun e => enc_name (fst e) ++ enc_node (snd e)) es)
            <= fuel)%nat as Hl by lia.
    clear Hf. revert rest Hl.
    match goal with
    | |- forall rest, _ -> match ?f _ _ with _ => _ end = _ =>
        set (entries := f)
    end.
    assert (forall rest,
              (List.length
                 (flat_map (fun e => enc_name (fst e) ++ enc_node (snd e)) es)
               <= fuel)%nat ->
              entries (List.length es)
                (flat_map (fun e => enc_name (fst e) ++ enc_node (snd e)) es
                 ++ rest) = Some (es, rest)) as Loop.
    { induction IH as [|[nm n] es Hn Hes IHes]; intros rest Hl.
      - reflexivity.
      - cbn [flat_map fst snd List.length] in *.
        rewrite !length_app in Hl.
        unfold entries at 1. fold entries.
        rewrite <- !app_assoc, dec_enc_name.
        rewrite Hn by lia. rewrite IHes by lia. reflexivity. }
    intros rest Hl. now rewrite Loop.
Qed.

(** Unpacking into an empty directory keeps, under every name, the first
    member of that name. *)
Lemma members_unpacked (es : list (string * node)) (c : string) :
  assoc c (fold_right (fun m acc => bind_entry (fst m) (snd m) acc) [] es)
  = assoc c es.
Proof.
  induction es as [|[nm n] es IH]; [reflexivity|].
  cbn [fold_right fst snd assoc]. destruct (String.eqb c nm) eqn:E.
  - apply String.eqb_eq in E. subst c. apply assoc_bind_same.
  - apply String.eqb_neq in E. rewrite assoc_bind_other by exact E. exact IH.
Qed.

Lemma t_add_named (arcname : string) (tree : node) :
  arcname <> "." -> t_add arcname tree = enc_node (Dir [(arcname, tree)]).
Proof.
  intros N. unfold t_add. destruct tree as [d | es]; [reflexivity|].
  apply String.eqb_neq in N. now rewrite N.
Qed.

Lemma tar_lossless_toy : tar_lossless libs.
Proof.
  split.
  - intros arcname tree before after N _ H.
    cbn [tar_extractall tar_add libs] in H. unfold t_extractall in H.
    rewrite (t_add_named tree N) in H.
    rewrite <- (app_nil_r (enc_node (Dir [(arcname, tree)]))) in H at 2.
    rewrite dec_enc_node in H by lia.
    destruct before as [d | es]; [discriminate|].
    injection H as <-. cbn [fold_right fst snd get].
    now rewrite assoc_bind_same.
  - intros es after H.
    cbn [tar_extractall tar_add libs] in H. unfold t_extractall, t_add in H.
    rewrite String.eqb_refl in H.
    rewrite <- (app_nil_r (enc_node (Dir es))) in H at 2.
    rewrite dec_enc_node in H by lia.
    injection H as <-. split; [reflexivity|].
    intros c. cbn [get]. now rewrite members_unpacked.
Qed.

End ToyFacts.

(** ** Directories on the way to a path *)

Lemma get_through_dir (c : string) (rest : path) (r : node)
  (es : list (string * node)) :
  get r (c :: rest) = Some (Dir es) -> is_dir_node (get r [c]) = true.
Proof.
  cbn [get]. destruct r as [d | es0]; [discriminate|].
  destruct (assoc c es0) as [n|]; [|discriminate].
  destruct rest as [|c2 rest]; cbn [get].
  - intros [= ->]. reflexivity.
  - destruct n as [d | es1]; [discriminate | reflexivity].
Qed.

Lemma get_below_file (c : string) (q : path) (r : node) :
  is_file_node (get r [c]) = true -> q <> [] -> get r (c :: q) = None.
Proof.
  cbn [get]. destruct r as [d | es]; [reflexivity|].
  destruct (assoc c es) as [[d | es1]|]; try discriminate.
  intros _ Hq. destruct q; [contradiction | reflexivity].
Qed.

(** [mkdir] keeps every regular file. *)
Lemma mkdir_keeps_files (p : path) :
  forall r r' q d,
    alter mkdir_at r p = Some r' ->
    get r q = Some (File d) -> get r' q = Some (File d).
Proof.
  induction p as [|c p IH]; intros r r' q d H G; [discriminate|].
  destruct q as [|c' q].
  { cbn [alter] in H. destruct r; [discriminate|]. discriminate. }
  destruct (String.eqb c' c) eqn:E.
  2:{ apply String.eqb_neq in E. rewrite <- G.
      eapply get_alter_other_head; eassumption. }
  apply String.eqb_eq in E. subst c'.
  cbn [alter] in H. destruct r as [d0 | es]; [discriminate|].
  cbn [get] in G. destruct (assoc c es) as [n|] eqn:A; [|discriminate].
  destruct p as [|c2 p].
  - destruct n as [d1 | es1]; cbn [mkdir_at] in H; [discriminate|].
    injection H as <-. cbn [get]. now rewrite assoc_bind_same.
  - destruct (alter mkdir_at n (c2 :: p)) as [n'|] eqn:R; [|discriminate].
    injection H as <-. cbn [get]. rewrite assoc_bind_same.
    eapply IH; eassumption.
Qed.

(** [mkdir] creates nothing but the directory asked for. *)
Lemma mkdir_keeps_absent (p : path) :
  forall r r' q,
    alter mkdir_at r p = Some r' ->
    get r q = None -> q <> p -> get r' q = None.
Proof.
  induction p as [|c p IH]; intros r r' q H G N; [discriminate|].
  destruct q as [|c' q]; [discriminate|].
  destruct (String.eqb c' c) eqn:E.
  2:{ apply String.eqb_neq in E. rewrite <- G.
      eapply get_alter_other_head; eassumption. }
  apply String.eqb_eq in E. subst c'.
  cbn [alter] in H. destruct r as [d0 | es]; [discriminate|].
  cbn [get] in G. destruct p as [|c2 p].
  - assert (q <> []) as Hq by (intros ->; contradiction).
    destruct (assoc c es) as [[d1 | es1]|] eqn:A; cbn [mkdir_at] in H;
      try discriminate; injection H as <-; cbn [get];
      rewrite assoc_bind_same.
    + exact G.
    + destruct q; [contradiction | reflexivity].
  - destruct (assoc c es) as [n|] eqn:A; [|discriminate].
    destruct (alter mkdir_at n (c2 :: p)) as [n'|] eqn:R; [|discriminate].
    injection H as <-. cbn [get]. rewrite assoc_bind_same.
    eapply IH; [eassumption | eassumption |]. intros ->. contradiction.
Qed.

Lemma makedirs_keeps_files (todo : path) :
  forall r r' cur q d,
    makedirs_from r cur todo = Some r' ->
    get r q = Some (File d) -> get r' q = Some (File d).
Proof.
  induction todo as [|c todo IH]; intros r r' cur q d H G.
  - injection H as <-. exact G.
  - cbn [makedirs_from] in H.
    destruct (alter mkdir_at r (cur ++ [c])) as [r1|] eqn:A; [|discriminate].
    eapply IH; [eassumption|]. eapply mkdir_keeps_files; eassumption.
Qed.

Lemma makedirs_keeps_absent (todo : path) :
  forall r r' cur q,
    makedirs_from r cur todo = Some r' ->
    get r q = None ->
    (List.length (cur ++ todo) < List.length q)%nat ->
    get r' q = None.
Proof.
  induction todo as [|c todo IH]; intros r r' cur q H G L.
  - injection H as <-. exact G.
  - cbn [makedirs_from] in H.
    destruct (alter mkdir_at r (cur ++ [c])) as [r1|] eqn:A; [|discriminate].
    eapply IH; [eassumption | |].
    + eapply mkdir_keeps_absent; [eassumption | eassumption |]. intros ->.
      rewrite !length_app in L. cbn [List.length] in L. lia.
    + rewrite <- app_assoc. exact L.
Qed.

(** [makedirs] cannot pass through a regular file. *)
Lemma makedirs_not_through_file (c : string) (rest : path) (r r' : node) :
  makedirs_from r [] (c :: rest) = Some r' ->
  is_file_node (get r [c]) = false.
Proof.
  cbn [makedirs_from app]. cbn [alter].
  destruct r as [d | es]; [discriminate|]. cbn [get].
  destruct (assoc c es) as [[d | es1]|]; try reflexivity.
  cbn [mkdir_at]. discriminate.
Qed.

(** ** Bundling and unbundling *)

Lemma log_op_run (o : fs_op) (w : world) : log_op o w = (Ok tt, logged w [o]).
Proof. reflexivity. Qed.

Lemma get_root_run (w : world) : get_root w = (Ok (root w), w).
Proof. reflexivity. Qed.

Lemma set_root_run (r : node) (w : world) : set_root r w = (Ok tt, with_root w r).
Proof. reflexivity. Qed.

Lemma read_bytes_run (p : path) (w : world) :
  read_bytes p w =
  match get (root w) p with
  | Some (File d) => (Ok d, logged w [OpRead p])
  | _ => (Abort (Uncaught (OSError p)), logged w [OpRead p])
  end.
Proof.
  unfold read_bytes, bind, log_op, get_root.
  cbn [root stdout reports oplog].
  destruct (get (root w) p) as [[d | es]|]; reflexivity.
Qed.

Lemma os_makedirs_run (p : path) (w : world) :
  os_makedirs p w =
  match makedirs_from (root w) [] p with
  | Some r' => (Ok tt, with_root (logged w [OpMkdirs p]) r')
  | None => (Abort (Uncaught (OSError p)), logged w [OpMkdirs p])
  end.
Proof.
  unfold os_makedirs, bind, log_op, get_root.
  cbn [root stdout reports oplog].
  destruct (makedirs_from (root w) [] p); reflexivity.
Qed.

Lemma root_with_root w r : root (with_root w r) = r.
Proof. reflexivity. Qed.

Ltac run L := rewrite ?bind_run; rewrite L; cbv beta iota.

Section Bundles.

Variable B : backend.

(** A successful [tar_build] of a directory leaves, in [tmp_data.tar], the
    archive of that directory under its base name. *)
Lemma tar_build_spec (src : path) (w : world) (es : list (string * node)) :
  get (root w) src = Some (Dir es) ->
  src <> [] ->
  fst (tar_build B src tmp_data_tar w) = Ok tt ->
  get (root (snd (tar_build B src tmp_data_tar w))) tmp_data_tar =
    Some (File (tar_add B (basename src) (Dir es))).
Proof.
  intros G Hne. unfold tar_build.
  run print_run. run write_bytes_run. rewrite root_noted.
  destruct (alter (write_at []) (root w) tmp_data_tar) as [r1|] eqn:W1;
    [|discriminate].
  cbv beta iota. run log_op_run. run get_root_run.
  rewrite root_logged, root_with_root.
  destruct (alter remove_at r1 tmp_data_tar) as [r0|] eqn:W0; [|discriminate].
  assert (get r0 src = Some (Dir es)) as G0.
  { destruct src as [|c rest]; [contradiction|].
    assert (c <> "tmp_data.tar") as N.
    { intros ->. pose proof (written_was_no_dir _ _ _ W1) as D.
      unfold tmp_data_tar in D.
      rewrite (get_through_dir _ _ _ G) in D. discriminate. }
    rewrite <- G.
    transitivity (get r1 (c :: rest));
      eapply get_alter_other_head; eassumption. }
  rewrite G0. rewrite write_bytes_run, root_logged, root_with_root.
  destruct (alter (write_at (tar_add B (basename src) (Dir es))) r1
              tmp_data_tar) as [r2|] eqn:W2; [|discriminate].
  intros _. cbn [snd]. rewrite root_with_root.
  eapply get_written; eassumption.
Qed.

(** A successful [tar_unpack] creates the destination directory, extracts
    the archive into it and puts the result in its place. *)
Lemma tar_unpack_spec (t : string) (out : path) (w : world) (data : bytes) :
  get (root w) [t] = Some (File data) ->
  fst (tar_unpack B [t] out w) = Ok tt ->
  exists r6 before after,
    makedirs_from (root w) [] out = Some r6
    /\ get r6 out = Some before
    /\ tar_extractall B data before = Some after
    /\ get (root (snd (tar_unpack B [t] out w))) out = Some after
    /\ (forall c q, c <> hd c out ->
          get (root (snd (tar_unpack B [t] out w))) (c :: q) =
          get r6 (c :: q)).
Proof.
  intros G. unfold tar_unpack.
  run log_op_run. run os_makedirs_run. rewrite root_logged.
  destruct (makedirs_from (root w) [] out) as [r6|] eqn:Mk; [|discriminate].
  cbv beta iota. run print_run. run read_bytes_run.
  rewrite root_noted, root_with_root.
  rewrite (makedirs_keeps_files _ _ _ _ Mk G). cbv beta iota.
  run get_root_run. rewrite root_logged, root_noted, root_with_root.
  destruct (get r6 out) as [before|] eqn:Gb; [|discriminate].
  destruct (tar_extractall B data before) as [after|] eqn:X; [|discriminate].
  destruct out as [|c0 out'].
  - intros _. exists r6, before, after. rewrite set_root_run.
    cbn [snd]. rewrite root_with_root.
    repeat split; try reflexivity; try assumption.
    intros c q N. cbn [hd] in N. contradiction.
  - destruct (alter (redir_at after) r6 (c0 :: out')) as [r7|] eqn:Al;
      [|discriminate].
    intros _. exists r6, before, after. rewrite set_root_run.
    cbn [snd]. rewrite root_with_root.
    repeat split; try reflexivity; try assumption.
    + destruct (get_alter_same _ _ _ Al) as [o [Ho Hg]].
      rewrite Hg. unfold redir_at in Ho. rewrite Gb in Ho.
      destruct before; congruence.
    + intros c q N. cbn [hd] in N.
      eapply get_alter_other_head; eassumption.
Qed.

End Bundles.

(** ** Entries replaced twice, parents of a path, fresh directories *)

Lemma write_top_succeeds (d : bytes) (t : string) (es : list (string * node)) :
  is_dir_node (get (Dir es) [t]) = false ->
  alter (write_at d) (Dir es) [t] = Some (Dir (bind_entry t (File d) es)).
Proof.
  cbn [get alter]. destruct (assoc t es) as [[d0 | es0]|];
    try discriminate; reflexivity.
Qed.

Lemma unlink_unlink (c : string) (es : list (string * node)) :
  unlink c (unlink c es) = unlink c es.
Proof.
  unfold unlink. induction es as [|[c' n] es IH]; [reflexivity|].
  cbn [filter fst]. destruct (negb (String.eqb c c')) eqn:E.
  - cbn [filter fst]. rewrite E. now rewrite IH.
  - exact IH.
Qed.

Lemma unlink_bind_same (c : string) (n : node) (es : list (string * node)) :
  unlink c (bind_entry c n es) = unlink c es.
Proof.
  unfold bind_entry. unfold unlink at 1. cbn [filter fst].
  rewrite String.eqb_refl. cbn [negb]. apply unlink_unlink.
Qed.

Lemma bind_bind_same (c : string) (n n' : node) (es : list (string * node)) :
  bind_entry c n (bind_entry c n' es) = bind_entry c n es.
Proof. unfold bind_entry at 1. now rewrite unlink_bind_same. Qed.

(** A path can be altered only inside an existing directory. *)
Lemma alter_needs_parent (f : option node -> option (option node)) (p : path) :
  forall r r', alter f r p = Some r' ->
    is_dir_node (get r (removelast p)) = true.
Proof.
  induction p as [|c p IH]; intros r r' H; [discriminate|].
  cbn [alter] in H. destruct r as [d | es]; [discriminate|].
  destruct p as [|c2 q]; [reflexivity|].
  destruct (assoc c es) as [child|] eqn:A; [|discriminate].
  destruct (alter f child (c2 :: q)) as [child'|] eqn:R; [|discriminate].
  change (removelast (c :: c2 :: q)) with (c :: removelast (c2 :: q)).
  cbn [get]. rewrite A. eapply IH; exact R.
Qed.

(** [makedirs] of a path that was absent ends with an empty directory
    there. *)
Lemma makedirs_makes_empty (todo : path) :
  forall r r' cur,
    todo <> [] ->
    makedirs_from r cur todo = Some r' ->
    get r (cur ++ todo) = None ->
    get r' (cur ++ todo) = Some (Dir []).
Proof.
  induction todo as [|c todo IH]; intros r r' cur Hne H G; [contradiction|].
  cbn [makedirs_from] in H.
  destruct (alter mkdir_at r (cur ++ [c])) as [r1|] eqn:A; [|discriminate].
  destruct todo as [|c2 todo].
  - injection H as <-.
    destruct (get_alter_same _ _ _ A) as [o [Ho Hg]]. rewrite Hg.
    rewrite G in Ho. cbn [mkdir_at] in Ho. now injection Ho as <-.
  - replace (cur ++ c :: c2 :: todo) with ((cur ++ [c]) ++ c2 :: todo) in *
      by (now rewrite <- app_assoc).
    eapply IH; [discriminate | exact H |].
    eapply mkdir_keeps_absent; [exact A | exact G |].
    intros E. apply (f_equal (@List.length string)) in E.
    rewrite !length_app in E. cbn [List.length] in E. lia.
Qed.

Lemma get_cons (c : string) (q : path) (r : node) :
  get r (c :: q) =
  match get r [c] with
  | Some n => get n q
  | None => None
  end.
Proof. apply (get_app [c] q r). Qed.

Section WorkingDirectory.

Variable B : backend.

(** A [tar_build] that returns found the archive's name free of a
    directory. *)
Lemma tar_build_ok_name (folder : path) (t : string) (w : world) :
  fst (tar_build B folder [t] w) = Ok tt ->
  is_dir_node (get (root w) [t]) = false.
Proof.
  unfold tar_build. run print_run. run write_bytes_run. rewrite root_noted.
  destruct (alter (write_at []) (root w) [t]) as [r1|] eqn:W1;
    [|discriminate].
  intros _. eapply written_was_no_dir; exact W1.
Qed.

(** [tar_build] of a directory, the working directory included: the
    archive holds what [tar.add] saw, and only the archive's entry
    changes. *)
Lemma tar_build_run (folder : path) (t : string) (w : world) :
  is_dir_node (get (root w) folder) = true ->
  is_dir_node (get (root w) [t]) = false ->
  exists es0 tree w',
    root w = Dir es0
    /\ seen_without t (root w) folder = Some tree
    /\ (folder <> [] -> get (root w) folder = Some tree)
    /\ tar_build B folder [t] w = (Ok tt, w')
    /\ root w' =
         Dir (bind_entry t (File (tar_add B (basename folder) tree)) es0).
Proof.
  intros Hd Ht.
  destruct (root w) as [d0 | es0] eqn:Er.
  { destruct folder; cbn in Hd; discriminate. }
  assert (exists tree, get (Dir (unlink t es0)) folder = Some tree
                       /\ (folder <> [] -> get (Dir es0) folder = Some tree))
    as [tree [S N]].
  { destruct folder as [|c rest].
    - eexists. split; [reflexivity | intros H; contradiction].
    - destruct (get (Dir es0) (c :: rest)) as [n|] eqn:G; [|discriminate].
      exists n. split; [|reflexivity].
      assert (c <> t) as Nc.
      { intros ->. destruct n as [d | es]; [discriminate|].
        rewrite (get_through_dir _ _ _ G) in Ht. discriminate. }
      rewrite <- G. cbn [get]. now rewrite assoc_unlink_other by exact Nc. }
  exists es0, tree.
  unfold tar_build. rewrite bind_run, print_run. cbv beta iota.
  rewrite bind_run, write_bytes_run, root_noted, Er.
  rewrite (write_top_succeeds [] t es0 Ht). cbv beta iota.
  rewrite bind_run, log_op_run. cbv beta iota.
  rewrite bind_run, get_root_run. cbv beta iota.
  rewrite root_logged, root_with_root.
  assert (alter remove_at (Dir (bind_entry t (File []) es0)) [t]
          = Some (Dir (unlink t es0))) as W0.
  { cbn [alter]. rewrite assoc_bind_same. cbn [remove_at].
    now rewrite unlink_bind_same. }
  rewrite W0, S. rewrite write_bytes_run, root_logged, root_with_root.
  assert (is_dir_node (get (Dir (bind_entry t (File []) es0)) [t]) = false)
    as D1 by (cbn [get]; now rewrite assoc_bind_same).
  rewrite (write_top_succeeds _ t _ D1). rewrite bind_bind_same.
  eexists. split; [reflexivity|]. split; [exact S|]. split; [exact N|].
  split; reflexivity.
Qed.

End WorkingDirectory.

(** ** Round trips *)

Lemma cleanup_root (p : path) (w : world) :
  fst (cleanup p w) = Ok tt ->
  root (snd (cleanup p w)) = root w
  \/ alter remove_at (root w) p = Some (root (snd (cleanup p w))).
Proof.
  unfold cleanup. rewrite bind_run, path_exists_run.
  destruct (get (root w) p) as [n|].
  - intros R. right. apply (os_remove_spec _ _ R).
  - intros _. left. reflexivity.
Qed.

Lemma ok_run (A : Type) (m : M A) (w w1 : world) (a : A) :
  m w = (Ok a, w1) -> fst (m w) = Ok a /\ snd (m w) = w1.
Proof. intros ->. split; reflexivity. Qed.

Section RoundTrip.

Variable B : backend.

(** Compressing a regular file leaves its encoding in the target. *)
Lemma compress_file_result (a : args) (w : world) (data : bytes) :
  compress a = true -> extract a = false ->
  get (root w) (source a) = Some (File data) ->
  fst (main B a w) = Ok tt ->
  get (root (snd (main B a w))) (target a) =
    Some (File (encode B (suffix (target a)) data)).
Proof.
  intros Hc Hx G R. destruct (main_ok_ext B a w R) as [_ E].
  unfold artifact_ext in E. rewrite Hc in E.
  rewrite (main_compress_run B a w Hc Hx E) in *.
  set (w0 := logged w [OpStat (source a)]) in *.
  destruct (then_bench (compress_branch B a
                          (is_dir_node (get (root w) (source a)))) a w0)
    as [R1 R2].
  rewrite R1 in R. rewrite R2. clear R1 R2.
  rewrite G in *. cbn [is_dir_node] in *. unfold compress_branch in *.
  rewrite bind_run in *. unfold ret at 1 in R. unfold ret at 1.
  cbv beta iota in *.
  pose proof (compress_pass_spec B (suffix (target a)) (source a) (target a)
                (progress a) w0 G) as S. cbv zeta in S.
  change (root w0) with (root w) in S.
  rewrite bind_run in *.
  destruct (alter (write_at (encode B (suffix (target a)) data)) (root w)
              (target a)) as [r'|] eqn:W.
  - destruct S as [S1 S2].
    destruct (compress_pass B (suffix (target a)) (source a) (target a)
                (progress a) w0) as [[[]|x] w1]; [|discriminate].
    cbn [snd fst ret] in *. subst r'. eapply get_written; eassumption.
  - destruct S as [S1 _].
    destruct (compress_pass B (suffix (target a)) (source a) (target a)
                (progress a) w0) as [[[]|x] w1]; cbn [fst] in *; discriminate.
Qed.

(** Compressing a directory requires a bundle-shaped target and leaves the
    encoding of the directory's archive in it. *)
Lemma compress_dir_result (a : args) (w : world) (es : list (string * node)) :
  compress a = true -> extract a = false ->
  get (root w) (source a) = Some (Dir es) ->
  source a <> [] ->
  fst (main B a w) = Ok tt ->
  is_tar_name (target a) = true
  /\ get (root (snd (main B a w))) (target a) =
       Some (File (encode B (suffix (target a))
                     (tar_add B (basename (source a)) (Dir es)))).
Proof.
  intros Hc Hx G Hne R. destruct (main_ok_ext B a w R) as [_ E].
  unfold artifact_ext in E. rewrite Hc in E.
  rewrite (main_compress_run B a w Hc Hx E) in *.
  set (w0 := logged w [OpStat (source a)]) in *.
  destruct (then_bench (compress_branch B a
                          (is_dir_node (get (root w) (source a)))) a w0)
    as [R1 R2].
  rewrite R1 in R. rewrite R2. clear R1 R2.
  rewrite G in *. cbn [is_dir_node] in *. unfold compress_branch in *.
  destruct (is_tar_name (target a)) eqn:T; cbn [negb] in *.
  2:{ rewrite !bind_run, print_run in R. discriminate. }
  split; [reflexivity|].
  fold (cleanup tmp_data_tar) in *.
  destruct (bind_ok _ _ _ R) as [input [w1 [K0 K1]]]. rewrite K1 in *.
  clear K1. rewrite bind_run in K0.
  assert (get (root w0) (source a) = Some (Dir es)) as G0 by exact G.
  pose proof (tar_build_spec B w0 G0 Hne) as TB.
  destruct (tar_build B (source a) tmp_data_tar w0) as [[[]|x] w1'];
    [|discriminate].
  injection K0 as <- <-. specialize (TB eq_refl). cbn [snd] in TB.
  set (tardata := tar_add B (basename (source a)) (Dir es)) in *.
  destruct (bind_ok _ _ _ R) as [[] [w2 [K2 K3]]]. rewrite K3 in *. clear K3.
  pose proof (compress_pass_spec B (suffix (target a)) tmp_data_tar
                (target a) (progress a) w1' TB) as S. cbv zeta in S.
  rewrite K2 in S. cbn [fst snd] in S.
  destruct (alter (write_at (encode B (suffix (target a)) tardata))
              (root w1') (target a)) as [r3|] eqn:W3;
    [|destruct S; discriminate].
  destruct S as [_ S].
  pose proof (get_written _ _ _ W3) as G3. rewrite <- S in G3.
  destruct (cleanup_root tmp_data_tar w2 R) as [C | C].
  - rewrite C. exact G3.
  - rewrite <- G3. destruct (target a) as [|c q] eqn:Et; [discriminate|].
    eapply get_alter_other_head; [exact C|].
    intros ->. destruct q as [|c2 q].
    + rewrite <- Et in E. rewrite Et in E. vm_compute in E. discriminate.
    + pose proof (alter_deep_needs_dir _ _ _ _ _ W3) as D.
      unfold tmp_data_tar in TB. rewrite TB in D. discriminate.
Qed.

(** Extracting an archive that is not named like a bundle leaves the
    decoded bytes in the target. *)
Lemma extract_file_result (a : args) (w : world) (cdata plain : bytes) :
  compress a = false -> extract a = true ->
  is_tar_name (source a) = false ->
  get (root w) (source a) = Some (File cdata) ->
  decode B (suffix (source a)) cdata = Some plain ->
  fst (main B a w) = Ok tt ->
  get (root (snd (main B a w))) (target a) = Some (File plain).
Proof.
  intros Hc Hx T G D R. destruct (main_ok_ext B a w R) as [_ E].
  unfold artifact_ext in E. rewrite Hc in E.
  rewrite (main_extract_run B a w Hc Hx E) in *.
  set (w0 := logged w [OpStat (source a)]) in *.
  destruct (then_bench (extract_branch B a) a w0) as [R1 R2].
  rewrite R1 in R. rewrite R2. clear R1 R2.
  unfold extract_branch in *. rewrite T in *.
  pose proof (decompress_pass_spec B (suffix (source a)) (source a)
                (target a) (progress a) w0 G) as P.
  cbv zeta in P. rewrite D in P. destruct P as [_ P].
  change (root w0) with (root w) in P.
  destruct (alter (write_at plain) (root w) (target a)) as [r'|] eqn:W.
  - destruct P as [_ P]. rewrite P. eapply get_written; eassumption.
  - destruct P as [P _]. congruence.
Qed.

Hypothesis tar_ok : tar_lossless B.

(** Extracting an archive named like a bundle puts the bundled tree under
    its name in the destination directory, if nothing was there. *)
Lemma extract_bundle_result (a : args) (w : world) (cdata : bytes)
  (arcname : string) (tree : node) :
  compress a = false -> extract a = true ->
  is_tar_name (source a) = true ->
  get (root w) (source a) = Some (File cdata) ->
  decode B (suffix (source a)) cdata = Some (tar_add B arcname tree) ->
  arcname <> "." ->
  get (root w) (target a ++ [arcname]) = None ->
  target a ++ [arcname] <> tmp_unpack_tar ->
  fst (main B a w) = Ok tt ->
  get (root (snd (main B a w))) (target a ++ [arcname]) = Some tree.
Proof.
  intros Hc Hx T G D Ndot Fresh Ntmp R. destruct (main_ok_ext B a w R) as [_ E].
  unfold artifact_ext in E. rewrite Hc in E.
  rewrite (main_extract_run B a w Hc Hx E) in *.
  set (w0 := logged w [OpStat (source a)]) in *.
  destruct (then_bench (extract_branch B a) a w0) as [R1 R2].
  rewrite R1 in R. rewrite R2. clear R1 R2.
  unfold extract_branch in *. rewrite T in *.
  set (tardata := tar_add B arcname tree) in *.
  (* the decompression into the transient file *)
  destruct (bind_ok _ _ _ R) as [[] [w1 [K0 K1]]]. rewrite K1 in *. clear K1.
  pose proof (decompress_pass_spec B (suffix (source a)) (source a)
                tmp_unpack_tar (progress a) w0 G) as P.
  cbv zeta in P. rewrite D, K0 in P. cbn [fst snd] in P.
  destruct P as [_ P]. change (root w0) with (root w) in P.
  destruct (alter (write_at tardata) (root w) tmp_unpack_tar) as [r5|] eqn:W5;
    [|destruct P; discriminate].
  destruct P as [_ P]. subst r5.
  pose proof (get_written _ _ _ W5) as G5.
  (* the unbundling *)
  destruct (bind_ok _ _ _ R) as [[] [w2 [K2 K3]]]. rewrite K3 in *. clear K3.
  destruct (ok_run _ _ K2) as [F2 S2]. unfold tmp_unpack_tar in *.
  destruct (tar_unpack_spec B "tmp_unpack.tar" (target a) w1 G5 F2)
    as [r6 [before [after [Mk [Gb [X [Ga Other]]]]]]].
  rewrite S2 in Ga, Other.
  (* the removal of the transient file *)
  pose proof (os_remove_spec _ _ R) as Rm.
  (* the path of the extracted tree does not start with the transient name *)
  assert (exists c q, target a ++ [arcname] = c :: q
                      /\ c <> "tmp_unpack.tar" /\ c = hd c (target a ++ [arcname]))
    as [c [q [Eq [Nc _]]]].
  { destruct (target a) as [|c0 out'] eqn:Et.
    - exists arcname, []. repeat split. intros ->. apply Ntmp. reflexivity.
    - exists c0, (out' ++ [arcname]). repeat split. intros ->.
      pose proof (makedirs_not_through_file _ _ _ Mk) as NF.
      rewrite G5 in NF. discriminate. }
  (* nothing was at that path before the extraction *)
  assert (get before [arcname] = None) as Fb.
  { assert (get r6 (target a ++ [arcname]) = None) as F6.
    { eapply makedirs_keeps_absent; [exact Mk | |].
      - rewrite Eq. rewrite <- Fresh, Eq.
        eapply get_alter_other_head; eassumption.
      - rewrite !length_app. cbn [List.length]. lia. }
    rewrite get_app, Gb in F6. exact F6. }
  assert (get after [arcname] = Some tree) as Ta.
  { unfold tardata in X. eapply (proj1 tar_ok); [exact Ndot | exact Fb | exact X]. }
  rewrite Eq.
  erewrite get_alter_other_head; [| exact Rm | exact Nc].
  rewrite <- Eq, get_app, Ga. exact Ta.
Qed.

End RoundTrip.

Section RoundTripMore.

Variable B : backend.

(** Compressing a directory, the working directory included, requires a
    bundle-shaped target and leaves in it the encoding of the archive of
    what [tar.add] saw. *)
Lemma compress_dir_result_seen (a : args) (w : world) :
  compress a = true -> extract a = false ->
  is_dir_node (get (root w) (source a)) = true ->
  fst (main B a w) = Ok tt ->
  exists tree,
    seen_without "tmp_data.tar" (root w) (source a) = Some tree
    /\ is_tar_name (target a) = true
    /\ get (root (snd (main B a w))) (target a) =
         Some (File (encode B (suffix (target a))
                       (tar_add B (basename (source a)) tree))).
Proof.
  intros Hc Hx Hd R. destruct (main_ok_ext B a w R) as [_ E].
  unfold artifact_ext in E. rewrite Hc in E.
  rewrite (main_compress_run B a w Hc Hx E) in *.
  set (w0 := logged w [OpStat (source a)]) in *.
  destruct (then_bench (compress_branch B a
                          (is_dir_node (get (root w) (source a)))) a w0)
    as [R1 R2].
  rewrite R1 in R. rewrite R2. clear R1 R2.
  rewrite Hd in *. unfold compress_branch in *.
  destruct (is_tar_name (target a)) eqn:T; cbn [negb] in *.
  2:{ rewrite !bind_run, print_run in R. discriminate. }
  fold (cleanup tmp_data_tar) in *.
  destruct (bind_ok _ _ _ R) as [input [w1 [K0 K1]]]. rewrite K1 in *.
  clear K1. rewrite bind_run in K0. unfold tmp_data_tar in K0.
  destruct (tar_build B (source a) ["tmp_data.tar"] w0) as [[[]|x] w1']
    eqn:TBe; [|discriminate].
  injection K0 as <- <-.
  assert (is_dir_node (get (root w0) ["tmp_data.tar"]) = false) as Nt.
  { apply (tar_build_ok_name B (source a) "tmp_data.tar" w0).
    now rewrite TBe. }
  assert (is_dir_node (get (root w0) (source a)) = true) as Hd0 by exact Hd.
  destruct (@tar_build_run B (source a) "tmp_data.tar" w0 Hd0 Nt)
    as [es0 [tree [w' [Er [S [_ [TB Rw]]]]]]].
  rewrite TBe in TB. injection TB as <-.
  exists tree. split; [exact S|]. split; [reflexivity|].
  set (tardata := tar_add B (basename (source a)) tree) in *.
  assert (get (root w1') tmp_data_tar = Some (File tardata)) as TBf.
  { rewrite Rw. unfold tmp_data_tar. cbn [get]. now rewrite assoc_bind_same. }
  destruct (bind_ok _ _ _ R) as [[] [w2 [K2 K3]]]. rewrite K3 in *. clear K3.
  pose proof (compress_pass_spec B (suffix (target a)) tmp_data_tar
                (target a) (progress a) w1' TBf) as P. cbv zeta in P.
  unfold tmp_data_tar in P. rewrite K2 in P. cbn [fst snd] in P.
  destruct (alter (write_at (encode B (suffix (target a)) tardata))
              (root w1') (target a)) as [r3|] eqn:W3;
    [|destruct P; discriminate].
  destruct P as [_ P].
  pose proof (get_written _ _ _ W3) as G3. rewrite <- P in G3.
  destruct (cleanup_root tmp_data_tar w2 R) as [C | C].
  - rewrite C. exact G3.
  - rewrite <- G3. destruct (target a) as [|c q] eqn:Et; [discriminate|].
    eapply get_alter_other_head; [exact C|].
    intros ->. destruct q as [|c2 q].
    + vm_compute in E. discriminate.
    + pose proof (alter_deep_needs_dir _ _ _ _ _ W3) as D.
      unfold tmp_data_tar in TBf. rewrite TBf in D. discriminate.
Qed.

(** The steps of a bundled extraction that returns normally: the
    decompressed bytes go to the transient file, the destination is
    created, the tar library accepts the bytes, the result takes the
    destination's place and the transient file is removed. *)
Lemma bundled_extract_steps (a : args) (w : world) (cdata plain : bytes) :
  compress a = false -> extract a = true ->
  is_tar_name (source a) = true ->
  get (root w) (source a) = Some (File cdata) ->
  decode B (suffix (source a)) cdata = Some plain ->
  fst (main B a w) = Ok tt ->
  exists r5 r6 r7 before after,
    alter (write_at plain) (root w) tmp_unpack_tar = Some r5
    /\ makedirs_from r5 [] (target a) = Some r6
    /\ get r6 (target a) = Some before
    /\ tar_extractall B plain before = Some after
    /\ get r7 (target a) = Some after
    /\ (forall c q, c <> hd c (target a) -> get r7 (c :: q) = get r6 (c :: q))
    /\ alter remove_at r7 tmp_unpack_tar = Some (root (snd (main B a w))).
Proof.
  intros Hc Hx T G D R. destruct (main_ok_ext B a w R) as [_ E].
  unfold artifact_ext in E. rewrite Hc in E.
  rewrite (main_extract_run B a w Hc Hx E) in *.
  set (w0 := logged w [OpStat (source a)]) in *.
  destruct (then_bench (extract_branch B a) a w0) as [R1 R2].
  rewrite R1 in R. rewrite R2. clear R1 R2.
  unfold extract_branch in *. rewrite T in *.
  destruct (bind_ok _ _ _ R) as [[] [w1 [K0 K1]]]. rewrite K1 in *. clear K1.
  pose proof (decompress_pass_spec B (suffix (source a)) (source a)
                tmp_unpack_tar (progress a) w0 G) as P.
  cbv zeta in P. rewrite D, K0 in P. cbn [fst snd] in P.
  destruct P as [_ P]. change (root w0) with (root w) in P.
  destruct (alter (write_at plain) (root w) tmp_unpack_tar) as [r5|] eqn:W5;
    [|destruct P; discriminate].
  destruct P as [_ P]. subst r5.
  pose proof (get_written _ _ _ W5) as G5.
  destruct (bind_ok _ _ _ R) as [[] [w2 [K2 K3]]]. rewrite K3 in *. clear K3.
  destruct (ok_run _ _ K2) as [F2 S2]. unfold tmp_unpack_tar in *.
  destruct (tar_unpack_spec B "tmp_unpack.tar" (target a) w1 G5 F2)
    as [r6 [before [after [Mk [Gb [X [Ga Other]]]]]]].
  rewrite S2 in Ga, Other.
  pose proof (os_remove_spec _ _ R) as Rm.
  exists (root w1), r6, (root w2), before, after.
  repeat split; assumption.
Qed.

(** Extracting the archive of a working directory into a destination
    that did not exist makes the destination a directory with the same
    entries. *)
Lemma extract_cwd_result (tar_ok : tar_lossless B) (a : args) (w : world)
  (cdata : bytes) (es : list (string * node)) :
  compress a = false -> extract a = true ->
  is_tar_name (source a) = true ->
  get (root w) (source a) = Some (File cdata) ->
  decode B (suffix (source a)) cdata = Some (tar_add B "." (Dir es)) ->
  get (root w) (target a) = None ->
  fst (main B a w) = Ok tt ->
  is_dir_node (get (root (snd (main B a w))) (target a)) = true
  /\ forall c q,
       get (root (snd (main B a w))) (target a ++ c :: q) =
       get (Dir es) (c :: q).
Proof.
  intros Hc Hx T G D Fresh R.
  destruct (bundled_extract_steps a w Hc Hx T G D R)
    as [r5 [r6 [r7 [before [after [W5 [Mk [Gb [X [Ga [Other Rm]]]]]]]]]]].
  destruct (target a) as [|c0 out'] eqn:Et; [discriminate|].
  pose proof (get_written _ _ _ W5) as G5. unfold tmp_unpack_tar in *.
  assert (c0 <> "tmp_unpack.tar") as Nc.
  { intros ->. pose proof (makedirs_not_through_file _ _ _ Mk) as NF.
    rewrite G5 in NF. discriminate. }
  assert (get r5 (c0 :: out') = None) as F5.
  { rewrite <- Fresh. eapply get_alter_other_head; eassumption. }
  assert (before = Dir []) as ->.
  { pose proof (@makedirs_makes_empty (c0 :: out') r5 r6 []) as Me.
    cbn [app] in Me. rewrite Me in Gb; [congruence | discriminate | exact Mk
                                        | exact F5]. }
  destruct (proj2 tar_ok es after X) as [Da Ea].
  assert (forall p, get (root (snd (main B a w))) (c0 :: p) = get r7 (c0 :: p))
    as Keep.
  { intros p. eapply get_alter_other_head; [exact Rm | exact Nc]. }
  split.
  - rewrite Keep, Ga. exact Da.
  - intros c q. cbn [app]. rewrite Keep.
    change (c0 :: out' ++ c :: q) with ((c0 :: out') ++ c :: q).
    rewrite get_app, Ga. rewrite get_cons, Ea, <- get_cons. reflexivity.
Qed.

(** A bundled extraction writes no file but the transient one. *)
Lemma bundled_extract_writes (a : args) :
  is_tar_name (source a) = true ->
  appends (writes_only tmp_unpack_tar)
          (extract_branch B a ;; bench_block a).
Proof.
  intros T. unfold extract_branch. rewrite T.
  unfold decompress_pass, zstd_decompress, bz2_decompress, tar_unpack,
    os_makedirs, os_remove, read_bytes, write_bytes, bench_block, calc_size,
    path_is_file, path_is_dir, path_file_size, path_rglob, print, set_root,
    get_root, emit.
  logs.
Qed.

End RoundTripMore.



(** The working directory itself, compressed to [all.tar.zst] and
    extracted to [out], is found again under [out]. *)
Example roundtrip_working_directory :
  let w1 := snd (main Toy.libs
                   (mkArgs true false [] ["all.tar.zst"] false false)
                   sample_world) in
  let w2 := snd (main Toy.libs
                   (mkArgs false true ["all.tar.zst"] ["out"] false false)
                   w1) in
  fst (main Toy.libs (mkArgs true false [] ["all.tar.zst"] false false)
         sample_world) = Ok tt
  /\ fst (main Toy.libs
            (mkArgs false true ["all.tar.zst"] ["out"] false false) w1)
     = Ok tt
  /\ get (root w2) ["out"; "f.txt"] = Some (File hello)
  /\ get (root w2) ["out"; "proj"] = get sample_root ["proj"].
Proof. repeat split. Qed.


(** ** Round trips that complete *)

Section Completion.

Variable B : backend.
Hypothesis zstd_ok : zstd_lossless B.
Hypothesis bz2_ok : bz2_lossless B.

(** For a regular file both runs do return normally as soon as the two
    writes are possible: the archive into the target, the recovered bytes
    into the output path. *)
Lemma roundtrip_file_completes (src dst out : path) (b1 p1 b2 p2 : bool)
  (w0 : world) (data : bytes) (r1 r2 : node) :
  let c := mkArgs true false src dst b1 p1 in
  let x := mkArgs false true dst out b2 p2 in
  get (root w0) src = Some (File data) ->
  is_codec_ext (suffix dst) = true ->
  is_tar_name dst = false ->
  alter (write_at (encode B (suffix dst) data)) (root w0) dst = Some r1 ->
  alter (write_at data) r1 out = Some r2 ->
  fst (main B c w0) = Ok tt
  /\ fst (main B x (snd (main B c w0))) = Ok tt
  /\ root (snd (main B x (snd (main B c w0)))) = r2.
Proof.
  intros c x G E T W1 W2.
  (* the compress run *)
  assert (fst (main B c w0) = Ok tt /\ root (snd (main B c w0)) = r1)
    as [R1 S1].
  { rewrite (main_compress_run B c w0 eq_refl eq_refl E).
    set (w := logged w0 [OpStat (source c)]).
    destruct (then_bench (compress_branch B c
                            (is_dir_node (get (root w0) (source c)))) c w)
      as [F S].
    rewrite F, S. clear F S. cbn [source c]. rewrite G.
    cbn [is_dir_node].
    change (compress_branch B c false w)
      with ((compress_pass B (suffix dst) src dst p1 ;; ret tt) w).
    pose proof (compress_pass_spec B (suffix dst) src dst p1 w G) as P.
    cbv zeta in P. change (root w) with (root w0) in P. rewrite W1 in P.
    rewrite bind_run.
    destruct (compress_pass B (suffix dst) src dst p1 w) as [[[]|e] w'];
      cbn [fst snd] in *; destruct P as [P1 P2]; [|discriminate].
    split; [reflexivity | exact P2]. }
  split; [exact R1|].
  (* the extract run *)
  set (w1 := snd (main B c w0)) in *.
  assert (get (root w1) dst = Some (File (encode B (suffix dst) data))) as G1.
  { rewrite S1. eapply get_written; eassumption. }
  rewrite (main_extract_run B x w1 eq_refl eq_refl E).
  set (w := logged w1 [OpStat (source x)]).
  destruct (then_bench (extract_branch B x) x w) as [F S].
  rewrite F, S. clear F S. unfold extract_branch.
  cbn [source target progress x]. rewrite T.
  pose proof (decompress_pass_spec B (suffix dst) dst out p2 w G1) as P.
  cbv zeta in P. rewrite (decode_encode zstd_ok bz2_ok) in P.
  change (root w) with (root w1) in P. rewrite S1, W2 in P.
  destruct P as [_ P]. exact P.
Qed.

End Completion.

(** ** The scenarios of the specification, on the toy backend *)

(** Scenario A: a 10-byte [f.txt] compressed to [f.zst] and decompressed
    back gives the 10 bytes. *)
Example scenario_a :
  let w0 := mkWorld (Dir [("f.txt", File ten_bytes)]) [] [] [] in
  let w1 := snd (main Toy.libs
                   (mkArgs true false ["f.txt"] ["f.zst"] false false) w0) in
  let w2 := snd (main Toy.libs
                   (mkArgs false true ["f.zst"] ["back.txt"] false false) w1) in
  get (root w2) ["back.txt"] = Some (File ten_bytes).
Proof. reflexivity. Qed.

(** Scenario B: the directory [proj] compressed to [proj.tar.bz2] and
    extracted to [out] gives [out/proj/a.txt] and [out/proj/b/c.txt] as
    they were, and no transient archive stays behind. *)
Example scenario_b :
  let w1 := snd (main Toy.libs
                   (mkArgs true false ["proj"] ["proj.tar.bz2"] false false)
                   sample_world) in
  let w2 := snd (main Toy.libs
                   (mkArgs false true ["proj.tar.bz2"] ["out"] false false)
                   w1) in
  get (root w2) ["out"; "proj"; "a.txt"] = get sample_root ["proj"; "a.txt"]
  /\ get (root w2) ["out"; "proj"; "b"; "c.txt"] =
       get sample_root ["proj"; "b"; "c.txt"]
  /\ get (root w2) tmp_data_tar = None
  /\ get (root w2) tmp_unpack_tar = None.
Proof. repeat split. Qed.

(* ===================================================================== *)
(** * The transient archives                                             *)
(* ===================================================================== *)

Section Unreadable.

Variable B : backend.

(** A pass whose source is no regular file fails at the read. *)
Lemma compress_pass_unreadable (ext : string) (src dst : path) (sp : bool)
  (w : world) :
  is_file_node (get (root w) src) = false ->
  compress_pass B ext src dst sp w =
    (Abort (Uncaught (OSError src)), logged w [OpRead src]).
Proof.
  intros F. unfold compress_pass, zstd_compress, bz2_compress.
  destruct (String.eqb ext ".zst"); rewrite bind_run, read_bytes_run;
    destruct (get (root w) src) as [[d | es]|]; try discriminate;
    reflexivity.
Qed.

Lemma decompress_pass_unreadable (ext : string) (src dst : path) (sp : bool)
  (w : world) :
  is_file_node (get (root w) src) = false ->
  decompress_pass B ext src dst sp w =
    (Abort (Uncaught (OSError src)), logged w [OpRead src]).
Proof.
  intros F. unfold decompress_pass, zstd_decompress, bz2_decompress.
  destruct (String.eqb ext ".zst"); rewrite bind_run, read_bytes_run;
    destruct (get (root w) src) as [[d | es]|]; try discriminate;
    reflexivity.
Qed.

End Unreadable.

Section Transients.

Variable B : backend.

(** A codec pass that fails has changed nothing on disk. *)
Lemma compress_pass_failure_root (ext : string) (src dst : path) (sp : bool)
  (w : world) :
  fst (compress_pass B ext src dst sp w) <> Ok tt ->
  root (snd (compress_pass B ext src dst sp w)) = root w.
Proof.
  intros F. destruct (is_file_node (get (root w) src)) eqn:Is.
  - destruct (get (root w) src) as [[data | es]|] eqn:G; try discriminate.
    pose proof (compress_pass_spec B ext src dst sp w G) as P. cbv zeta in P.
    destruct (alter (write_at (encode B ext data)) (root w) dst);
      destruct P as [P1 P2]; [contradiction | exact P2].
  - rewrite (compress_pass_unreadable B ext src dst sp w Is). reflexivity.
Qed.

(** A decompression pass that returns has left a regular file at its
    target. *)
Lemma decompress_pass_leaves_file (ext : string) (src dst : path) (sp : bool)
  (w : world) :
  fst (decompress_pass B ext src dst sp w) = Ok tt ->
  is_file_node (get (root (snd (decompress_pass B ext src dst sp w))) dst)
  = true.
Proof.
  intros F. destruct (is_file_node (get (root w) src)) eqn:Is.
  - destruct (get (root w) src) as [[data | es]|] eqn:G; try discriminate.
    pose proof (decompress_pass_spec B ext src dst sp w G) as P.
    cbv zeta in P. destruct (decode B ext data) as [plain|].
    + destruct P as [_ P].
      destruct (alter (write_at plain) (root w) dst) as [r'|] eqn:W;
        destruct P as [P1 P2]; [|congruence].
      rewrite P2, (get_written _ _ _ W). reflexivity.
    + destruct P as [P1 _]. congruence.
  - rewrite (decompress_pass_unreadable B ext src dst sp w Is) in F.
    discriminate.
Qed.

(** Whatever makes [tar_unpack] fail, it leaves every regular file as it
    was. *)
Lemma tar_unpack_failure_keeps (t dest : path) (w : world) :
  fst (tar_unpack B t dest w) <> Ok tt ->
  forall p d,
    get (root w) p = Some (File d) ->
    get (root (snd (tar_unpack B t dest w))) p = Some (File d).
Proof.
  intros F p d G. revert F. unfold tar_unpack.
  rewrite bind_run, log_op_run. cbv beta iota.
  rewrite bind_run, os_makedirs_run, root_logged.
  destruct (makedirs_from (root w) [] dest) as [r6|] eqn:Mk;
    [|intros _; exact G].
  pose proof (makedirs_keeps_files _ _ _ _ Mk G) as G6.
  cbv beta iota. rewrite bind_run, print_run. cbv beta iota.
  rewrite bind_run, read_bytes_run, root_noted, root_with_root.
  destruct (get r6 t) as [[data | es]|]; try (intros _; exact G6).
  cbv beta iota. rewrite bind_run, get_root_run. cbv beta iota.
  rewrite root_logged, root_noted, root_with_root.
  destruct (get r6 dest) as [before|]; [|intros _; exact G6].
  destruct (tar_extractall B data before) as [after|]; [|intros _; exact G6].
  destruct dest as [|c0 out'].
  - rewrite set_root_run. intros F. exfalso. apply F. reflexivity.
  - destruct (alter (redir_at after) r6 (c0 :: out')) as [r7|];
      [|intros _; exact G6].
    rewrite set_root_run. intros F. exfalso. apply F. reflexivity.
Qed.

(** Compressing a directory: a codec pass that fails after [tar_build]
    ends the run, with [tmp_data.tar] as [tar_build] left it. *)
Lemma data_tar_left (a : args) (w : world) :
  compress a = true -> extract a = false ->
  is_codec_ext (suffix (target a)) = true ->
  is_dir_node (get (root w) (source a)) = true ->
  is_tar_name (target a) = true ->
  let built := data_tar_stage B a w in
  fst built = Ok tt ->
  let pass := compress_pass B (suffix (target a)) tmp_data_tar (target a)
                            (progress a) (snd built) in
  fst pass <> Ok tt ->
  main B a w = pass
  /\ is_file_node (get (root (snd (main B a w))) tmp_data_tar) = true
  /\ get (root (snd (main B a w))) tmp_data_tar =
       get (root (snd built)) tmp_data_tar.
Proof.
  intros Hc Hx E Hd T built Fb pass Fp. subst pass built.
  unfold data_tar_stage in *. set (w0 := logged w [OpStat (source a)]) in *.
  assert (is_file_node
            (get (root (snd (tar_build B (source a) tmp_data_tar w0)))
                 tmp_data_tar) = true) as Ff.
  { assert (is_dir_node (get (root w0) (source a)) = true) as Hd0 by exact Hd.
    pose proof (tar_build_ok_name B (source a) "tmp_data.tar" w0 Fb) as Nt.
    destruct (@tar_build_run B (source a) "tmp_data.tar" w0 Hd0 Nt)
      as [es0 [tree [w' [_ [_ [_ [TB Rw]]]]]]].
    unfold tmp_data_tar. rewrite TB. cbn [snd]. rewrite Rw. cbn [get].
    now rewrite assoc_bind_same. }
  assert (main B a w =
          compress_pass B (suffix (target a)) tmp_data_tar (target a)
            (progress a) (snd (tar_build B (source a) tmp_data_tar w0)))
    as Run.
  { rewrite (main_compress_run B a w Hc Hx E), Hd. fold w0.
    unfold compress_branch. rewrite T. cbn [negb]. rewrite !bind_run.
    destruct (tar_build B (source a) tmp_data_tar w0) as [[[]|x] w1];
      [|discriminate].
    cbn [snd] in *. cbv beta iota.
    change (ret tmp_data_tar w1) with (Ok tmp_data_tar, w1).
    cbv beta iota. rewrite !bind_run.
    destruct (compress_pass B (suffix (target a)) tmp_data_tar (target a)
                (progress a) w1) as [[[]|x] w2];
      [exfalso; apply Fp; reflexivity | reflexivity]. }
  split; [exact Run|]. rewrite Run.
  rewrite (compress_pass_failure_root _ _ _ _ _ Fp).
  split; [exact Ff | reflexivity].
Qed.

(** Extracting a bundle: a [tar_unpack] that fails after the
    decompression ends the run, with [tmp_unpack.tar] as the decompression
    left it. *)
Lemma unpack_tar_left (a : args) (w : world) :
  compress a = false -> extract a = true ->
  is_codec_ext (suffix (source a)) = true ->
  is_tar_name (source a) = true ->
  let written := unpack_tar_stage B a w in
  fst written = Ok tt ->
  let unpack := tar_unpack B tmp_unpack_tar (target a) (snd written) in
  fst unpack <> Ok tt ->
  main B a w = unpack
  /\ is_file_node (get (root (snd (main B a w))) tmp_unpack_tar) = true
  /\ get (root (snd (main B a w))) tmp_unpack_tar =
       get (root (snd written)) tmp_unpack_tar.
Proof.
  intros Hc Hx E T written Fw unpack Fu. subst unpack written.
  unfold unpack_tar_stage in *. set (w0 := logged w [OpStat (source a)]) in *.
  pose proof (decompress_pass_leaves_file _ _ _ _ _ Fw) as Ff.
  assert (main B a w =
          tar_unpack B tmp_unpack_tar (target a)
            (snd (decompress_pass B (suffix (source a)) (source a)
                    tmp_unpack_tar (progress a) w0)))
    as Run.
  { rewrite (main_extract_run B a w Hc Hx E). fold w0.
    unfold extract_branch. rewrite T. rewrite !bind_run.
    destruct (decompress_pass B (suffix (source a)) (source a)
                tmp_unpack_tar (progress a) w0) as [[[]|x] w1];
      [|discriminate].
    cbn [snd] in *. cbv beta iota. rewrite !bind_run.
    destruct (tar_unpack B tmp_unpack_tar (target a) w1) as [[[]|x] w2];
      [exfalso; apply Fu; reflexivity | reflexivity]. }
  split; [exact Run|]. rewrite Run.
  destruct (get (root (snd (decompress_pass B (suffix (source a)) (source a)
                              tmp_unpack_tar (progress a) w0)))
                tmp_unpack_tar) as [[d | es]|] eqn:G; try discriminate.
  rewrite (tar_unpack_failure_keeps _ _ _ Fu _ G). split; reflexivity.
Qed.

End Transients.

(** C2 (amended): an invocation that created a transient archive
    ([tmp_data.tar] when a directory is compressed, [tmp_unpack.tar] when
    a source named [name.tar.<codec>] is extracted) and returns normally
    leaves no file at the archive's path.  When the step that follows the
    creation fails, whatever the cause (the codec pass after [tar_build],
    [tar_unpack] after the decompression), the invocation ends at that
    step with that step's result, and the transient archive is still on
    disk, a regular file as it was created. *)
Theorem transient_cleanup :
  forall (B : backend) (a : args) (w : world),
    (fst (main B a w) = Ok tt ->
     (compress a = true ->
      is_dir_node (get (root w) (source a)) = true ->
      get (root (snd (main B a w))) tmp_data_tar = None)
     /\ (extract a = true ->
         is_tar_name (source a) = true ->
         get (root (snd (main B a w))) tmp_unpack_tar = None))
    /\ (compress a = true -> extract a = false ->
        is_codec_ext (suffix (target a)) = true ->
        is_dir_node (get (root w) (source a)) = true ->
        is_tar_name (target a) = true ->
        let built := data_tar_stage B a w in
        fst built = Ok tt ->
        let pass := compress_pass B (suffix (target a)) tmp_data_tar
                                  (target a) (progress a) (snd built) in
        fst pass <> Ok tt ->
        main B a w = pass
        /\ is_file_node (get (root (snd (main B a w))) tmp_data_tar) = true
        /\ get (root (snd (main B a w))) tmp_data_tar =
             get (root (snd built)) tmp_data_tar)
    /\ (compress a = false -> extract a = true ->
        is_codec_ext (suffix (source a)) = true ->
        is_tar_name (source a) = true ->
        let written := unpack_tar_stage B a w in
        fst written = Ok tt ->
        let unpack := tar_unpack B tmp_unpack_tar (target a) (snd written) in
        fst unpack <> Ok tt ->
        main B a w = unpack
        /\ is_file_node (get (root (snd (main B a w))) tmp_unpack_tar) = true
        /\ get (root (snd (main B a w))) tmp_unpack_tar =
             get (root (snd written)) tmp_unpack_tar).
Proof.
  intros B a w. split; [|split].
  - apply removed_on_success.
  - apply data_tar_left.
  - apply unpack_tar_left.
Qed.

Lemma transient_cleanup_witness :
  (let a := mkArgs true false ["proj"] ["missing"; "p.tar.zst"] false false in
   fst (data_tar_stage Toy.libs a sample_world) = Ok tt
   /\ fst (compress_pass Toy.libs (suffix (target a)) tmp_data_tar (target a)
             (progress a) (snd (data_tar_stage Toy.libs a sample_world)))
      <> Ok tt
   /\ fst (main Toy.libs a sample_world) =
        Abort (Uncaught (OSError ["missing"; "p.tar.zst"]))
   /\ is_file_node (get (root (snd (main Toy.libs a sample_world)))
                        tmp_data_tar) = true)
  /\ (let a := mkArgs false true ["bad.tar.bz2"] ["bad.tar.bz2"; "out"]
                      false false in
      fst (unpack_tar_stage Toy.libs a bad_archive_world) = Ok tt
      /\ fst (tar_unpack Toy.libs tmp_unpack_tar (target a)
                (snd (unpack_tar_stage Toy.libs a bad_archive_world)))
         <> Ok tt
      /\ fst (main Toy.libs a bad_archive_world) =
           Abort (Uncaught (OSError ["bad.tar.bz2"; "out"]))
      /\ is_file_node (get (root (snd (main Toy.libs a bad_archive_world)))
                           tmp_unpack_tar) = true).
Proof.
  split; cbv zeta.
  - destruct (transient_cleanup Toy.libs
                (mkArgs true false ["proj"] ["missing"; "p.tar.zst"]
                        false false) sample_world) as [_ [C _]].
    assert (fst (compress_pass Toy.libs
                   (suffix ["missing"; "p.tar.zst"]) tmp_data_tar
                   ["missing"; "p.tar.zst"] false
                   (snd (data_tar_stage Toy.libs
                           (mkArgs true false ["proj"]
                                   ["missing"; "p.tar.zst"] false false)
                           sample_world))) <> Ok tt) as F
      by (vm_compute; discriminate).
    destruct (C eq_refl eq_refl eq_refl eq_refl eq_refl eq_refl F)
      as [Run [Ff _]].
    split; [reflexivity|]. split; [exact F|]. split; [|exact Ff].
    rewrite Run. vm_compute. reflexivity.
  - destruct (transient_cleanup Toy.libs
                (mkArgs false true ["bad.tar.bz2"] ["bad.tar.bz2"; "out"]
                        false false) bad_archive_world) as [_ [_ C]].
    assert (fst (tar_unpack Toy.libs tmp_unpack_tar ["bad.tar.bz2"; "out"]
                   (snd (unpack_tar_stage Toy.libs
                           (mkArgs false true ["bad.tar.bz2"]
                                   ["bad.tar.bz2"; "out"] false false)
                           bad_archive_world))) <> Ok tt) as F
      by (vm_compute; discriminate).
    destruct (C eq_refl eq_refl eq_refl eq_refl eq_refl F) as [Run [Ff _]].
    split; [reflexivity|]. split; [exact F|]. split; [|exact Ff].
    rewrite Run. vm_compute. reflexivity.
Defined.

(* ===================================================================== *)
(** * Further properties of the program                                  *)
(* ===================================================================== *)

(** ** The progress bar below completion *)

(** X1: for [0 < total <= 2^40] and [0 <= done < total],
    [pacman_progress] writes one line and no newline; its bar is [f] filled
    cells, the Pacman symbol and [29 - f] empty cells, 30 cells in all,
    where [f] is 30 times [done / total] rounded down.  The bound on
    [total] is where the double arithmetic of the code is sure to give this
    [f] (see [filled_cells]); beyond it the code can draw one cell more. *)
Theorem progress_bar_before_completion :
  forall (done total : Z) (label : string) (w : world),
    0 < total <= 2 ^ 40 ->
    0 <= done < total ->
    let f := filled_cells done total in
    let bar := py_repeat full_block f ++ [pac] ++ py_repeat light_shade (29 - f) in
    stdout (snd (pacman_progress done total label w)) =
      stdout w ++ [Redraw label bar done total]
    /\ len bar = 30
    /\ 0 <= f <= 29
    /\ total * f <= 30 * done < total * (f + 1).
Proof.
  intros done total label w [Ht _] Hd f bar.
  destruct (filled_cells_range (done := done) Ht) as [R [E _]]; [lia|].
  fold f in R, E.
  assert (f <> width) as Hf by (intros F; apply E in F; lia).
  unfold width in *.
  assert (render_bar f = bar) as Hb.
  { unfold render_bar, bar, width.
    replace (30 - f >? 0) with true by (symmetry; apply Z.gtb_lt; lia).
    replace (30 - f - 1) with (29 - f) by lia. reflexivity. }
  split; [|split; [|split]].
  - rewrite pacman_progress_run. unfold progress_events.
    replace (total =? 0) with false by (symmetry; apply Z.eqb_neq; lia).
    replace (done >=? total) with false
      by (symmetry; rewrite Z.geb_leb; apply Z.leb_gt; lia).
    fold f. rewrite Hb. reflexivity.
  - unfold bar. rewrite !len_app, !len_py_repeat.
    change (len [pac]) with 1. lia.
  - lia.
  - subst f. unfold filled_cells, width.
    rewrite Z.quot_div_nonneg by lia. split.
    + apply Z.mul_div_le. lia.
    + replace (30 * done / total + 1) with (Z.succ (30 * done / total)) by lia.
      apply Z.mul_succ_div_gt. lia.
Qed.

Lemma progress_bar_before_completion_witness :
  0 < 4 <= 2 ^ 40 /\ 0 <= 1 < 4
  /\ stdout (snd (pacman_progress 1 4 "x" sample_world)) =
       [Redraw "x" (py_repeat full_block 7 ++ [pac] ++ py_repeat light_shade 22)
               1 4].
Proof.
  assert (0 < 4 <= 2 ^ 40) as Ht
    by (split; [lia | apply Z.leb_le; reflexivity]).
  split; [exact Ht|]. split; [lia|].
  destruct (progress_bar_before_completion "x" sample_world
              (done := 1) (total := 4)) as [S _]; [exact Ht | lia |].
  exact S.
Defined.

(** ** The decompression passes *)

Lemma loop_reports_firstn (label : string) (data : bytes) (m : nat) :
  loop_reports label data (firstn m (offsets data)) =
  firstn m (spec_reports label data).
Proof.
  rewrite <- loop_reports_spec. unfold loop_reports.
  now rewrite firstn_map.
Qed.

Lemma when_shown_nil (A : Type) (sp : bool) : when_shown sp (@nil A) = [].
Proof. destruct sp; reflexivity. Qed.

Section DecompressionShape.

Variable B : backend.

(** X2: [zstd_decompress] feeds one decompressor object the 262144-byte
    chunks of the input in order.  If every chunk is accepted, a report
    follows each chunk (when progress is on) and the concatenated output is
    what the target receives; the only failure left is the write itself,
    which changes nothing.  If a chunk is rejected, the pass raises the
    codec error at that chunk: exactly the chunks accepted before it were
    reported and the file system is unchanged. *)
Theorem zstd_decompress_shape :
  forall (src dst : path) (sp : bool) (w : world) (data : bytes),
    get (root w) src = Some (File data) ->
    let run := zstd_decompress B src dst sp w in
    (forall plain,
        stream_decompress B (chunks chunk_size data) = Some plain ->
        reports (snd run) =
          reports w ++ when_shown sp (spec_reports "Извлечение zstd" data)
        /\ (fst run = Ok tt
            /\ get (root (snd run)) dst = Some (File plain)
            \/ fst run = Abort (Uncaught (OSError dst))
               /\ root (snd run) = root w))
    /\ (stream_decompress B (chunks chunk_size data) = None ->
        fst run = Abort (Uncaught CodecError)
        /\ root (snd run) = root w
        /\ reports (snd run) =
             reports w ++
             when_shown sp
               (firstn (zd_accepted B (zd_new B) (chunks chunk_size data))
                       (spec_reports "Извлечение zstd" data))).
Proof.
  intros src dst sp w data G run. subst run.
  rewrite (zstd_decompress_run B src dst sp w G).
  unfold stream_decompress.
  destruct (zd_stream B (zd_new B) [] (chunks chunk_size data))
    as [[st out]|]; split; try discriminate.
  - intros plain [= <-]. rewrite loop_reports_spec.
    rewrite bind_run, write_bytes_run, root_noted, root_logged.
    destruct (alter (write_at out) (root w) dst) as [r'|] eqn:W.
    + destruct sp; [rewrite print_run|]; cbn; rewrite ?app_nil_r;
        (split; [reflexivity|]); left; (split; [reflexivity|]);
        eapply get_written; eassumption.
    + cbn. split; [reflexivity|]. right. split; reflexivity.
  - intros _. cbv zeta. rewrite loop_reports_firstn.
    cbn. repeat split; reflexivity.
Qed.

(** X3: an empty source file passes for a zstd archive: whatever the
    library would accept, [zstd_decompress] reports nothing and the target
    it writes is empty.  Likewise [zstd_compress] of an empty file reports
    nothing and writes just what flushing a fresh compressor gives. *)
Theorem zstd_passes_on_empty_input :
  forall (src dst : path) (sp : bool) (w : world),
    get (root w) src = Some (File []) ->
    (reports (snd (zstd_decompress B src dst sp w)) = reports w
     /\ (fst (zstd_decompress B src dst sp w) = Ok tt
         /\ get (root (snd (zstd_decompress B src dst sp w))) dst =
              Some (File [])
         \/ fst (zstd_decompress B src dst sp w) =
              Abort (Uncaught (OSError dst))))
    /\ (reports (snd (zstd_compress B src dst sp w)) = reports w
        /\ (fst (zstd_compress B src dst sp w) = Ok tt ->
            get (root (snd (zstd_compress B src dst sp w))) dst =
              Some (File (zc_flush B (zc_new B))))).
Proof.
  intros src dst sp w G. split.
  - rewrite (zstd_decompress_run B src dst sp w G).
    change (chunks chunk_size []) with (@nil bytes).
    change (offsets []) with (@nil Z). cbn [zd_stream].
    change (loop_reports "Извлечение zstd" [] []) with (@nil (Z * Z * string)).
    change (loop_events "Извлечение zstd" [] []) with (@nil out_event).
    rewrite !when_shown_nil, noted_nil.
    rewrite bind_run, write_bytes_run, root_logged.
    destruct (alter (write_at []) (root w) dst) as [r'|] eqn:W.
    + destruct sp; [rewrite print_run|]; cbn; rewrite ?app_nil_r;
        (split; [reflexivity|]); left; (split; [reflexivity|]);
        eapply get_written; eassumption.
    + cbn. split; [reflexivity|]. right. reflexivity.
  - destruct (zstd_compress_shape B src dst sp w G) as [R F].
    split.
    + rewrite R. change (spec_reports "Сжатие zstd" []) with (@nil (Z * Z * string)).
      now rewrite when_shown_nil, app_nil_r.
    + exact F.
Qed.

(** X4: [bz2_decompress] hands the whole input to [bz2.decompress].  If the
    library rejects it, the pass raises the codec error with the file
    system unchanged and nothing reported.  Otherwise the result is written
    and then, when progress is on, [(n, n)] is reported once; if the write
    fails nothing is changed or reported. *)
Theorem bz2_decompress_shape :
  forall (src dst : path) (sp : bool) (w : world) (data : bytes),
    get (root w) src = Some (File data) ->
    let run := bz2_decompress B src dst sp w in
    (forall plain,
        bz2_decompress_fn B data = Some plain ->
        fst run = Ok tt
        /\ get (root (snd run)) dst = Some (File plain)
        /\ reports (snd run) =
             reports w ++
             when_shown sp [(len data, len data, "Извлечение bz2")]
        \/ fst run = Abort (Uncaught (OSError dst))
           /\ root (snd run) = root w
           /\ reports (snd run) = reports w)
    /\ (bz2_decompress_fn B data = None ->
        fst run = Abort (Uncaught CodecError)
        /\ root (snd run) = root w
        /\ reports (snd run) = reports w).
Proof.
  intros src dst sp w data G run. subst run.
  rewrite (bz2_decompress_run B src dst sp w G).
  destruct (bz2_decompress_fn B data) as [result|]; split; try discriminate.
  - intros plain [= <-].
    rewrite bind_run, write_bytes_run, root_logged.
    destruct (alter (write_at result) (root w) dst) as [r'|] eqn:W.
    + left. destruct sp.
      * rewrite bind_run, pacman_progress_run, print_run. cbn.
        rewrite app_nil_r.
        repeat split; try reflexivity. eapply get_written; eassumption.
      * cbn. rewrite app_nil_r.
        repeat split; try reflexivity. eapply get_written; eassumption.
    + right. cbn. repeat split; reflexivity.
  - intros _. cbn. repeat split; reflexivity.
Qed.

End DecompressionShape.

Lemma zstd_decompress_shape_witness :
  get (root triple_world) ["a.b.tar.zst"] = Some (File (Toy.magic_zst :: hello))
  /\ reports (snd (zstd_decompress Toy.libs ["a.b.tar.zst"] ["out.bin"] true
                     triple_world)) =
       reports triple_world ++
       when_shown true
         (spec_reports "Извлечение zstd" (Toy.magic_zst :: hello)).
Proof.
  split; [reflexivity|].
  destruct (zstd_decompress_shape Toy.libs ["a.b.tar.zst"] ["out.bin"] true
              triple_world (data := Toy.magic_zst :: hello))
    as [H _]; [reflexivity|].
  destruct (H hello) as [R _]; [vm_compute; reflexivity | exact R].
Defined.

Lemma zstd_passes_on_empty_input_witness :
  get (root empty_world) ["e.zst"] = Some (File [])
  /\ reports (snd (zstd_decompress Toy.libs ["e.zst"] ["e"] true empty_world))
     = reports empty_world
  /\ reports (snd (zstd_compress Toy.libs ["e.zst"] ["e.zst.zst"] true
                     empty_world))
     = reports empty_world.
Proof.
  split; [reflexivity|].
  destruct (zstd_passes_on_empty_input Toy.libs ["e.zst"] ["e"] true
              empty_world) as [[R _] _]; [reflexivity|].
  destruct (zstd_passes_on_empty_input Toy.libs ["e.zst"] ["e.zst.zst"] true
              empty_world) as [_ [R' _]]; [reflexivity|].
  split; [exact R | exact R'].
Defined.

Lemma bz2_decompress_shape_witness :
  get (root corrupt_world) ["c.bz2"] = Some (File hello)
  /\ bz2_decompress_fn Toy.libs hello = None
  /\ fst (bz2_decompress Toy.libs ["c.bz2"] ["c"] true corrupt_world)
     = Abort (Uncaught CodecError)
  /\ root (snd (bz2_decompress Toy.libs ["c.bz2"] ["c"] true corrupt_world))
     = root corrupt_world
  /\ reports (snd (bz2_decompress Toy.libs ["c.bz2"] ["c"] true
                     corrupt_world))
     = reports corrupt_world.
Proof.
  split; [reflexivity|]. split; [reflexivity|].
  destruct (bz2_decompress_shape Toy.libs ["c.bz2"] ["c"] true corrupt_world
              (data := hello)) as [_ H]; [reflexivity|].
  apply H. reflexivity.
Defined.

(** ** Failures that leave the file system alone *)

(** A write leaves every other regular file as it is. *)
Lemma write_keeps_other_files (d : bytes) (p : path) :
  forall r r' q x,
    alter (write_at d) r p = Some r' ->
    get r q = Some (File x) -> q <> p -> get r' q = Some (File x).
Proof.
  induction p as [|c p IH]; intros r r' q x H G N; [discriminate|].
  destruct q as [|c' q].
  { cbn [alter] in H. destruct r; discriminate. }
  destruct (String.eqb c' c) eqn:E.
  2:{ apply String.eqb_neq in E. rewrite <- G.
      eapply get_alter_other_head; eassumption. }
  apply String.eqb_eq in E. subst c'.
  cbn [alter] in H. destruct r as [d0 | es]; [discriminate|].
  cbn [get] in G. destruct (assoc c es) as [n|] eqn:A; [|discriminate].
  destruct p as [|c2 p].
  - assert (q <> []) as Hq by (intros ->; contradiction).
    destruct n as [d1 | es1].
    + destruct q; [contradiction | discriminate].
    + cbn [write_at] in H. discriminate.
  - destruct (alter (write_at d) n (c2 :: p)) as [n'|] eqn:R; [|discriminate].
    injection H as <-. cbn [get]. rewrite assoc_bind_same.
    eapply IH; [eassumption | eassumption |]. intros ->. contradiction.
Qed.

Section CleanFailures.

Variable B : backend.

Lemma main_ext_error (a : args) (w : world) :
  compress a = negb (extract a) ->
  is_codec_ext (artifact_ext a) = false ->
  main B a w =
    (Abort (SysExit 1),
     noted (logged w [OpStat (source a)]) [Println msg_ext] []).
Proof.
  intros M E. unfold main, artifact_ext in *. rewrite M in E |- *.
  destruct (extract a); cbn [negb Bool.eqb] in *;
    rewrite bind_run; unfold path_is_dir at 1; rewrite !bind_run;
    unfold log_op at 1, get_root at 1, ret at 1;
    cbn [root stdout reports oplog]; rewrite E; cbn [negb];
    cbv beta iota; unfold bind, print, emit, sys_exit, noted, logged;
    cbn [root stdout reports oplog]; rewrite ?app_nil_r; reflexivity.
Qed.

(** X5: with a valid mode and a recognised extension, a source that does
    not exist makes [main] fail with the OS error of reading it; the file
    system is unchanged and the only file-system calls are the [is_dir]
    query and the failed read.  In extract mode the same holds for a source
    that is a directory. *)
Theorem unreadable_source_fails_cleanly :
  forall (a : args) (w : world),
    compress a = negb (extract a) ->
    is_codec_ext (artifact_ext a) = true ->
    is_file_node (get (root w) (source a)) = false ->
    (compress a = true -> get (root w) (source a) = None) ->
    main B a w =
      (Abort (Uncaught (OSError (source a))),
       logged w [OpStat (source a); OpRead (source a)]).
Proof.
  intros a w M E F N. unfold artifact_ext in E.
  destruct (compress a) eqn:Hc.
  - assert (extract a = false) as Hx
        by (destruct (extract a); [discriminate | reflexivity]).
    rewrite (main_compress_run B a w Hc Hx E). rewrite (N eq_refl).
    cbn [is_dir_node].
    change (compress_branch B a false)
      with (input_obj <- ret (source a) ;;
            compress_pass B (suffix (target a)) input_obj (target a)
                          (progress a) ;; ret tt).
    rewrite bind_run, bind_run. unfold ret at 1. cbv beta iota.
    rewrite bind_run, compress_pass_unreadable by exact F.
    f_equal. unfold logged. cbn [root stdout reports oplog].
    now rewrite <- app_assoc.
  - assert (extract a = true) as Hx
        by (destruct (extract a); [reflexivity | discriminate]).
    rewrite (main_extract_run B a w Hc Hx E). unfold extract_branch.
    destruct (is_tar_name (source a)); rewrite !bind_run;
      rewrite decompress_pass_unreadable by exact F;
      f_equal; unfold logged; cbn [root stdout reports oplog];
      now rewrite <- app_assoc.
Qed.

(** X6: in extract mode, a source file the codec rejects makes [main] fail
    with the codec error and leaves the file system unchanged: neither a
    target nor a transient archive is created, bundle name or not. *)
Theorem rejected_archive_fails_cleanly :
  forall (a : args) (w : world) (data : bytes),
    compress a = false ->
    extract a = true ->
    is_codec_ext (suffix (source a)) = true ->
    get (root w) (source a) = Some (File data) ->
    decode B (suffix (source a)) data = None ->
    fst (main B a w) = Abort (Uncaught CodecError)
    /\ root (snd (main B a w)) = root w.
Proof.
  intros a w data Hc Hx E G D.
  rewrite (main_extract_run B a w Hc Hx E).
  set (w0 := logged w [OpStat (source a)]).
  destruct (then_bench (extract_branch B a) a w0) as [R1 R2].
  rewrite R1, R2. clear R1 R2. unfold extract_branch.
  destruct (is_tar_name (source a)).
  - pose proof (decompress_pass_spec B (suffix (source a)) (source a)
                  tmp_unpack_tar (progress a) w0 G) as P.
    cbv zeta in P. rewrite D in P. rewrite bind_run.
    destruct (decompress_pass B (suffix (source a)) (source a)
                tmp_unpack_tar (progress a) w0) as [[[]|x] w1];
      cbn [fst snd] in *; destruct P as [P1 P2]; [discriminate|].
    split; assumption.
  - pose proof (decompress_pass_spec B (suffix (source a)) (source a)
                  (target a) (progress a) w0 G) as P.
    cbv zeta in P. rewrite D in P. exact P.
Qed.


End CleanFailures.

Lemma unreadable_source_fails_cleanly_witness :
  compress (mkArgs true false ["nope.txt"] ["n.zst"] false false)
  = negb (extract (mkArgs true false ["nope.txt"] ["n.zst"] false false))
  /\ is_codec_ext
       (artifact_ext (mkArgs true false ["nope.txt"] ["n.zst"] false false))
     = true
  /\ is_file_node (get (root sample_world) ["nope.txt"]) = false
  /\ get (root sample_world) ["nope.txt"] = None
  /\ main Toy.libs (mkArgs true false ["nope.txt"] ["n.zst"] false false)
       sample_world =
       (Abort (Uncaught (OSError ["nope.txt"])),
        logged sample_world [OpStat ["nope.txt"]; OpRead ["nope.txt"]]).
Proof.
  repeat (split; [reflexivity|]).
  apply (unreadable_source_fails_cleanly Toy.libs
           (mkArgs true false ["nope.txt"] ["n.zst"] false false)
           sample_world); reflexivity.
Defined.

Lemma rejected_archive_fails_cleanly_witness :
  is_codec_ext (suffix ["c.bz2"]) = true
  /\ get (root corrupt_world) ["c.bz2"] = Some (File hello)
  /\ decode Toy.libs (suffix ["c.bz2"]) hello = None
  /\ fst (main Toy.libs (mkArgs false true ["c.bz2"] ["c"] false false)
            corrupt_world) = Abort (Uncaught CodecError)
  /\ root (snd (main Toy.libs (mkArgs false true ["c.bz2"] ["c"] false false)
                  corrupt_world)) = root corrupt_world.
Proof.
  repeat (split; [reflexivity|]).
  apply (rejected_archive_fails_cleanly Toy.libs
           (mkArgs false true ["c.bz2"] ["c"] false false) corrupt_world
           (data := hello)); reflexivity.
Defined.


(** ** Building and unpacking archives *)

Lemma mkdir_makes_dir (p : path) (r r' : node) :
  alter mkdir_at r p = Some r' -> is_dir_node (get r' p) = true.
Proof.
  intros H. destruct (get_alter_same _ _ _ H) as [o [Ho Hg]].
  rewrite Hg. unfold mkdir_at in Ho.
  destruct (get r p) as [[d | es]|]; try discriminate;
    injection Ho as <-; reflexivity.
Qed.

(** [makedirs] ends with a directory at the path asked for. *)
Lemma makedirs_makes_dir (todo : path) :
  forall r r' cur,
    is_dir_node (get r cur) = true ->
    makedirs_from r cur todo = Some r' ->
    is_dir_node (get r' (cur ++ todo)) = true.
Proof.
  induction todo as [|c todo IH]; intros r r' cur D H.
  - injection H as <-. now rewrite app_nil_r.
  - cbn [makedirs_from] in H.
    destruct (alter mkdir_at r (cur ++ [c])) as [r1|] eqn:A; [|discriminate].
    replace (cur ++ c :: todo) with ((cur ++ [c]) ++ todo)
      by (now rewrite <- app_assoc).
    eapply IH; [|exact H]. eapply mkdir_makes_dir; exact A.
Qed.

Section Archives.

Variable B : backend.

Lemma tar_build_run_ok (folder : path) (t : string) (w : world)
  (es : list (string * node)) :
  get (root w) folder = Some (Dir es) ->
  folder <> [] ->
  is_dir_node (get (root w) [t]) = false ->
  exists w',
    tar_build B folder [t] w = (Ok tt, w')
    /\ get (root w') [t] = Some (File (tar_add B (basename folder) (Dir es)))
    /\ (forall c q, c <> t -> get (root w') (c :: q) = get (root w) (c :: q)).
Proof.
  intros G Hne D. destruct folder as [|c rest]; [contradiction|].
  assert (c <> t) as N.
  { intros ->. rewrite (get_through_dir _ _ _ G) in D. discriminate. }
  destruct (root w) as [d0 | es0] eqn:Er; [discriminate|].
  unfold tar_build. run print_run. run write_bytes_run.
  rewrite root_noted, Er. rewrite (write_top_succeeds [] t es0 D).
  cbv beta iota. run log_op_run. run get_root_run.
  rewrite root_logged, root_with_root.
  set (r1 := Dir (bind_entry t (File []) es0)).
  assert (alter remove_at r1 [t] = Some (Dir (unlink t (bind_entry t (File []) es0))))
    as W0.
  { unfold r1. cbn [alter]. rewrite assoc_bind_same. reflexivity. }
  rewrite W0.
  assert (get (Dir (unlink t (bind_entry t (File []) es0))) (c :: rest)
          = Some (Dir es)) as G0.
  { rewrite <- G. cbn [get]. rewrite assoc_unlink_other by exact N.
    now rewrite assoc_bind_other by exact N. }
  rewrite G0. rewrite write_bytes_run, root_logged, root_with_root.
  assert (is_dir_node (get r1 [t]) = false) as D1.
  { unfold r1. cbn [get]. now rewrite assoc_bind_same. }
  unfold r1 in *. rewrite (write_top_succeeds _ t _ D1).
  eexists. split; [reflexivity|]. rewrite root_with_root. split.
  - cbn [get]. now rewrite assoc_bind_same.
  - intros c' q N'. cbn [get].
    rewrite !assoc_bind_other by exact N'. reflexivity.
Qed.

(** X8: [tar_build] of an existing directory into an archive name of the
    working directory that is not itself a directory returns normally; the
    archive then holds the directory's tree under its base name, and
    nothing stored under any other top-level name has changed (the
    directory itself included). *)
Theorem tar_build_succeeds :
  forall (folder : path) (t : string) (w : world) (es : list (string * node)),
    get (root w) folder = Some (Dir es) ->
    folder <> [] ->
    is_dir_node (get (root w) [t]) = false ->
    let run := tar_build B folder [t] w in
    fst run = Ok tt
    /\ get (root (snd run)) [t] =
         Some (File (tar_add B (basename folder) (Dir es)))
    /\ get (root (snd run)) folder = Some (Dir es)
    /\ (forall c q, c <> t ->
          get (root (snd run)) (c :: q) = get (root w) (c :: q)).
Proof.
  intros folder t w es G Hne D run. subst run.
  destruct (@tar_build_run_ok folder t w es G Hne D) as [w' [E [Gt O]]].
  rewrite E. cbn [fst snd]. repeat split; try assumption.
  destruct folder as [|c rest]; [contradiction|].
  rewrite O; [exact G|].
  intros ->. rewrite (get_through_dir _ _ _ G) in D. discriminate.
Qed.

Lemma tar_unpack_rejected (t : string) (dest : path) (w : world)
  (data : bytes) (r2 : node) :
  get (root w) [t] = Some (File data) ->
  makedirs_from (root w) [] dest = Some r2 ->
  (forall before, tar_extractall B data before = None) ->
  exists w',
    tar_unpack B [t] dest w = (Abort (Uncaught BundleError), w')
    /\ root w' = r2
    /\ is_dir_node (get r2 dest) = true
    /\ get r2 [t] = Some (File data).
Proof.
  intros G Mk Bad.
  assert (is_dir_node (get r2 dest) = true) as D.
  { apply (makedirs_makes_dir dest (root w) [] (r' := r2)); [|exact Mk].
    cbn [get is_dir_node]. destruct (root w); [discriminate | reflexivity]. }
  pose proof (makedirs_keeps_files _ _ _ _ Mk G) as G2.
  unfold tar_unpack.
  run log_op_run. run os_makedirs_run. rewrite root_logged, Mk.
  cbv beta iota. run print_run. run read_bytes_run.
  rewrite root_noted, root_with_root, G2. cbv beta iota.
  run get_root_run. rewrite root_logged, root_noted, root_with_root.
  destruct (get r2 dest) as [before|]; [|discriminate].
  rewrite Bad. eexists. split; [reflexivity|].
  repeat split; assumption.
Qed.

(** X9: [tar_unpack] creates the destination directory before it opens the
    archive.  When the destination can be created and the archive file
    holds bytes the tar library rejects, the call raises the bundle error,
    the destination directory exists afterwards and the archive file is
    as it was. *)
Theorem tar_unpack_rejected_archive :
  forall (t : string) (dest : path) (w : world) (data : bytes) (r2 : node),
    get (root w) [t] = Some (File data) ->
    makedirs_from (root w) [] dest = Some r2 ->
    (forall before, tar_extractall B data before = None) ->
    let run := tar_unpack B [t] dest w in
    fst run = Abort (Uncaught BundleError)
    /\ is_dir_node (get (root (snd run)) dest) = true
    /\ get (root (snd run)) [t] = Some (File data).
Proof.
  intros t dest w data r2 G Mk Bad run. subst run.
  destruct (@tar_unpack_rejected t dest w data r2 G Mk Bad) as [w' [E [R [D G2]]]].
  rewrite E. cbn [fst snd]. rewrite R. repeat split; assumption.
Qed.

(** X10: when a bundled extraction decompresses its source but the tar
    library rejects the decompressed bytes, [main] fails with the bundle
    error after the fact: the transient [tmp_unpack.tar] stays on disk
    with the decompressed bytes and the destination directory has been
    created. *)
Theorem transient_left_when_unbundling_fails :
  forall (a : args) (w : world) (cdata plain : bytes) (r1 r2 : node),
    compress a = false ->
    extract a = true ->
    is_codec_ext (suffix (source a)) = true ->
    is_tar_name (source a) = true ->
    get (root w) (source a) = Some (File cdata) ->
    decode B (suffix (source a)) cdata = Some plain ->
    alter (write_at plain) (root w) tmp_unpack_tar = Some r1 ->
    makedirs_from r1 [] (target a) = Some r2 ->
    (forall before, tar_extractall B plain before = None) ->
    fst (main B a w) = Abort (Uncaught BundleError)
    /\ get (root (snd (main B a w))) tmp_unpack_tar = Some (File plain)
    /\ is_dir_node (get (root (snd (main B a w))) (target a)) = true.
Proof.
  intros a w cdata plain r1 r2 Hc Hx E T G D W Mk Bad.
  rewrite (main_extract_run B a w Hc Hx E).
  set (w0 := logged w [OpStat (source a)]).
  destruct (then_bench (extract_branch B a) a w0) as [R1 R2].
  rewrite R1, R2. clear R1 R2. unfold extract_branch. rewrite T.
  pose proof (decompress_pass_spec B (suffix (source a)) (source a)
                tmp_unpack_tar (progress a) w0 G) as P.
  cbv zeta in P. rewrite D in P. change (root w0) with (root w) in P.
  rewrite W in P. destruct P as [_ [P1 P2]]. rewrite bind_run.
  destruct (decompress_pass B (suffix (source a)) (source a) tmp_unpack_tar
              (progress a) w0) as [[[]|x] w1]; [|discriminate].
  cbn [snd] in P2. subst r1. cbv beta iota. rewrite bind_run.
  pose proof (get_written _ _ _ W) as G1.
  destruct (@tar_unpack_rejected "tmp_unpack.tar" (target a) w1 plain r2 G1 Mk Bad)
    as [w' [E' [R [Dd G2]]]].
  unfold tmp_unpack_tar. rewrite E'. cbn [fst snd]. rewrite R.
  repeat split; assumption.
Qed.

(** X11: when a directory (the working directory included) is compressed
    to a bundle-named target whose parent is not an existing directory,
    and [tmp_data.tar] is not a directory, [main] builds [tmp_data.tar],
    fails with the OS error of writing the target, and leaves
    [tmp_data.tar] on disk holding the archive of the source directory as
    [tar.add] saw it. *)
Theorem transient_left_when_target_unwritable :
  forall (a : args) (w : world),
    compress a = true ->
    extract a = false ->
    bundle_form (target a) = true ->
    is_dir_node (get (root w) (source a)) = true ->
    is_dir_node (get (root w) tmp_data_tar) = false ->
    is_dir_node (get (root w) (removelast (target a))) = false ->
    exists tree,
      seen_without "tmp_data.tar" (root w) (source a) = Some tree
      /\ fst (main B a w) = Abort (Uncaught (OSError (target a)))
      /\ get (root (snd (main B a w))) tmp_data_tar =
           Some (File (tar_add B (basename (source a)) tree)).
Proof.
  intros a w Hc Hx Bf Hd Nt Hp.
  unfold bundle_form in Bf. apply andb_true_iff in Bf. destruct Bf as [T E].
  set (w0 := logged w [OpStat (source a)]).
  assert (is_dir_node (get (root w0) (source a)) = true) as Hd0 by exact Hd.
  assert (is_dir_node (get (root w0) ["tmp_data.tar"]) = false) as Nt0
    by exact Nt.
  destruct (@tar_build_run B (source a) "tmp_data.tar" w0 Hd0 Nt0)
    as [es0 [tree [w1 [Er [S [_ [TB Rw]]]]]]].
  exists tree. split; [exact S|].
  set (tardata := tar_add B (basename (source a)) tree) in *.
  assert (get (root w1) tmp_data_tar = Some (File tardata)) as TBf.
  { rewrite Rw. unfold tmp_data_tar. cbn [get]. now rewrite assoc_bind_same. }
  assert (alter (write_at (encode B (suffix (target a)) tardata)) (root w1)
                (target a) = None) as W.
  { destruct (alter _ (root w1) (target a)) as [r'|] eqn:W; [|reflexivity].
    apply alter_needs_parent in W. exfalso. revert W Hp.
    change (root w) with (root w0). rewrite Rw, Er.
    destruct (removelast (target a)) as [|c q]; [discriminate|].
    cbn [get]. destruct (String.eqb c "tmp_data.tar") eqn:Ec.
    - apply String.eqb_eq in Ec. subst c. rewrite assoc_bind_same.
      destruct q; discriminate.
    - apply String.eqb_neq in Ec. rewrite assoc_bind_other by exact Ec.
      intros W Hp. rewrite Hp in W. discriminate. }
  pose proof (compress_pass_spec B (suffix (target a)) tmp_data_tar
                (target a) (progress a) w1 TBf) as P.
  cbv zeta in P. fold tardata in P. rewrite W in P. destruct P as [P1 P2].
  assert (data_tar_stage B a w = (Ok tt, w1)) as St by exact TB.
  assert (fst (compress_pass B (suffix (target a)) tmp_data_tar (target a)
                 (progress a) (snd (data_tar_stage B a w))) <> Ok tt) as Fp.
  { rewrite St. cbn [snd]. rewrite P1. discriminate. }
  destruct (@data_tar_left B a w Hc Hx E Hd T) as [Run [_ Keep]];
    [rewrite St; reflexivity | exact Fp |].
  split.
  - rewrite Run, St. exact P1.
  - rewrite Keep, St. exact TBf.
Qed.

End Archives.

Lemma tar_build_succeeds_witness :
  get (root sample_world) ["proj"] =
    Some (Dir [("a.txt", File [Byte.x01]);
               ("b", Dir [("c.txt", File [Byte.x02; Byte.x03])])])
  /\ ["proj"] <> []
  /\ is_dir_node (get (root sample_world) ["p.tar"]) = false
  /\ fst (tar_build Toy.libs ["proj"] ["p.tar"] sample_world) = Ok tt
  /\ get (root (snd (tar_build Toy.libs ["proj"] ["p.tar"] sample_world)))
         ["f.txt"] = Some (File hello).
Proof.
  split; [reflexivity|]. split; [discriminate|]. split; [reflexivity|].
  destruct (@tar_build_succeeds Toy.libs ["proj"] "p.tar" sample_world
              [("a.txt", File [Byte.x01]);
               ("b", Dir [("c.txt", File [Byte.x02; Byte.x03])])])
    as [F [_ [_ O]]]; [reflexivity | discriminate | reflexivity |].
  split; [exact F|]. rewrite (O "f.txt" []); [reflexivity | discriminate].
Defined.

Lemma tar_unpack_rejected_archive_witness :
  get (root corrupt_world) ["c.bz2"] = Some (File hello)
  /\ makedirs_from (root corrupt_world) [] ["out"] =
       Some (Dir [("out", Dir []); ("c.bz2", File hello)])
  /\ (forall before, tar_extractall Toy.libs hello before = None)
  /\ fst (tar_unpack Toy.libs ["c.bz2"] ["out"] corrupt_world)
     = Abort (Uncaught BundleError)
  /\ is_dir_node (get (root (snd (tar_unpack Toy.libs ["c.bz2"] ["out"]
                                    corrupt_world))) ["out"]) = true
  /\ get (root (snd (tar_unpack Toy.libs ["c.bz2"] ["out"] corrupt_world)))
         ["c.bz2"] = Some (File hello).
Proof.
  split; [reflexivity|]. split; [reflexivity|].
  split; [intros before; reflexivity|].
  apply (@tar_unpack_rejected_archive Toy.libs "c.bz2" ["out"] corrupt_world
           hello (Dir [("out", Dir []); ("c.bz2", File hello)]));
    [reflexivity | reflexivity | intros before; reflexivity].
Defined.

Lemma transient_left_when_unbundling_fails_witness :
  is_tar_name ["bad.tar.bz2"] = true
  /\ get (root bad_archive_world) ["bad.tar.bz2"] =
       Some (File [Toy.magic_bz2; Byte.x00; Byte.x01])
  /\ decode Toy.libs (suffix ["bad.tar.bz2"])
       [Toy.magic_bz2; Byte.x00; Byte.x01] = Some [Byte.x00; Byte.x01]
  /\ (forall before,
        tar_extractall Toy.libs [Byte.x00; Byte.x01] before = None)
  /\ fst (main Toy.libs (mkArgs false true ["bad.tar.bz2"] ["out"] true true)
            bad_archive_world) = Abort (Uncaught BundleError)
  /\ get (root (snd (main Toy.libs
                       (mkArgs false true ["bad.tar.bz2"] ["out"] true true)
                       bad_archive_world))) tmp_unpack_tar =
       Some (File [Byte.x00; Byte.x01])
  /\ is_dir_node
       (get (root (snd (main Toy.libs
                          (mkArgs false true ["bad.tar.bz2"] ["out"] true true)
                          bad_archive_world))) ["out"]) = true.
Proof.
  split; [reflexivity|]. split; [reflexivity|]. split; [reflexivity|].
  split; [intros before; reflexivity|].
  apply (transient_left_when_unbundling_fails Toy.libs
           (mkArgs false true ["bad.tar.bz2"] ["out"] true true)
           bad_archive_world
           (cdata := [Toy.magic_bz2; Byte.x00; Byte.x01])
           (plain := [Byte.x00; Byte.x01])
           (r1 := Dir [("tmp_unpack.tar", File [Byte.x00; Byte.x01]);
                       ("bad.tar.bz2",
                        File [Toy.magic_bz2; Byte.x00; Byte.x01])])
           (r2 := Dir [("out", Dir []);
                       ("tmp_unpack.tar", File [Byte.x00; Byte.x01]);
                       ("bad.tar.bz2",
                        File [Toy.magic_bz2; Byte.x00; Byte.x01])]));
    reflexivity.
Defined.

Lemma transient_left_when_target_unwritable_witness :
  bundle_form ["proj"; "nodir"; "p.tar.zst"] = true
  /\ is_dir_node (get (root sample_world) ["proj"]) = true
  /\ is_dir_node (get (root sample_world) tmp_data_tar) = false
  /\ is_dir_node (get (root sample_world) ["proj"; "nodir"]) = false
  /\ exists tree,
       seen_without "tmp_data.tar" (root sample_world) ["proj"] = Some tree
       /\ fst (main Toy.libs
                 (mkArgs true false ["proj"] ["proj"; "nodir"; "p.tar.zst"]
                         false false)
                 sample_world) =
            Abort (Uncaught (OSError ["proj"; "nodir"; "p.tar.zst"]))
       /\ get (root (snd (main Toy.libs
                            (mkArgs true false ["proj"]
                                    ["proj"; "nodir"; "p.tar.zst"]
                                    false false)
                            sample_world))) tmp_data_tar =
            Some (File (tar_add Toy.libs (basename ["proj"]) tree)).
Proof.
  split; [reflexivity|]. split; [reflexivity|]. split; [reflexivity|].
  split; [reflexivity|].
  apply (transient_left_when_target_unwritable Toy.libs
           (mkArgs true false ["proj"] ["proj"; "nodir"; "p.tar.zst"]
                   false false)
           sample_world); reflexivity.
Defined.

(** ** The flags that only change what is shown *)

Lemma same_ret (A : Type) (a : A) : same_outcome (ret a) (ret a).
Proof. intros w w' R. now split. Qed.

Lemma same_bind (A C : Type) (m m' : M A) (k k' : A -> M C) :
  same_outcome m m' ->
  (forall x, same_outcome (k x) (k' x)) ->
  same_outcome (x <- m ;; k x) (x <- m' ;; k' x).
Proof.
  intros H K w w' R. unfold bind. specialize (H w w' R).
  destruct (m w) as [[x | e] w1], (m' w') as [[x' | e'] w1'];
    cbn [fst snd] in H; destruct H as [H1 H2]; try discriminate.
  - injection H1 as <-. now apply K.
  - injection H1 as <-. now split.
Qed.

Lemma same_quiet (m m' : M unit) : quiet m -> quiet m' -> same_outcome m m'.
Proof.
  intros Q Q' w w' R. destruct (Q w) as [-> ->], (Q' w') as [-> ->].
  now split.
Qed.

Lemma quiet_bind (m k : M unit) : quiet m -> quiet k -> quiet (m ;; k).
Proof.
  intros Qm Qk w. unfold bind. destruct (Qm w) as [F R].
  destruct (m w) as [[[] | e] w1]; cbn [fst snd] in *; [|discriminate].
  destruct (Qk w1) as [F2 R2]. split; [exact F2 | congruence].
Qed.

Lemma quiet_ret : quiet (ret tt).
Proof. intros w. now split. Qed.

Lemma quiet_emit (e : out_event) : quiet (emit e).
Proof. intros w. now split. Qed.

Lemma quiet_log_op (o : fs_op) : quiet (log_op o).
Proof. intros w. now split. Qed.

Lemma quiet_log_report (r : Z * Z * string) : quiet (log_report r).
Proof. intros w. now split. Qed.

Lemma quiet_pacman_progress (done total : Z) (label : string) :
  quiet (pacman_progress done total label).
Proof.
  unfold pacman_progress. apply quiet_bind; [apply quiet_log_report|].
  destruct (total =? 0); [apply quiet_ret|].
  apply quiet_bind; [apply quiet_emit|].
  destruct (done >=? total); [apply quiet_emit | apply quiet_ret].
Qed.

Lemma quiet_shown (sp : bool) (m : M unit) :
  quiet m -> quiet (if sp then m else ret tt).
Proof. intros Q. destruct sp; [exact Q | apply quiet_ret]. Qed.

Lemma quiet_bench_block (a : args) : quiet (bench_block a).
Proof. intros w. apply bench_block_ok. Qed.

Lemma quiet_statistics (b : bool) (src dst : path) :
  quiet (if b then
           in_size <- calc_size src ;;
           out_size <- calc_size dst ;;
           emit (Benchmark in_size out_size (negb (in_size =? 0)))
         else ret tt).
Proof. exact (quiet_bench_block (mkArgs true false src dst b false)). Qed.

Lemma same_get_root : same_outcome get_root get_root.
Proof. intros w w' R. cbn. now rewrite R. Qed.

Lemma same_set_root (r : node) : same_outcome (set_root r) (set_root r).
Proof. intros w w' R. now split. Qed.

Lemma same_raise (A : Type) (e : exn) : same_outcome (@raise A e) (raise e).
Proof. intros w w' R. now split. Qed.

Lemma same_sys_exit (A : Type) (c : Z) :
  same_outcome (@sys_exit A c) (sys_exit c).
Proof. intros w w' R. now split. Qed.

Lemma same_after_quiet (A : Type) (q q' : M unit) (m m' : M A) :
  quiet q -> quiet q' -> same_outcome m m' ->
  same_outcome (q ;; m) (q' ;; m').
Proof.
  intros Q Q' H. apply same_bind; [now apply same_quiet | intros _; exact H].
Qed.

Lemma same_with_root (A : Type) (k : node -> M A) :
  (forall r, same_outcome (k r) (k r)) ->
  same_outcome (r <- get_root ;; k r) (r <- get_root ;; k r).
Proof. intros H. apply same_bind; [apply same_get_root | exact H]. Qed.

Ltac same_fs :=
  repeat first
    [ apply same_ret | apply same_raise | apply same_sys_exit
    | apply same_set_root
    | apply same_after_quiet;
        [ first [apply quiet_log_op | apply quiet_emit] ..| ]
    | apply same_with_root; intros ?
    | match goal with
      | |- same_outcome (match ?x with _ => _ end) _ => destruct x
      end ].

Lemma same_read_bytes (p : path) : same_outcome (read_bytes p) (read_bytes p).
Proof. unfold read_bytes. same_fs. Qed.

Lemma same_write_bytes (p : path) (d : bytes) :
  same_outcome (write_bytes p d) (write_bytes p d).
Proof. unfold write_bytes. same_fs. Qed.

Lemma same_os_remove (p : path) : same_outcome (os_remove p) (os_remove p).
Proof. unfold os_remove. same_fs. Qed.

Lemma same_os_makedirs (p : path) :
  same_outcome (os_makedirs p) (os_makedirs p).
Proof. unfold os_makedirs. same_fs. Qed.

Lemma same_path_exists (p : path) :
  same_outcome (path_exists p) (path_exists p).
Proof. unfold path_exists. same_fs. Qed.

Lemma same_path_is_dir (p : path) :
  same_outcome (path_is_dir p) (path_is_dir p).
Proof. unfold path_is_dir. same_fs. Qed.

Lemma same_for_loop (S : Type) (body body' : Z -> S -> M S) (l : list Z) :
  (forall i s, same_outcome (body i s) (body' i s)) ->
  forall s, same_outcome (for_loop l body s) (for_loop l body' s).
Proof.
  intros H. induction l as [|i l IH]; intros s; cbn [for_loop].
  - apply same_ret.
  - apply same_bind; [apply H | exact IH].
Qed.

Lemma same_while_loop (S : Type) (body body' : Z -> S -> M S)
  (total step : Z) (fuel : nat) :
  (forall i s, same_outcome (body i s) (body' i s)) ->
  forall i s, same_outcome (while_loop fuel i total step body s)
                           (while_loop fuel i total step body' s).
Proof.
  intros H. induction fuel as [|fuel IH]; intros i s; cbn [while_loop].
  - apply same_ret.
  - destruct (i <? total); [|apply same_ret].
    apply same_bind; [apply H | intros s'; apply IH].
Qed.

Section Presentation.

Variable B : backend.

Lemma same_zstd_compress (src dst : path) (sp sp' : bool) :
  same_outcome (zstd_compress B src dst sp) (zstd_compress B src dst sp').
Proof.
  unfold zstd_compress. apply same_bind; [apply same_read_bytes|].
  intros data. cbv zeta. apply same_bind.
  - apply same_for_loop. intros i [c out].
    destruct (zc_compress B c _) as [c' piece].
    apply same_after_quiet;
      [apply quiet_shown, quiet_pacman_progress ..| apply same_ret].
  - intros [c out]. apply same_bind; [apply same_write_bytes|].
    intros _. apply same_quiet; apply quiet_shown, quiet_emit.
Qed.

Lemma same_zstd_decompress (src dst : path) (sp sp' : bool) :
  same_outcome (zstd_decompress B src dst sp) (zstd_decompress B src dst sp').
Proof.
  unfold zstd_decompress. apply same_bind; [apply same_read_bytes|].
  intros data. cbv zeta. apply same_bind.
  - apply same_while_loop. intros i [c out].
    destruct (zd_decompress B c _) as [[c' piece]|]; [|apply same_raise].
    apply same_after_quiet;
      [apply quiet_shown, quiet_pacman_progress ..| apply same_ret].
  - intros [c out]. apply same_bind; [apply same_write_bytes|].
    intros _. apply same_quiet; apply quiet_shown, quiet_emit.
Qed.

Lemma quiet_bz2_tail (sp : bool) (n : Z) (label msg : string) :
  quiet (if sp then pacman_progress n n label ;; print msg else ret tt).
Proof.
  apply quiet_shown, quiet_bind; [apply quiet_pacman_progress|].
  apply quiet_emit.
Qed.

Lemma same_bz2_compress (src dst : path) (sp sp' : bool) :
  same_outcome (bz2_compress B src dst sp) (bz2_compress B src dst sp').
Proof.
  unfold bz2_compress. apply same_bind; [apply same_read_bytes|].
  intros data. cbv zeta. apply same_bind; [apply same_write_bytes|].
  intros _. apply same_quiet; apply quiet_bz2_tail.
Qed.

Lemma same_bz2_decompress (src dst : path) (sp sp' : bool) :
  same_outcome (bz2_decompress B src dst sp) (bz2_decompress B src dst sp').
Proof.
  unfold bz2_decompress. apply same_bind; [apply same_read_bytes|].
  intros data. destruct (bz2_decompress_fn B data); [|apply same_raise].
  apply same_bind; [apply same_write_bytes|].
  intros _. apply same_quiet; apply quiet_bz2_tail.
Qed.

Lemma same_tar_build (folder tar_path : path) :
  same_outcome (tar_build B folder tar_path) (tar_build B folder tar_path).
Proof.
  unfold tar_build.
  apply same_after_quiet; [apply quiet_emit ..|].
  apply same_bind; [apply same_write_bytes | intros _].
  apply same_after_quiet; [apply quiet_log_op ..|].
  apply same_with_root. intros r.
  destruct (alter remove_at r tar_path); [|apply same_raise].
  destruct (get _ folder); [apply same_write_bytes | apply same_raise].
Qed.

Lemma same_tar_unpack (tar_path dest_dir : path) :
  same_outcome (tar_unpack B tar_path dest_dir) (tar_unpack B tar_path dest_dir).
Proof.
  unfold tar_unpack.
  apply same_after_quiet; [apply quiet_log_op ..|].
  apply same_bind; [apply same_os_makedirs | intros _].
  apply same_after_quiet; [apply quiet_emit ..|].
  apply same_bind; [apply same_read_bytes | intros data].
  apply same_with_root. intros r. same_fs.
Qed.

Lemma same_main (a a' : args) :
  compress a' = compress a ->
  extract a' = extract a ->
  source a' = source a ->
  target a' = target a ->
  same_outcome (main B a) (main B a').
Proof.
  intros Ec Ex Es Et. unfold main. rewrite Ec, Ex, Es, Et.
  destruct (Bool.eqb (compress a) (extract a)).
  { apply same_after_quiet; [apply quiet_emit ..| apply same_sys_exit]. }
  cbv zeta. apply same_bind; [apply same_path_is_dir | intros is_dir].
  destruct (negb (is_codec_ext _)).
  { apply same_after_quiet; [apply quiet_emit ..| apply same_sys_exit]. }
  apply same_bind.
  2: { intros _. apply same_quiet; apply quiet_statistics. }
  destruct (compress a).
  - apply same_bind.
    + destruct is_dir; [|apply same_ret].
      destruct (negb (is_tar_name (target a))).
      * apply same_after_quiet; [apply quiet_emit ..| apply same_sys_exit].
      * apply same_bind; [apply same_tar_build | intros _; apply same_ret].
    + intros input_obj. apply same_bind.
      * destruct (String.eqb _ _);
          [apply same_zstd_compress | apply same_bz2_compress].
      * intros _. destruct is_dir; [|apply same_ret].
        apply same_bind; [apply same_path_exists|].
        intros e. destruct e; [apply same_os_remove | apply same_ret].
  - destruct (is_tar_name (source a)).
    + apply same_bind.
      * destruct (String.eqb _ _);
          [apply same_zstd_decompress | apply same_bz2_decompress].
      * intros _. apply same_bind; [apply same_tar_unpack|].
        intros _. apply same_os_remove.
    + destruct (String.eqb _ _);
        [apply same_zstd_decompress | apply same_bz2_decompress].
Qed.

(** X12: the flags [--progress] and [--benchmark] change only what is
    shown.  Two runs of [main] on the same file system with the same mode,
    source and target end the same way (normal return, the same exit code
    or the same exception) and leave the same file system, whatever the
    two flags are and whatever had been printed before. *)
Theorem flags_change_only_output :
  forall (c x : bool) (src dst : path) (b p b' p' : bool) (w w' : world),
    root w = root w' ->
    fst (main B (mkArgs c x src dst b p) w) =
      fst (main B (mkArgs c x src dst b' p') w')
    /\ root (snd (main B (mkArgs c x src dst b p) w)) =
         root (snd (main B (mkArgs c x src dst b' p') w')).
Proof.
  intros c x src dst b p b' p' w w' R.
  now apply same_main.
Qed.

End Presentation.

Lemma flags_change_only_output_witness :
  root sample_world = root (mkWorld sample_root [Println "x"] [] [])
  /\ fst (main Toy.libs (mkArgs true false ["proj"] ["p.tar.bz2"] true true)
            sample_world) =
     fst (main Toy.libs (mkArgs true false ["proj"] ["p.tar.bz2"] false false)
            (mkWorld sample_root [Println "x"] [] []))
  /\ root (snd (main Toy.libs
                  (mkArgs true false ["proj"] ["p.tar.bz2"] true true)
                  sample_world)) =
     root (snd (main Toy.libs
                  (mkArgs true false ["proj"] ["p.tar.bz2"] false false)
                  (mkWorld sample_root [Println "x"] [] []))).
Proof.
  split; [reflexivity|].
  apply (flags_change_only_output Toy.libs true false ["proj"] ["p.tar.bz2"]
           true true false false sample_world
           (mkWorld sample_root [Println "x"] [] [])).
  reflexivity.
Defined.

(** ** Where [sys.exit] can come from *)

Lemma never_exits_ret (A : Type) (a : A) : never_exits (ret a).
Proof. intros w c. discriminate. Qed.

Lemma never_exits_raise (A : Type) (e : exn) : never_exits (@raise A e).
Proof. intros w c. discriminate. Qed.

Lemma never_exits_bind (A C : Type) (m : M A) (k : A -> M C) :
  never_exits m -> (forall x, never_exits (k x)) ->
  never_exits (x <- m ;; k x).
Proof.
  intros H K w c. unfold bind. specialize (H w c).
  destruct (m w) as [[x | e] w1]; cbn [fst] in *; [apply K|].
  intros Q. apply H. injection Q as ->. reflexivity.
Qed.

Lemma never_exits_quiet (m : M unit) : quiet m -> never_exits m.
Proof. intros Q w c. destruct (Q w) as [-> _]. discriminate. Qed.

Lemma never_exits_get_root : never_exits get_root.
Proof. intros w c. discriminate. Qed.

Lemma never_exits_set_root (r : node) : never_exits (set_root r).
Proof. intros w c. discriminate. Qed.

Ltac no_exit :=
  repeat first
    [ apply never_exits_ret | apply never_exits_raise
    | apply never_exits_set_root
    | apply never_exits_bind;
        [ first [ apply never_exits_get_root
                | apply never_exits_quiet;
                  first [apply quiet_log_op | apply quiet_emit] ]
        | intros ? ]
    | match goal with
      | |- never_exits (match ?x with _ => _ end) => destruct x
      end ].

Lemma never_exits_read_bytes (p : path) : never_exits (read_bytes p).
Proof. unfold read_bytes. no_exit. Qed.

Lemma never_exits_write_bytes (p : path) (d : bytes) :
  never_exits (write_bytes p d).
Proof. unfold write_bytes. no_exit. Qed.

Lemma never_exits_os_remove (p : path) : never_exits (os_remove p).
Proof. unfold os_remove. no_exit. Qed.

Lemma never_exits_os_makedirs (p : path) : never_exits (os_makedirs p).
Proof. unfold os_makedirs. no_exit. Qed.

Lemma never_exits_path_exists (p : path) : never_exits (path_exists p).
Proof. unfold path_exists. no_exit. Qed.

Lemma never_exits_for_loop (S : Type) (body : Z -> S -> M S) (l : list Z) :
  (forall i s, never_exits (body i s)) ->
  forall s, never_exits (for_loop l body s).
Proof.
  intros H. induction l as [|i l IH]; intros s; cbn [for_loop].
  - apply never_exits_ret.
  - apply never_exits_bind; [apply H | exact IH].
Qed.

Lemma never_exits_while_loop (S : Type) (body : Z -> S -> M S)
  (total step : Z) (fuel : nat) :
  (forall i s, never_exits (body i s)) ->
  forall i s, never_exits (while_loop fuel i total step body s).
Proof.
  intros H. induction fuel as [|fuel IH]; intros i s; cbn [while_loop].
  - apply never_exits_ret.
  - destruct (i <? total); [|apply never_exits_ret].
    apply never_exits_bind; [apply H | intros s'; apply IH].
Qed.

Section Exits.

Variable B : backend.

Lemma never_exits_compress_pass (ext : string) (src dst : path) (sp : bool) :
  never_exits (compress_pass B ext src dst sp).
Proof.
  unfold compress_pass. destruct (String.eqb ext ".zst").
  - unfold zstd_compress.
    apply never_exits_bind; [apply never_exits_read_bytes | intros data].
    cbv zeta. apply never_exits_bind.
    + apply never_exits_for_loop. intros i [c out].
      destruct (zc_compress B c _) as [c' piece].
      apply never_exits_bind; [|intros _; apply never_exits_ret].
      apply never_exits_quiet, quiet_shown, quiet_pacman_progress.
    + intros [c out].
      apply never_exits_bind; [apply never_exits_write_bytes | intros _].
      apply never_exits_quiet, quiet_shown, quiet_emit.
  - unfold bz2_compress.
    apply never_exits_bind; [apply never_exits_read_bytes | intros data].
    cbv zeta.
    apply never_exits_bind; [apply never_exits_write_bytes | intros _].
    apply never_exits_quiet, quiet_bz2_tail.
Qed.

Lemma never_exits_decompress_pass (ext : string) (src dst : path) (sp : bool) :
  never_exits (decompress_pass B ext src dst sp).
Proof.
  unfold decompress_pass. destruct (String.eqb ext ".zst").
  - unfold zstd_decompress.
    apply never_exits_bind; [apply never_exits_read_bytes | intros data].
    cbv zeta. apply never_exits_bind.
    + apply never_exits_while_loop. intros i [c out].
      destruct (zd_decompress B c _) as [[c' piece]|];
        [|apply never_exits_raise].
      apply never_exits_bind; [|intros _; apply never_exits_ret].
      apply never_exits_quiet, quiet_shown, quiet_pacman_progress.
    + intros [c out].
      apply never_exits_bind; [apply never_exits_write_bytes | intros _].
      apply never_exits_quiet, quiet_shown, quiet_emit.
  - unfold bz2_decompress.
    apply never_exits_bind; [apply never_exits_read_bytes | intros data].
    destruct (bz2_decompress_fn B data); [|apply never_exits_raise].
    apply never_exits_bind; [apply never_exits_write_bytes | intros _].
    apply never_exits_quiet, quiet_bz2_tail.
Qed.

Lemma never_exits_tar_build (folder tar_path : path) :
  never_exits (tar_build B folder tar_path).
Proof.
  unfold tar_build.
  apply never_exits_bind; [apply never_exits_quiet, quiet_emit | intros _].
  apply never_exits_bind; [apply never_exits_write_bytes | intros _].
  apply never_exits_bind; [apply never_exits_quiet, quiet_log_op | intros _].
  apply never_exits_bind; [apply never_exits_get_root | intros r].
  destruct (alter remove_at r tar_path); [|apply never_exits_raise].
  destruct (get _ folder);
    [apply never_exits_write_bytes | apply never_exits_raise].
Qed.

Lemma never_exits_tar_unpack (tar_path dest_dir : path) :
  never_exits (tar_unpack B tar_path dest_dir).
Proof.
  unfold tar_unpack.
  apply never_exits_bind; [apply never_exits_quiet, quiet_log_op | intros _].
  apply never_exits_bind; [apply never_exits_os_makedirs | intros _].
  apply never_exits_bind; [apply never_exits_quiet, quiet_emit | intros _].
  apply never_exits_bind; [apply never_exits_read_bytes | intros data].
  apply never_exits_bind; [apply never_exits_get_root | intros r].
  no_exit.
Qed.

Lemma never_exits_cleanup (p : path) : never_exits (cleanup p).
Proof.
  unfold cleanup.
  apply never_exits_bind; [apply never_exits_path_exists | intros e].
  destruct e; [apply never_exits_os_remove | apply never_exits_ret].
Qed.

Lemma never_exits_extract_branch (a : args) :
  never_exits (extract_branch B a).
Proof.
  unfold extract_branch. destruct (is_tar_name (source a)).
  - apply never_exits_bind; [apply never_exits_decompress_pass | intros _].
    apply never_exits_bind; [apply never_exits_tar_unpack | intros _].
    apply never_exits_os_remove.
  - apply never_exits_decompress_pass.
Qed.

(** Past the three checks, the compress branch never exits. *)
Lemma never_exits_compress_branch (a : args) (is_dir : bool) :
  (is_dir = true -> is_tar_name (target a) = true) ->
  never_exits (compress_branch B a is_dir).
Proof.
  intros H. unfold compress_branch. apply never_exits_bind.
  - destruct is_dir; [|apply never_exits_ret].
    rewrite H by reflexivity. cbn [negb].
    apply never_exits_bind; [apply never_exits_tar_build | intros _].
    apply never_exits_ret.
  - intros input_obj.
    apply never_exits_bind; [apply never_exits_compress_pass | intros _].
    destruct is_dir; [apply never_exits_cleanup | apply never_exits_ret].
Qed.

Lemma main_dir_error (a : args) (w : world) :
  compress a = true ->
  extract a = false ->
  is_codec_ext (suffix (target a)) = true ->
  is_dir_node (get (root w) (source a)) = true ->
  is_tar_name (target a) = false ->
  main B a w =
    (Abort (SysExit 1),
     mkWorld (root w) (stdout w ++ [Println msg_dir]) (reports w)
             (oplog w ++ [OpStat (source a)])).
Proof.
  intros Hc Hx E Hd T. unfold main. rewrite Hc, Hx. simpl.
  unfold bind, path_is_dir, log_op, get_root, ret, bind. simpl.
  rewrite Hd, E, T. reflexivity.
Qed.

(** X13: once [parse_args] has returned its namespace [a], the rest of
    [main] ends by [sys.exit] only at its three checks ([parse_args]
    itself, which can exit on a bad command line, is not part of the
    model).  When it does, the exit code is 1, the file system is as it
    was, the last thing printed is the message of the check, and the cause
    is one of: the two mode flags agree; the deciding extension is neither
    [.zst] nor [.bz2]; a directory is compressed to a target that does not
    have exactly two suffixes with [.tar] first. *)
Theorem exit_only_at_the_checks :
  forall (a : args) (w : world) (c : Z),
    fst (main B a w) = Abort (SysExit c) ->
    c = 1
    /\ root (snd (main B a w)) = root w
    /\ ((compress a = extract a
         /\ last (stdout (snd (main B a w))) (Println EmptyString)
            = Println msg_mode)
        \/ (compress a = negb (extract a)
            /\ is_codec_ext (artifact_ext a) = false
            /\ last (stdout (snd (main B a w))) (Println EmptyString)
               = Println msg_ext)
        \/ (compress a = true /\ extract a = false
            /\ is_codec_ext (artifact_ext a) = true
            /\ is_dir_node (get (root w) (source a)) = true
            /\ is_tar_name (target a) = false
            /\ last (stdout (snd (main B a w))) (Println EmptyString)
               = Println msg_dir)).
Proof.
  intros a w c H.
  destruct (Bool.eqb (compress a) (extract a)) eqn:M.
  { apply Bool.eqb_prop in M. rewrite (main_mode_error B a w M) in *.
    cbn [fst snd root stdout] in *. injection H as <-.
    split; [reflexivity|]. split; [reflexivity|]. left.
    split; [exact M | apply last_last]. }
  assert (compress a = negb (extract a)) as M'.
  { destruct (compress a), (extract a); try reflexivity; discriminate. }
  destruct (is_codec_ext (artifact_ext a)) eqn:E.
  2: { rewrite (main_ext_error B a w M' E) in *.
       cbn [fst snd root stdout noted logged] in *. injection H as <-.
       split; [reflexivity|]. split; [reflexivity|]. right. left.
       split; [exact M'|]. split; [reflexivity|].
       apply last_last. }
  unfold artifact_ext in E.
  destruct (compress a) eqn:Hc.
  - assert (extract a = false) as Hx by (now destruct (extract a)).
    destruct (is_dir_node (get (root w) (source a))) eqn:Hd.
    + destruct (is_tar_name (target a)) eqn:T.
      * exfalso. revert H. rewrite (main_compress_run B a w Hc Hx E), Hd.
        destruct (then_bench (compress_branch B a true) a
                    (logged w [OpStat (source a)])) as [-> _].
        apply never_exits_compress_branch. intros _. exact T.
      * rewrite (main_dir_error a w Hc Hx E Hd T) in *.
        cbn [fst snd root stdout] in *. injection H as <-.
        split; [reflexivity|]. split; [reflexivity|]. right. right.
        repeat split; first [reflexivity | assumption | apply last_last].
    + exfalso. revert H. rewrite (main_compress_run B a w Hc Hx E), Hd.
      destruct (then_bench (compress_branch B a false) a
                  (logged w [OpStat (source a)])) as [-> _].
      apply never_exits_compress_branch. discriminate.
  - assert (extract a = true) as Hx by (now destruct (extract a)).
    exfalso. revert H. rewrite (main_extract_run B a w Hc Hx E).
    destruct (then_bench (extract_branch B a) a
                (logged w [OpStat (source a)])) as [-> _].
    apply never_exits_extract_branch.
Qed.

End Exits.

Lemma exit_only_at_the_checks_witness :
  fst (main Toy.libs (mkArgs true false ["proj"] ["p.zst"] false false)
         sample_world) = Abort (SysExit 1)
  /\ root (snd (main Toy.libs
                  (mkArgs true false ["proj"] ["p.zst"] false false)
                  sample_world)) = root sample_world.
Proof.
  split; [reflexivity|].
  destruct (exit_only_at_the_checks Toy.libs
              (mkArgs true false ["proj"] ["p.zst"] false false)
              sample_world (c := 1)) as [_ [R _]]; [reflexivity | exact R].
Defined.

(** ** The statistics block *)

Section Prints.

Variable P : out_event -> Prop.

Lemma prints_silent (A : Type) (m : M A) :
  preserves stdout m -> prints P m.
Proof.
  intros H w. exists []. rewrite app_nil_r. split; [apply H | constructor].
Qed.

Lemma prints_emit (e : out_event) : P e -> prints P (emit e).
Proof.
  intros H w. exists [e]. split; [reflexivity | repeat constructor; exact H].
Qed.

Lemma prints_bind (A C : Type) (m : M A) (k : A -> M C) :
  prints P m -> (forall a, prints P (k a)) -> prints P (bind m k).
Proof.
  intros Hm Hk w. rewrite bind_run. destruct (Hm w) as [evs1 [E1 F1]].
  destruct (m w) as [[a|x] w']; cbn [snd] in *.
  - destruct (Hk a w') as [evs2 [E2 F2]]. exists (evs1 ++ evs2).
    split; [rewrite E2, E1; now rewrite app_assoc | now apply Forall_app].
  - exists evs1. split; assumption.
Qed.

Lemma prints_for_loop (S : Type) (body : Z -> S -> M S) :
  (forall i s, prints P (body i s)) ->
  forall l s, prints P (for_loop l body s).
Proof.
  intros Hb. induction l as [|i l IH]; intros s; cbn [for_loop].
  - apply prints_silent. intros w. reflexivity.
  - apply prints_bind; [apply Hb | intros s'; apply IH].
Qed.

Lemma prints_while_loop (S : Type) (body : Z -> S -> M S) (total step : Z) :
  (forall i s, prints P (body i s)) ->
  forall fuel i s, prints P (while_loop fuel i total step body s).
Proof.
  intros Hb. induction fuel as [|fuel IH]; intros i s; cbn [while_loop].
  - apply prints_silent. intros w. reflexivity.
  - destruct (i <? total); [|apply prints_silent; intros w; reflexivity].
    apply prints_bind; [apply Hb | intros s'; apply IH].
Qed.

End Prints.

Ltac prints_step :=
  first
    [ apply prints_emit; reflexivity
    | apply prints_bind; [| intros ?]
    | apply prints_for_loop; intros ? ?
    | apply prints_while_loop; intros ? ?
    | match goal with
      | |- prints _ (if ?b then _ else _) => destruct b
      | |- prints _ (match ?x with _ => _ end) => destruct x
      | |- prints _ (let (_, _) := ?x in _) => destruct x
      end
    | (apply prints_silent; intros ?; reflexivity) ].

Ltac prints_all := repeat prints_step.

Section Statistics.

Variable B : backend.

(** Everything printed before the benchmark block is a progress redraw or
    a line of text. *)
Lemma compress_branch_prints (a : args) (is_dir : bool) :
  prints plain_event (compress_branch B a is_dir).
Proof.
  unfold compress_branch, compress_pass, zstd_compress, bz2_compress,
    tar_build, path_exists, os_remove, read_bytes, write_bytes,
    pacman_progress, print, log_op, log_report, get_root, set_root.
  prints_all.
Qed.

Lemma extract_branch_prints (a : args) :
  prints plain_event (extract_branch B a).
Proof.
  unfold extract_branch, decompress_pass, zstd_decompress, bz2_decompress,
    tar_unpack, os_makedirs, os_remove, read_bytes, write_bytes,
    pacman_progress, print, log_op, log_report, get_root, set_root.
  prints_all.
Qed.

Lemma calc_size_keeps_stdout (p : path) : preserves stdout (calc_size p).
Proof.
  unfold calc_size, path_is_file, path_is_dir, path_file_size, path_rglob,
    log_op, get_root.
  frame.
Qed.

Lemma bench_block_run (a : args) (w : world) :
  benchmark a = true ->
  fst (bench_block a w) = Ok tt
  /\ root (snd (bench_block a w)) = root w
  /\ stdout (snd (bench_block a w)) =
       stdout w ++ [Benchmark (spec_size (root w) (source a))
                              (spec_size (root w) (target a))
                              (negb (spec_size (root w) (source a) =? 0))].
Proof.
  intros Hb. destruct (bench_block_ok a w) as [F R].
  split; [exact F|]. split; [exact R|].
  unfold bench_block. rewrite Hb. rewrite bind_run.
  destruct (calc_size_run (source a) w) as [F1 R1].
  pose proof (calc_size_keeps_stdout (source a) w) as S1.
  destruct (calc_size (source a) w) as [[n1|x] w1]; cbn [fst snd] in *;
    [|discriminate].
  injection F1 as ->. rewrite bind_run.
  destruct (calc_size_run (target a) w1) as [F2 R2].
  pose proof (calc_size_keeps_stdout (target a) w1) as S2.
  destruct (calc_size (target a) w1) as [[n2|x] w2]; cbn [fst snd] in *;
    [|discriminate].
  injection F2 as ->. cbn [emit snd stdout]. rewrite S2, S1, R1.
  reflexivity.
Qed.

(** What a stage followed by the benchmark block prints. *)
Lemma stage_then_bench (m : M unit) (a : args) (w0 w : world) :
  prints plain_event m ->
  stdout w0 = stdout w ->
  let run := (m ;; bench_block a) w0 in
  exists evs,
    Forall plain_event evs
    /\ stdout (snd run) =
         stdout w ++ evs ++
         (if benchmark a && returned (fst run)
          then [Benchmark (spec_size (root (snd run)) (source a))
                          (spec_size (root (snd run)) (target a))
                          (negb (spec_size (root (snd run)) (source a) =? 0))]
          else []).
Proof.
  intros Hp S run. subst run. destruct (Hp w0) as [evs [E F]].
  exists evs. split; [exact F|]. rewrite bind_run.
  destruct (m w0) as [[[]|x] w1]; cbn [fst snd] in *.
  - destruct (benchmark a) eqn:Hb.
    + destruct (bench_block_run a w1 Hb) as [F1 [R1 S1]].
      rewrite S1, F1, R1, E, S. cbn [andb returned].
      now rewrite <- app_assoc.
    + unfold bench_block. rewrite Hb. cbn [andb ret snd].
      now rewrite app_nil_r, E, S.
  - rewrite andb_false_r, app_nil_r, E, S. reflexivity.
Qed.

(** X14: the statistics block is printed exactly when [--benchmark] is
    given and the operation returned normally; it is then the last thing
    printed, once, and its two sizes are [calc_size] of the source and of
    the target on the file system the run leaves, with the ratio line
    exactly when the input size is not zero.  Everything else [main]
    prints is a progress redraw or a line of text. *)
Theorem statistics_only_after_success :
  forall (a : args) (w : world),
    let run := main B a w in
    let r' := root (snd run) in
    exists evs,
      Forall (fun e => is_statistics e = false) evs
      /\ stdout (snd run) =
           stdout w ++ evs ++
           (if benchmark a && returned (fst run)
            then [Benchmark (spec_size r' (source a))
                            (spec_size r' (target a))
                            (negb (spec_size r' (source a) =? 0))]
            else []).
Proof.
  intros a w run r'. subst r' run.
  destruct (Bool.eqb (compress a) (extract a)) eqn:M.
  { apply Bool.eqb_prop in M. rewrite (main_mode_error B a w M).
    cbn [fst snd root stdout returned]. rewrite andb_false_r.
    exists [Println msg_mode]. split; [now repeat constructor|].
    now rewrite app_nil_r. }
  assert (compress a = negb (extract a)) as M'.
  { destruct (compress a), (extract a); try reflexivity; discriminate. }
  destruct (is_codec_ext (artifact_ext a)) eqn:E.
  2: { rewrite (main_ext_error B a w M' E).
       cbn [fst snd root stdout returned noted logged].
       rewrite andb_false_r.
       exists [Println msg_ext]. split; [now repeat constructor|].
       now rewrite app_nil_r. }
  unfold artifact_ext in E. destruct (compress a) eqn:Hc.
  - assert (extract a = false) as Hx by (now destruct (extract a)).
    rewrite (main_compress_run B a w Hc Hx E).
    apply stage_then_bench; [apply compress_branch_prints | reflexivity].
  - assert (extract a = true) as Hx by (now destruct (extract a)).
    rewrite (main_extract_run B a w Hc Hx E).
    apply stage_then_bench; [apply extract_branch_prints | reflexivity].
Qed.

End Statistics.

(** ** Overwriting *)

(** A regular file can always be written over. *)
Lemma write_over_file (d : bytes) (p : path) :
  forall (r : node) (old : bytes),
    p <> [] ->
    get r p = Some (File old) ->
    exists r', alter (write_at d) r p = Some r'.
Proof.
  induction p as [|c p IH]; intros r old Hne G; [contradiction|].
  destruct r as [d0 | es]; [discriminate|].
  cbn [get] in G. cbn [alter].
  destruct (assoc c es) as [child|] eqn:A; [|discriminate].
  destruct p as [|c2 q].
  - cbn [get] in G. injection G as ->. cbn [write_at]. eexists; reflexivity.
  - destruct (IH child old) as [child' E]; [discriminate | exact G |].
    rewrite E. eexists; reflexivity.
Qed.

Section Overwriting.

Variable B : backend.

(** X15: a run that does not bundle (a regular file compressed, or a
    source not named like a bundle extracted) writes over a target that
    already exists as a regular file, without asking: [main] returns
    normally and the target holds the new contents.  With the target equal
    to the source this replaces the source by its own compressed or
    decompressed form. *)
Theorem existing_target_is_overwritten :
  forall (a : args) (w : world) (data old out : bytes),
    compress a = negb (extract a) ->
    is_codec_ext (artifact_ext a) = true ->
    get (root w) (source a) = Some (File data) ->
    get (root w) (target a) = Some (File old) ->
    target a <> [] ->
    (extract a = true -> is_tar_name (source a) = false) ->
    (if compress a then Some (encode B (artifact_ext a) data)
     else decode B (artifact_ext a) data) = Some out ->
    fst (main B a w) = Ok tt
    /\ get (root (snd (main B a w))) (target a) = Some (File out).
Proof.
  intros a w data old out M E G Gt Hne T Out.
  destruct (@write_over_file out (target a) (root w) old Hne Gt) as [r' W].
  pose proof (get_written _ _ _ W) as Gw.
  unfold artifact_ext in *. destruct (compress a) eqn:Hc.
  - assert (extract a = false) as Hx by (now destruct (extract a)).
    injection Out as <-.
    rewrite (main_compress_run B a w Hc Hx E).
    set (w0 := logged w [OpStat (source a)]).
    destruct (then_bench (compress_branch B a
                (is_dir_node (get (root w) (source a)))) a w0) as [-> ->].
    rewrite G. cbn [is_dir_node].
    change (compress_branch B a false w0)
      with ((compress_pass B (suffix (target a)) (source a) (target a)
                           (progress a) ;; ret tt) w0).
    rewrite bind_run.
    pose proof (compress_pass_spec B (suffix (target a)) (source a)
                  (target a) (progress a) w0 G) as P.
    cbv zeta in P. change (root w0) with (root w) in P. rewrite W in P.
    destruct P as [P1 P2].
    destruct (compress_pass B (suffix (target a)) (source a) (target a)
                (progress a) w0) as [[[]|x] w1]; [|discriminate].
    cbn [fst snd ret] in *. subst r'. split; [reflexivity | exact Gw].
  - assert (extract a = true) as Hx by (now destruct (extract a)).
    rewrite (main_extract_run B a w Hc Hx E).
    set (w0 := logged w [OpStat (source a)]).
    destruct (then_bench (extract_branch B a) a w0) as [-> ->].
    unfold extract_branch. rewrite (T Hx).
    pose proof (decompress_pass_spec B (suffix (source a)) (source a)
                  (target a) (progress a) w0 G) as P.
    cbv zeta in P. rewrite Out in P. change (root w0) with (root w) in P.
    rewrite W in P. destruct P as [_ [P1 P2]].
    split; [exact P1 | rewrite P2; exact Gw].
Qed.

End Overwriting.

Lemma existing_target_is_overwritten_witness :
  is_codec_ext
    (artifact_ext (mkArgs false true ["a.b.tar.zst"] ["a.b.tar.zst"]
                          false false)) = true
  /\ get (root triple_world) ["a.b.tar.zst"] =
       Some (File (Toy.magic_zst :: hello))
  /\ is_tar_name ["a.b.tar.zst"] = false
  /\ decode Toy.libs ".zst" (Toy.magic_zst :: hello) = Some hello
  /\ fst (main Toy.libs
            (mkArgs false true ["a.b.tar.zst"] ["a.b.tar.zst"] false false)
            triple_world) = Ok tt
  /\ get (root (snd (main Toy.libs
                       (mkArgs false true ["a.b.tar.zst"] ["a.b.tar.zst"]
                               false false)
                       triple_world))) ["a.b.tar.zst"] = Some (File hello).
Proof.
  split; [reflexivity|]. split; [reflexivity|]. split; [reflexivity|].
  split; [vm_compute; reflexivity|].
  apply (@existing_target_is_overwritten Toy.libs
           (mkArgs false true ["a.b.tar.zst"] ["a.b.tar.zst"] false false)
           triple_world (Toy.magic_zst :: hello) (Toy.magic_zst :: hello)
           hello);
    first [reflexivity | discriminate | (vm_compute; reflexivity)
          | (intros _; reflexivity)].
Defined.
